(** * simpleperf report-sample: sample resolution and the report stream

    A shallow embedding of [simpleperf/cmd_report_sample.cpp]:
    the decoder and validator [DumpProtobufReport], the call-chain resolver
    in [ProcessSampleRecord] / [GetCallEntry], and the two sample printers
    [PrintSampleRecordInProtobuf] and [PrintSampleRecord].

    Conventions.
    - Unsigned C++ integers ([uint32_t], [uint64_t], [size_t]) are [N],
      signed ones ([int32_t]) are [Z]; every place where the source wraps
      or casts is written out with [uint32], [uint64] below.
    - A [FILE*] opened for writing is the [string] of the bytes written to
      it so far.
    - A function that can [return false] half way returns a pair of the
      boolean and the state reached at that point. *)

From Stdlib Require Import ZArith NArith Lia List Bool String Ascii.
From Stdlib Require Import DecimalString HexadecimalString.
From stdpp Require Import gmap strings list fin_maps sorting.

Open Scope string_scope.
Open Scope list_scope.

(** ** Machine integers and printf conversions *)

Definition uint32 (z : Z) : N := Z.to_N (z mod 2 ^ 32).
Definition uint64 (z : Z) : N := Z.to_N (z mod 2 ^ 64).

(** [%u], [%zu], [PRIu64] *)
Definition fmt_u (n : N) : string :=
  DecimalString.NilZero.string_of_uint (N.to_uint n).

(** [%d] *)
Definition fmt_d (z : Z) : string :=
  DecimalString.NilZero.string_of_int (Z.to_int z).

(** [PRIx64] *)
Definition fmt_x (n : N) : string :=
  HexadecimalString.NilZero.string_of_uint (N.to_hex_uint n).

(** [std::string::c_str()] printed with [%s]: the bytes before the first
    NUL. *)
Fixpoint c_str (s : string) : string :=
  match s with
  | EmptyString => EmptyString
  | String c r => if Ascii.eqb c "000"%char then EmptyString else String c (c_str r)
  end.

Fixpoint spaces (n : nat) : string :=
  match n with
  | O => EmptyString
  | S k => String " "%char (spaces k)
  end.

(** Modelled from the spec: [FprintIndented(fp, indent, fmt, ...)] is
    defined in utils.cpp.  The text format is indented lines [key: value];
    a level of indentation is taken to be two blanks, and [s] is the text
    that the format and its arguments give. *)
Definition FprintIndented (fp : string) (indent : nat) (s : string) : string :=
  fp +:+ spaces (indent * 2) +:+ s.

Definition nl : string := String "010"%char EmptyString.

(** [android::base::EndsWith(s, suffix)] *)
Definition EndsWith (s suffix : string) : bool :=
  (String.length suffix <=? String.length s)%nat &&
  String.eqb
    (String.substring (String.length s - String.length suffix)
       (String.length suffix) s)
    suffix.

(** ** The messages of report_sample.proto

    [proto::Record] carries one of five messages; the generated accessors
    keep their names, one module per message. *)

Module proto.

Module Sample_CallChainEntry.
Record t := mk {
  vaddr_in_file : N;   (* uint64 *)
  file_id : N;         (* uint32 *)
  symbol_id : Z        (* int32 *)
}.
End Sample_CallChainEntry.

Module Sample.
Record t := mk {
  time : N;            (* uint64 *)
  event_count : N;     (* printed with PRIu64 *)
  thread_id : Z;       (* int32 *)
  callchain : list Sample_CallChainEntry.t;
  event_type_id : N    (* uint32 *)
}.
End Sample.

Module LostSituation.
Record t := mk {
  sample_count : N;
  lost_count : N
}.
End LostSituation.

Module File.
Record t := mk {
  id : N;              (* uint32 *)
  path : string;
  symbol : list string;
  mangled_symbol : list string
}.
(** [symbol_size()] is an [int]; [files.push_back] stores it as
    [uint32_t]. *)
Definition symbol_size (f : t) : Z := Z.of_nat (length (symbol f)).
End File.

Module Thread.
Record t := mk {
  thread_id : N;
  process_id : N;
  thread_name : string
}.
End Thread.

Module MetaInfo.
Record t := mk {
  event_type : list string;
  app_package_name : option string   (* has_app_package_name() *)
}.
End MetaInfo.

(** [has_sample()], [has_lost()], ... ; [none_set] is a record in which
    no field is present. *)
Inductive Record :=
| sample (s : Sample.t)
| lost (l : LostSituation.t)
| file (f : File.t)
| thread (t : Thread.t)
| meta_info (m : MetaInfo.t)
| none_set.

End proto.

(** ** The report file as the decoder reads it

    The first bytes are read with [fread]; what follows is a coded stream,
    a sequence of frames.  A frame is the 32-bit little-endian length and
    the result of [ParseFromCodedStream] on that many bytes ([None] when
    the protobuf library rejects them).  A stream that ends without a
    zero length makes [ReadLittleEndian32] fail. *)

Module Frame.
Record t := mk {
  size : N;
  parsed : option proto.Record
}.
End Frame.

Record ReportFile := mkReportFile {
  leading_bytes : string;     (* magic and version, as many as the file has *)
  coded_stream : list Frame.t
}.

Definition PROT_FILE_MAGIC : string := "SIMPLEPERF".
Definition PROT_FILE_VERSION : N := 1.

(** [fread(&version, sizeof(uint16_t), 1, fp)] on a little-endian host. *)
Definition read_uint16 (s : string) : option N :=
  match s with
  | String lo (String hi _) => Some (N_of_ascii lo + 256 * N_of_ascii hi)%N
  | _ => None
  end.

(** ** DumpProtobufReport *)

(** The locals of [DumpProtobufReport], the report written so far, and
    [sample_count], which the source declares [static] inside the
    function: it is initialised once per process and keeps its value from
    one call of [DumpProtobufReport] to the next. *)
Record DumpState := mkDumpState {
  report : string;                (* what report_fp_ has received *)
  max_symbol_id_map : gmap N Z;   (* file_id -> max symbol_id requested *)
  files : list N;                 (* files[file_id] = number of symbols *)
  max_message_size : N;
  sample_count : N                (* static size_t sample_count *)
}.

Definition print (indent : nat) (s : string) (st : DumpState) : DumpState :=
  mkDumpState (FprintIndented (report st) indent s) (max_symbol_id_map st)
    (files st) (max_message_size st) (sample_count st).

Definition set_max_symbol_id_map (m : gmap N Z) (st : DumpState) : DumpState :=
  mkDumpState (report st) m (files st) (max_message_size st) (sample_count st).

Definition set_files (l : list N) (st : DumpState) : DumpState :=
  mkDumpState (report st) (max_symbol_id_map st) l (max_message_size st)
    (sample_count st).

Definition set_max_message_size (n : N) (st : DumpState) : DumpState :=
  mkDumpState (report st) (max_symbol_id_map st) (files st) n (sample_count st).

Definition set_sample_count (n : N) (st : DumpState) : DumpState :=
  mkDumpState (report st) (max_symbol_id_map st) (files st)
    (max_message_size st) n.

(** [max_symbol_id_map[k] = std::max(max_symbol_id_map[k], symbol_id)];
    [operator[]] inserts 0 for a key that is not there yet. *)
Definition record_symbol_id (k : N) (symbol_id : Z) (m : gmap N Z) : gmap N Z :=
  <[k := Z.max (default 0%Z (m !! k)) symbol_id]> m.

(** The loop over [sample.callchain(i)]. *)
Fixpoint dump_callchain (cc : list proto.Sample_CallChainEntry.t)
    (st : DumpState) : bool * DumpState :=
  match cc with
  | [] => (true, st)
  | callchain :: rest =>
    let st := print 2 ("vaddr_in_file: " +:+
                fmt_x (proto.Sample_CallChainEntry.vaddr_in_file callchain) +:+ nl) st in
    let st := print 2 ("file_id: " +:+
                fmt_u (proto.Sample_CallChainEntry.file_id callchain) +:+ nl) st in
    let symbol_id := proto.Sample_CallChainEntry.symbol_id callchain in
    let st := print 2 ("symbol_id: " +:+ fmt_d symbol_id +:+ nl) st in
    if (symbol_id <? -1)%Z then (false, st)
    else
      let st :=
        if negb (symbol_id =? -1)%Z then
          set_max_symbol_id_map
            (record_symbol_id (proto.Sample_CallChainEntry.file_id callchain)
               symbol_id (max_symbol_id_map st)) st
        else st in
      dump_callchain rest st
  end.

Definition print_each (indent : nat) (key : string) (l : list string)
    (st : DumpState) : DumpState :=
  fold_left (fun st s => print indent (key +:+ c_str s +:+ nl) st) l st.

(** The body of the [while] loop after a record has been parsed. *)
Definition dump_record (r : proto.Record) (st : DumpState) : bool * DumpState :=
  match r with
  | proto.sample sample =>
    let st := set_sample_count (uint64 (Z.of_N (sample_count st) + 1)) st in
    let st := print 0 ("sample " +:+ fmt_u (sample_count st) +:+ ":" +:+ nl) st in
    let st := print 1 ("event_type_id: " +:+ fmt_u (proto.Sample.event_type_id sample) +:+ nl) st in
    let st := print 1 ("time: " +:+ fmt_u (proto.Sample.time sample) +:+ nl) st in
    let st := print 1 ("event_count: " +:+ fmt_u (proto.Sample.event_count sample) +:+ nl) st in
    let st := print 1 ("thread_id: " +:+ fmt_d (proto.Sample.thread_id sample) +:+ nl) st in
    let st := print 1 ("callchain:" +:+ nl) st in
    dump_callchain (proto.Sample.callchain sample) st
  | proto.lost lost =>
    let st := print 0 ("lost_situation:" +:+ nl) st in
    let st := print 1 ("sample_count: " +:+ fmt_u (proto.LostSituation.sample_count lost) +:+ nl) st in
    let st := print 1 ("lost_count: " +:+ fmt_u (proto.LostSituation.lost_count lost) +:+ nl) st in
    (true, st)
  | proto.file file =>
    let st := print 0 ("file:" +:+ nl) st in
    let st := print 1 ("id: " +:+ fmt_u (proto.File.id file) +:+ nl) st in
    let st := print 1 ("path: " +:+ c_str (proto.File.path file) +:+ nl) st in
    let st := print_each 1 "symbol: " (proto.File.symbol file) st in
    let st := print_each 1 "mangled_symbol: " (proto.File.mangled_symbol file) st in
    if negb (proto.File.id file =? N.of_nat (length (files st)))%N then (false, st)
    else (true, set_files (files st ++ [uint32 (proto.File.symbol_size file)]) st)
  | proto.thread thread =>
    let st := print 0 ("thread:" +:+ nl) st in
    let st := print 1 ("thread_id: " +:+ fmt_u (proto.Thread.thread_id thread) +:+ nl) st in
    let st := print 1 ("process_id: " +:+ fmt_u (proto.Thread.process_id thread) +:+ nl) st in
    let st := print 1 ("thread_name: " +:+ c_str (proto.Thread.thread_name thread) +:+ nl) st in
    (true, st)
  | proto.meta_info meta_info =>
    let st := print 0 ("meta_info:" +:+ nl) st in
    let st := print_each 1 "event_type: " (proto.MetaInfo.event_type meta_info) st in
    let st :=
      match proto.MetaInfo.app_package_name meta_info with
      | Some name => print 0 ("app_package_name: " +:+ c_str name +:+ nl) st
      | None => st
      end in
    (true, st)
  | proto.none_set => (false, st)
  end.

(** The [while (true)] loop: [true] when it leaves through [break], [false]
    when the function returns from inside it. *)
Fixpoint dump_records (stream : list Frame.t) (st : DumpState) : bool * DumpState :=
  match stream with
  | [] => (false, st)                        (* ReadLittleEndian32 fails *)
  | f :: rest =>
    if (Frame.size f =? 0)%N then (true, st)       (* break *)
    else
      let st :=
        if (max_message_size st <? Frame.size f)%N
        then set_max_message_size (Frame.size f) st else st in
      match Frame.parsed f with
      | None => (false, st)                  (* ParseFromCodedStream fails *)
      | Some proto_record =>
        match dump_record proto_record st with
        | (true, st) => dump_records rest st
        | (false, st) => (false, st)
        end
      end
  end.

(** One turn of [for (auto pair : max_symbol_id_map)]. *)
Definition check_pair (files : list N) (pair : N * Z) : bool :=
  if (N.of_nat (length files) <=? pair.1)%N then false
  else if (default 0%N (files !! N.to_nat pair.1) <=? uint32 pair.2)%N then false
  else true.

(** The pass over [max_symbol_id_map] after the loop.  The iteration order
    of an [unordered_map] is unspecified; it decides which diagnostic is
    logged, not the value returned. *)
Definition check_symbol_ids (m : gmap N Z) (files : list N) : bool :=
  forallb (check_pair files) (map_to_list m).

(** [DumpProtobufReport]: [static_sample_count] is the value the function's
    static counter has when the call starts (0 for the first call in a
    process).  The result is the returned boolean and the final state,
    whose [report] is the text written and whose [sample_count] is the
    value the static counter is left with. *)
Definition DumpProtobufReport (f : ReportFile) (report_fp : string)
    (static_sample_count : N) : bool * DumpState :=
  let st := mkDumpState report_fp ∅ [] (64 * 2 ^ 20) static_sample_count in
  let magic := String.substring 0 10 (leading_bytes f) in
  if negb ((10 <=? String.length (leading_bytes f))%nat
           && String.eqb magic PROT_FILE_MAGIC) then (false, st)
  else
    let st := print 0 ("magic: " +:+ c_str magic +:+ nl) st in
    match read_uint16 (String.substring 10 2 (leading_bytes f)) with
    | None => (false, st)
    | Some version =>
      if negb (version =? PROT_FILE_VERSION)%N then (false, st)
      else
        let st := print 0 ("version: " +:+ fmt_u version +:+ nl) st in
        match dump_records (coded_stream f) st with
        | (false, st) => (false, st)
        | (true, st) =>
          (check_symbol_ids (max_symbol_id_map st) (files st), st)
        end
    end.

(** *** What a stream declares and references

    The views of a coded stream that the validation speaks about: the
    records in front of the terminator, the file-table records among them
    in stream order, and the (file id, symbol id) references made by the
    callchain entries of the samples, unresolved symbols left out. *)

Fixpoint records_read (stream : list Frame.t) : list proto.Record :=
  match stream with
  | [] => []
  | f :: rest =>
    if (Frame.size f =? 0)%N then []
    else match Frame.parsed f with
         | Some r => r :: records_read rest
         | None => []
         end
  end.

Definition file_records (rs : list proto.Record) : list proto.File.t :=
  omap (fun r => match r with proto.file f => Some f | _ => None end) rs.

Definition entry_reference (e : proto.Sample_CallChainEntry.t) : option (N * Z) :=
  if (proto.Sample_CallChainEntry.symbol_id e =? -1)%Z then None
  else Some (proto.Sample_CallChainEntry.file_id e,
             proto.Sample_CallChainEntry.symbol_id e).

Definition references (rs : list proto.Record) : list (N * Z) :=
  flat_map (fun r => match r with
                     | proto.sample s => omap entry_reference (proto.Sample.callchain s)
                     | _ => []
                     end) rs.

(** What [files.push_back(file.symbol_size())] stores for a file record. *)
Definition symbol_count (f : proto.File.t) : N := uint32 (proto.File.symbol_size f).

(** What one reference adds to [max_symbol_id_map]. *)
Definition note (m : gmap N Z) (p : N * Z) : gmap N Z :=
  record_symbol_id p.1 p.2 m.

(** The symbol ids requested on file id [k], in the order of the
    references. *)
Fixpoint requested (k : N) (refs : list (N * Z)) : list Z :=
  match refs with
  | [] => []
  | p :: rest => if (p.1 =? k)%N then p.2 :: requested k rest else requested k rest
  end.

(** The only thing the sample branch checks on an entry. *)
Definition entry_ok (e : proto.Sample_CallChainEntry.t) : bool :=
  (-1 <=? proto.Sample_CallChainEntry.symbol_id e)%Z.

(** The values a protobuf [int32] field and an [int] size can take. *)
Definition is_int32 (z : Z) : bool := ((- 2 ^ 31 <=? z) && (z <? 2 ^ 31))%Z.

Definition well_typed (rs : list proto.Record) : bool :=
  forallb (fun p : N * Z => is_int32 p.2) (references rs)
  && forallb (fun f => is_int32 (proto.File.symbol_size f)) (file_records rs).

(** ** The objects the report command works on *)

(** Modelled from the spec: [DsoType] is declared in dso.h.  The command
    only asks whether a file is of the interpreted-code kind,
    [DSO_DEX_FILE]. *)
Inductive DsoType := DSO_KERNEL | DSO_KERNEL_MODULE | DSO_ELF_FILE | DSO_DEX_FILE.

Definition DsoType_eqb (a b : DsoType) : bool :=
  match a, b with
  | DSO_KERNEL, DSO_KERNEL | DSO_KERNEL_MODULE, DSO_KERNEL_MODULE
  | DSO_ELF_FILE, DSO_ELF_FILE | DSO_DEX_FILE, DSO_DEX_FILE => true
  | _, _ => false
  end.

(** What the command reads from a [Dso]: [Path()], [FileName()], [type()]. *)
Record Dso := mkDso {
  Path : string;
  FileName : string;
  type : DsoType
}.

(** A [const Symbol*]: [symbol_ptr] is the address of the object, which is
    what [==] compares; [Name()] and [DemangledName()] are C strings. *)
Record Symbol := mkSymbol {
  symbol_ptr : N;
  Name : string;
  DemangledName : string
}.

Definition Symbol_ptr_eqb (a b : Symbol) : bool :=
  (symbol_ptr a =? symbol_ptr b)%N.

Module MapEntry.
Record t := mk { dso : Dso }.
End MapEntry.

Record ThreadEntry := mkThreadEntry {
  pid : N;
  tid : N;
  comm : string
}.

(** A [SampleRecord]: the fields the command reads and the result of
    [GetCallChain(&kernel_ip_count)], the vector of instruction pointers
    with the number of leading ones that are in kernel context. *)
Record SampleRecord := mkSampleRecord {
  time_data_time : N;
  period_data_period : N;
  tid_data_pid : N;
  tid_data_tid : N;
  GetCallChain : list N * nat
}.

Record CallEntry := mkCallEntry {
  dso : Dso;
  symbol : Symbol;
  vaddr_in_file : N
}.

(** ** Dump ids *)

(** Modelled from the spec: [Dso::GetDumpId], [Dso::CreateDumpId],
    [Symbol::GetDumpId] and [Dso::CreateSymbolDumpId] are defined in dso.h
    and dso.cpp.  The spec's ReferenceTable: a file id is the existing one
    for the path or the next sequential one, recorded on allocation;
    symbol ids have the same contract, scoped per file. *)
Record ReferenceTable := mkReferenceTable {
  file_ids : gmap string N;
  next_file_id : N;
  symbol_ids : gmap (string * N) N;     (* (file path, symbol) -> id *)
  next_symbol_id : gmap string N        (* per file *)
}.

(** Modelled from the spec: [dso->GetDumpId(&file_id)], the existing
    file id of the path if there is one. *)
Definition Dso_GetDumpId (rt : ReferenceTable) (d : Dso) : option N :=
  file_ids rt !! Path d.

(** Modelled from the spec: [dso->CreateDumpId()] allocates the next
    sequential file id and records it. *)
Definition Dso_CreateDumpId (rt : ReferenceTable) (d : Dso) : ReferenceTable * N :=
  let id := next_file_id rt in
  (mkReferenceTable (<[Path d := id]> (file_ids rt)) (uint32 (Z.of_N id + 1))
     (symbol_ids rt) (next_symbol_id rt), id).

(** Modelled from the spec: [symbol->GetDumpId(&symbol_id)], the existing
    id of the symbol within its file if there is one. *)
Definition Symbol_GetDumpId (rt : ReferenceTable) (d : Dso) (s : Symbol) : option N :=
  symbol_ids rt !! (Path d, symbol_ptr s).

(** Modelled from the spec: [dso->CreateSymbolDumpId(symbol)] allocates
    the next sequential symbol id of the file and records it. *)
Definition Dso_CreateSymbolDumpId (rt : ReferenceTable) (d : Dso) (s : Symbol)
    : ReferenceTable * N :=
  let id := default 0%N (next_symbol_id rt !! Path d) in
  (mkReferenceTable (file_ids rt) (next_file_id rt)
     (<[(Path d, symbol_ptr s) := id]> (symbol_ids rt))
     (<[Path d := uint32 (Z.of_N id + 1)]> (next_symbol_id rt)), id).

(** A [uint32_t] stored into an [int32_t]. *)
Definition int32 (n : N) : Z := ((Z.of_N n + 2 ^ 31) mod 2 ^ 32 - 2 ^ 31)%Z.

(** ** The collaborators

    [ThreadTree], [RecordFileReader] and the protobuf runtime are other
    translation units; the command is verified against any implementation
    of the operations it calls. *)
Class Collaborators (ThreadTree : Type) := {
  FindThreadOrNew : ThreadTree -> N -> N -> ThreadTree * ThreadEntry;
  FindMap : ThreadTree -> ThreadEntry -> N -> bool -> MapEntry.t;
  IsUnknownDso : ThreadTree -> Dso -> bool;
  (** the symbol returned, [*pvaddr_in_file] and [*pdso] *)
  FindSymbol : ThreadTree -> MapEntry.t -> N -> Symbol * N * Dso;
  UnknownSymbol : ThreadTree -> Symbol;
  (** [record_file_reader_->GetAttrIndexOfRecord(&r)] *)
  GetAttrIndexOfRecord : SampleRecord -> nat;
  (** [proto_record.ByteSize()] and [SerializeToCodedStream(coded_os_)] *)
  ByteSize : proto.Record -> N;
  SerializeToCodedStream : proto.Record -> bool
}.

(** What a member function leaves behind: a returned boolean, or the
    process aborted by a failed [CHECK]. *)
Inductive Outcome := Returned (b : bool) | CheckFailed.

(** The members of [ReportSampleCommand] that the modelled functions read
    or write.  [dump_ids] stands for the dump ids that the source keeps
    inside the [Dso] and [Symbol] objects owned by [thread_tree_]. *)
Record ReportSampleCommand (ThreadTree : Type) := mkCommand {
  show_callchain_ : bool;
  use_protobuf_ : bool;
  thread_tree_ : ThreadTree;
  dump_ids : ReferenceTable;
  report_fp_ : string;
  coded_os_ : list Frame.t;
  sample_count_ : N;
  lost_count_ : N;
  event_types_ : list string;
  remove_unknown_kernel_symbols_ : bool;
  kernel_symbols_available_ : bool;
  show_art_frames_ : bool
}.

Arguments mkCommand {ThreadTree}.
Arguments show_callchain_ {ThreadTree}.
Arguments use_protobuf_ {ThreadTree}.
Arguments thread_tree_ {ThreadTree}.
Arguments dump_ids {ThreadTree}.
Arguments report_fp_ {ThreadTree}.
Arguments coded_os_ {ThreadTree}.
Arguments sample_count_ {ThreadTree}.
Arguments lost_count_ {ThreadTree}.
Arguments event_types_ {ThreadTree}.
Arguments remove_unknown_kernel_symbols_ {ThreadTree}.
Arguments kernel_symbols_available_ {ThreadTree}.
Arguments show_art_frames_ {ThreadTree}.

Section Command.

Context {ThreadTree : Type} `{Collaborators ThreadTree}.

Local Abbreviation Cmd := (ReportSampleCommand ThreadTree).

Definition set_thread_tree_ (t : ThreadTree) (c : Cmd) : Cmd :=
  mkCommand (show_callchain_ c) (use_protobuf_ c) t (dump_ids c) (report_fp_ c)
    (coded_os_ c) (sample_count_ c) (lost_count_ c) (event_types_ c)
    (remove_unknown_kernel_symbols_ c) (kernel_symbols_available_ c)
    (show_art_frames_ c).

Definition set_dump_ids (rt : ReferenceTable) (c : Cmd) : Cmd :=
  mkCommand (show_callchain_ c) (use_protobuf_ c) (thread_tree_ c) rt (report_fp_ c)
    (coded_os_ c) (sample_count_ c) (lost_count_ c) (event_types_ c)
    (remove_unknown_kernel_symbols_ c) (kernel_symbols_available_ c)
    (show_art_frames_ c).

Definition set_report_fp_ (fp : string) (c : Cmd) : Cmd :=
  mkCommand (show_callchain_ c) (use_protobuf_ c) (thread_tree_ c) (dump_ids c) fp
    (coded_os_ c) (sample_count_ c) (lost_count_ c) (event_types_ c)
    (remove_unknown_kernel_symbols_ c) (kernel_symbols_available_ c)
    (show_art_frames_ c).

Definition set_coded_os_ (os : list Frame.t) (c : Cmd) : Cmd :=
  mkCommand (show_callchain_ c) (use_protobuf_ c) (thread_tree_ c) (dump_ids c)
    (report_fp_ c) os (sample_count_ c) (lost_count_ c) (event_types_ c)
    (remove_unknown_kernel_symbols_ c) (kernel_symbols_available_ c)
    (show_art_frames_ c).

Definition set_sample_count_ (n : N) (c : Cmd) : Cmd :=
  mkCommand (show_callchain_ c) (use_protobuf_ c) (thread_tree_ c) (dump_ids c)
    (report_fp_ c) (coded_os_ c) n (lost_count_ c) (event_types_ c)
    (remove_unknown_kernel_symbols_ c) (kernel_symbols_available_ c)
    (show_art_frames_ c).

(** *** GetCallEntry *)
Definition GetCallEntry (c : Cmd) (thread : ThreadEntry) (in_kernel : bool)
    (ip : N) (omit_unknown_dso : bool) : option CallEntry :=
  let map := FindMap (thread_tree_ c) thread ip in_kernel in
  if omit_unknown_dso && IsUnknownDso (thread_tree_ c) (MapEntry.dso map) then None
  else
    let '(symbol, vaddr_in_file, dso) := FindSymbol (thread_tree_ c) map ip in
    (* If we can't find symbol, use the dso shown in the map. *)
    let dso :=
      if Symbol_ptr_eqb symbol (UnknownSymbol (thread_tree_ c))
      then MapEntry.dso map else dso in
    Some (mkCallEntry dso symbol vaddr_in_file).

(** *** The resolver loop of ProcessSampleRecord *)

Definition is_entry_for_interpreter (entry : CallEntry) : bool :=
  EndsWith (Path (dso entry)) "/libart.so".

(** [while (!entries.empty() && is_entry_for_interpreter(entries.back()))
    entries.pop_back();] on the vector read back to front. *)
Fixpoint pop_back_interpreter (reversed : list CallEntry) : list CallEntry :=
  match reversed with
  | [] => []
  | back :: before =>
    if is_entry_for_interpreter back then pop_back_interpreter before
    else reversed
  end.

Definition pop_interpreter_entries (entries : list CallEntry) : list CallEntry :=
  rev (pop_back_interpreter (rev entries)).

(** The body of the [for] loop once [GetCallEntry] has produced [entry]:
    the new [entries] and [near_java_method]. *)
Definition add_entry (show_art_frames : bool) (entries : list CallEntry)
    (near_java_method : bool) (entry : CallEntry) : list CallEntry * bool :=
  if negb show_art_frames then
    (* Remove interpreter frames both before and after the Java frame. *)
    if DsoType_eqb (type (dso entry)) DSO_DEX_FILE then
      (pop_interpreter_entries entries ++ [entry], true)
    else if is_entry_for_interpreter entry then
      if near_java_method then (entries, near_java_method)      (* continue *)
      else (entries ++ [entry], near_java_method)
    else (entries ++ [entry], false)
  else (entries ++ [entry], near_java_method).

(** [for (size_t i = 0; i < ips.size(); ++i)], started at index [i] with
    the pointers [ips] still to visit. *)
Fixpoint resolve_from (c : Cmd) (thread : ThreadEntry) (kernel_ip_count : nat)
    (i : nat) (ips : list N) (entries : list CallEntry) (near_java_method : bool)
    : list CallEntry * bool :=
  match ips with
  | [] => (entries, near_java_method)
  | ip :: rest =>
    let omit_unknown_dso := (0 <? i)%nat in
    match GetCallEntry c thread (i <? kernel_ip_count)%nat ip omit_unknown_dso with
    | None => (entries, near_java_method)                        (* break *)
    | Some entry =>
      let '(entries, near_java_method) :=
        add_entry (show_art_frames_ c) entries near_java_method entry in
      resolve_from c thread kernel_ip_count (S i) rest entries near_java_method
    end
  end.

Definition resolve (c : Cmd) (thread : ThreadEntry) (kernel_ip_count : nat)
    (ips : list N) : list CallEntry :=
  (resolve_from c thread kernel_ip_count 0 ips [] false).1.

(** The frames the loop gets from [GetCallEntry] before it stops: one per
    pointer, up to the first pointer that [GetCallEntry] refuses. *)
Fixpoint resolved_frames (c : Cmd) (thread : ThreadEntry) (kernel_ip_count : nat)
    (i : nat) (ips : list N) : list CallEntry :=
  match ips with
  | [] => []
  | ip :: rest =>
    match GetCallEntry c thread (i <? kernel_ip_count)%nat ip (0 <? i)%nat with
    | None => []
    | Some entry => entry :: resolved_frames c thread kernel_ip_count (S i) rest
    end
  end.

(** *** The collapsing of interpreter frames as the spec words it

    These definitions follow the description of the state machine, not
    the code; the loop above is compared with them.  A frame is of the
    interpreted-code kind when its file is a dex file, otherwise an
    interpreter frame when its file is libart.so, otherwise neither. *)
Inductive FrameKind := InterpretedCode | Interpreter | Other.

Definition frame_kind (entry : CallEntry) : FrameKind :=
  if DsoType_eqb (type (dso entry)) DSO_DEX_FILE then InterpretedCode
  else if is_entry_for_interpreter entry then Interpreter
  else Other.

(** The output without the interpreter frames at its end. *)
Fixpoint spec_without_trailing_interpreters (out : list CallEntry) : list CallEntry :=
  match out with
  | [] => []
  | entry :: rest =>
    match spec_without_trailing_interpreters rest with
    | [] => if is_entry_for_interpreter entry then [] else [entry]
    | kept => entry :: kept
    end
  end.

Definition spec_collapse_step (state : list CallEntry * bool) (entry : CallEntry)
    : list CallEntry * bool :=
  let '(out, near_interpreted_code) := state in
  match frame_kind entry with
  | InterpretedCode => (spec_without_trailing_interpreters out ++ [entry], true)
  | Interpreter =>
    if near_interpreted_code then (out, true) else (out ++ [entry], false)
  | Other => (out ++ [entry], false)
  end.

(** *** WriteRecordInProtobuf

    The length goes out first; the body follows when serialisation
    succeeds. *)
Definition WriteRecordInProtobuf (proto_record : proto.Record) (c : Cmd) : bool * Cmd :=
  if negb (SerializeToCodedStream proto_record) then
    (false, set_coded_os_ (coded_os_ c ++ [Frame.mk (ByteSize proto_record) None]) c)
  else
    (true, set_coded_os_
             (coded_os_ c ++ [Frame.mk (ByteSize proto_record) (Some proto_record)]) c).

(** *** PrintSampleRecordInProtobuf *)

(** Android studio wants a clear call chain end: [__libc_init] or
    [__start_thread] in libc.so. *)
Definition is_call_chain_end (node : CallEntry) : bool :=
  String.eqb (FileName (dso node)) "libc.so" &&
  (String.eqb (Name (symbol node)) "__libc_init"
   || String.eqb (Name (symbol node)) "__start_thread").

(** One turn of [for (const CallEntry& node : entries)] up to
    [set_symbol_id]: the dump ids afterwards and the entry added. *)
Definition add_node (unknown_symbol : Symbol) (rt : ReferenceTable)
    (node : CallEntry) : ReferenceTable * proto.Sample_CallChainEntry.t :=
  let '(rt, file_id) :=
    match Dso_GetDumpId rt (dso node) with
    | Some file_id => (rt, file_id)
    | None => Dso_CreateDumpId rt (dso node)
    end in
  let '(rt, symbol_id) :=
    if negb (Symbol_ptr_eqb (symbol node) unknown_symbol) then
      match Symbol_GetDumpId rt (dso node) (symbol node) with
      | Some id => (rt, int32 id)
      | None =>
        let '(rt, id) := Dso_CreateSymbolDumpId rt (dso node) (symbol node) in
        (rt, int32 id)
      end
    else (rt, (-1)%Z) in
  (rt, proto.Sample_CallChainEntry.mk (vaddr_in_file node) file_id symbol_id).

(** The loop: the dump ids after it and the callchain of the sample. *)
Fixpoint add_callchain (unknown_symbol : Symbol) (rt : ReferenceTable)
    (entries : list CallEntry)
    : ReferenceTable * list proto.Sample_CallChainEntry.t :=
  match entries with
  | [] => (rt, [])
  | node :: rest =>
    let '(rt, callchain) := add_node unknown_symbol rt node in
    if is_call_chain_end node then (rt, [callchain])                (* break *)
    else
      let '(rt, more) := add_callchain unknown_symbol rt rest in
      (rt, callchain :: more)
  end.

Definition PrintSampleRecordInProtobuf (r : SampleRecord)
    (entries : list CallEntry) (c : Cmd) : bool * Cmd :=
  let '(rt, callchain) :=
    add_callchain (UnknownSymbol (thread_tree_ c)) (dump_ids c) entries in
  let sample :=
    proto.Sample.mk (time_data_time r) (period_data_period r)
      (int32 (tid_data_tid r)) callchain
      (uint32 (Z.of_nat (GetAttrIndexOfRecord r))) in
  WriteRecordInProtobuf (proto.sample sample) (set_dump_ids rt c).

(** *** PrintSampleRecord *)

Definition fprint (indent : nat) (s : string) (c : Cmd) : Cmd :=
  set_report_fp_ (FprintIndented (report_fp_ c) indent s) c.

Definition print_entry (indent : nat) (entry : CallEntry) (c : Cmd) : Cmd :=
  let c := fprint indent ("vaddr_in_file: " +:+ fmt_x (vaddr_in_file entry) +:+ nl) c in
  let c := fprint indent ("file: " +:+ c_str (Path (dso entry)) +:+ nl) c in
  fprint indent ("symbol: " +:+ c_str (DemangledName (symbol entry)) +:+ nl) c.

(** The lines up to [thread_name].  [event_types_[i]] is only read for
    the index of an attribute the record file has. *)
Definition print_sample_head (r : SampleRecord) (c : Cmd) : Cmd :=
  let c := fprint 0 ("sample:" +:+ nl) c in
  let c := fprint 1 ("event_type: " +:+
             c_str (nth (GetAttrIndexOfRecord r) (event_types_ c) "") +:+ nl) c in
  let c := fprint 1 ("time: " +:+ fmt_u (time_data_time r) +:+ nl) c in
  let c := fprint 1 ("event_count: " +:+ fmt_u (period_data_period r) +:+ nl) c in
  let c := fprint 1 ("thread_id: " +:+ fmt_d (int32 (tid_data_tid r)) +:+ nl) c in
  let '(tree, thread) :=
    FindThreadOrNew (thread_tree_ c) (tid_data_pid r) (tid_data_tid r) in
  let c := set_thread_tree_ tree c in
  fprint 1 ("thread_name: " +:+ c_str (comm thread) +:+ nl) c.

(** [if (entries.size() > 1u)] and the loop from index 1. *)
Definition print_callchain (others : list CallEntry) (c : Cmd) : Cmd :=
  match others with
  | [] => c
  | _ :: _ => fold_left (fun c e => print_entry 2 e c) others
                (fprint 1 ("callchain:" +:+ nl) c)
  end.

Definition PrintSampleRecord (r : SampleRecord) (entries : list CallEntry)
    (c : Cmd) : Outcome * Cmd :=
  let c := print_sample_head r c in
  match entries with
  | [] => (CheckFailed, c)                       (* CHECK(!entries.empty()) *)
  | first :: others =>
    (Returned true, print_callchain others (print_entry 1 first c))
  end.

(** *** ProcessSampleRecord *)

(** The first [if]: the call chain and kernel count after it. *)
Definition remove_kernel_ips (c : Cmd) (chain : list N * nat) : list N * nat :=
  let '(ips, kernel_ip_count) := chain in
  if (0 <? kernel_ip_count)%nat && remove_unknown_kernel_symbols_ c
     && negb (kernel_symbols_available_ c)
  then (drop kernel_ip_count ips, 0%nat)
  else (ips, kernel_ip_count).

(** The function from [if (!show_callchain_)] to its end, for the call
    chain and kernel count that the first two [if]s leave. *)
Definition process_chain (r : SampleRecord) (ips : list N) (kernel_ip_count : nat)
    (c : Cmd) : Outcome * Cmd :=
  let '(ips, kernel_ip_count) :=
    if negb (show_callchain_ c)
    then (take 1 ips, Nat.min kernel_ip_count 1)
    else (ips, kernel_ip_count) in
  let c := set_sample_count_ (uint64 (Z.of_N (sample_count_ c) + 1)) c in
  let '(tree, thread) :=
    FindThreadOrNew (thread_tree_ c) (tid_data_pid r) (tid_data_tid r) in
  let c := set_thread_tree_ tree c in
  let entries := resolve c thread kernel_ip_count ips in
  if use_protobuf_ c then
    let '(ok, c) := PrintSampleRecordInProtobuf r entries c in
    (Returned ok, c)
  else PrintSampleRecord r entries c.

Definition ProcessSampleRecord (r : SampleRecord) (c : Cmd) : Outcome * Cmd :=
  let '(ips, kernel_ip_count) := remove_kernel_ips c (GetCallChain r) in
  match ips with
  | [] => (Returned true, c)                       (* if (ips.empty()) *)
  | _ :: _ => process_chain r ips kernel_ip_count c
  end.

End Command.

(** ** A small thread tree to run the command on

    The tree is a table from instruction pointers to the dso mapped there
    and the symbol found there, if any.  An address that is not in the
    table lies in the unknown dso. *)

Module Fixture.

Local Open Scope N_scope.

Definition unknown_dso : Dso := mkDso "unknown" "unknown" DSO_ELF_FILE.
Definition unknown_symbol : Symbol := mkSymbol 0 "unknown" "unknown".

Definition libart : Dso := mkDso "/system/lib64/libart.so" "libart.so" DSO_ELF_FILE.
Definition base_vdex : Dso := mkDso "/data/app/base.vdex" "base.vdex" DSO_DEX_FILE.
Definition libnative : Dso := mkDso "/data/app/libnative.so" "libnative.so" DSO_ELF_FILE.
Definition libc : Dso := mkDso "/system/lib64/libc.so" "libc.so" DSO_ELF_FILE.
Definition kernel : Dso := mkDso "[kernel.kallsyms]" "[kernel.kallsyms]" DSO_KERNEL.

Definition Tree := list (N * (Dso * option Symbol)).

Definition tree : Tree :=
  [ (16, (libart, Some (mkSymbol 1 "ExecuteSwitchImpl" "art::interpreter::ExecuteSwitchImpl")));
    (17, (libart, Some (mkSymbol 2 "ArtInterpreterToInterpreterBridge" "art::interpreter::Bridge")));
    (18, (libart, Some (mkSymbol 3 "DoCall" "art::interpreter::DoCall")));
    (19, (libart, Some (mkSymbol 4 "Execute" "art::interpreter::Execute")));
    (32, (base_vdex, Some (mkSymbol 5 "com.example.Main.run" "com.example.Main.run")));
    (48, (libnative, Some (mkSymbol 6 "_Z4workv" "work()")));
    (49, (libnative, None));
    (64, (libc, Some (mkSymbol 7 "__libc_init" "__libc_init")));
    (65, (libc, Some (mkSymbol 8 "__start_thread" "__start_thread")));
    (66, (libc, Some (mkSymbol 9 "_start_main" "_start_main")));
    (80, (kernel, Some (mkSymbol 10 "do_syscall_64" "do_syscall_64")));
    (81, (kernel, Some (mkSymbol 11 "schedule" "schedule"))) ].

Fixpoint find (t : Tree) (ip : N) : option (Dso * option Symbol) :=
  match t with
  | [] => None
  | (a, m) :: rest => if (a =? ip)%N then Some m else find rest ip
  end.

#[global] Instance collaborators : Collaborators Tree := {
  FindThreadOrNew t pid tid := (t, mkThreadEntry pid tid "main");
  FindMap t thread ip in_kernel :=
    MapEntry.mk (match find t ip with Some (d, _) => d | None => unknown_dso end);
  IsUnknownDso t d := String.eqb (Path d) "unknown";
  FindSymbol t map ip :=
    match find t ip with
    | Some (_, Some s) => (s, ip, MapEntry.dso map)
    | _ => (unknown_symbol, ip, MapEntry.dso map)
    end;
  UnknownSymbol t := unknown_symbol;
  GetAttrIndexOfRecord r := 0%nat;
  ByteSize r := 1%N;
  SerializeToCodedStream r := true
}.

Definition no_dump_ids : ReferenceTable := mkReferenceTable ∅ 0 ∅ ∅.

(** A command freshly constructed, with the options given. *)
Definition command (show_callchain use_protobuf remove_unknown_kernel_symbols
    show_art_frames : bool) : ReportSampleCommand Tree :=
  mkCommand show_callchain use_protobuf tree no_dump_ids "" [] 0 0
    ["cpu-cycles"] remove_unknown_kernel_symbols false show_art_frames.

Definition main_thread : ThreadEntry := mkThreadEntry 100 100 "main".

Definition sample_of (ips : list N) (kernel_ip_count : nat) : SampleRecord :=
  mkSampleRecord 1000 1 100 100 (ips, kernel_ip_count).

Definition header : string :=
  "SIMPLEPERF" +:+ String "001"%char (String "000"%char EmptyString).

Definition end_of_stream : Frame.t := Frame.mk 0 None.

Definition frame (r : proto.Record) : Frame.t := Frame.mk 1 (Some r).

Definition sample_with (cc : list (N * Z)) : proto.Record :=
  proto.sample
    (proto.Sample.mk 1000 1 100
       (map (fun p => proto.Sample_CallChainEntry.mk 0 p.1 p.2) cc) 0).

Definition file_with (id : N) (symbols : list string) : proto.Record :=
  proto.file (proto.File.mk id "/system/lib64/libc.so" symbols symbols).

(** A sample that refers to symbol 1 of file 1 and symbol 0 of file 0,
    followed by the two file-table records: the references come before
    the declarations. *)
Definition two_file_report : ReportFile :=
  mkReportFile header
    [frame (sample_with [(1, 1%Z); (0, 0%Z)]);
     frame (file_with 0 ["main"]);
     frame (file_with 1 ["f"; "g"]);
     end_of_stream].

(** File 0 has one symbol and the sample asks for symbol 1 of it. *)
Definition out_of_bounds_report : ReportFile :=
  mkReportFile header
    [frame (sample_with [(0, 1%Z)]);
     frame (file_with 0 ["main"]);
     end_of_stream].

(** The file-table records come with the ids 0 and 2. *)
Definition gap_report : ReportFile :=
  mkReportFile header
    [frame (file_with 0 ["main"]);
     frame (file_with 2 ["f"]);
     end_of_stream].

Definition one_sample_report : ReportFile :=
  mkReportFile header
    [frame (sample_with [(0, 0%Z)]);
     frame (file_with 0 ["main"]);
     end_of_stream].

(** No file is declared; [fid] is named by an entry without a symbol. *)
Definition unresolved_only_report (fid : N) : ReportFile :=
  mkReportFile header [frame (sample_with [(fid, (-1)%Z)]); end_of_stream].

Definition work_entry : CallEntry :=
  mkCallEntry libnative (mkSymbol 6 "_Z4workv" "work()") 48.
Definition libc_init_entry : CallEntry :=
  mkCallEntry libc (mkSymbol 7 "__libc_init" "__libc_init") 64.
Definition start_main_entry : CallEntry :=
  mkCallEntry libc (mkSymbol 9 "_start_main" "_start_main") 66.

End Fixture.

(** ** A report file that the decoder accepts

    What [DumpProtobufReport] asks of a file, said without the loop: the
    magic and the version; a zero length somewhere, with nothing but
    parsable, non-empty frames in front of it; among the records read no
    record without a field, no symbol id below -1, file ids that count
    from 0, and every reference inside the symbols of a declared file. *)

Definition terminated (stream : list Frame.t) : Prop :=
  exists pre last post,
    stream = pre ++ last :: post
    /\ Frame.size last = 0%N
    /\ Forall (fun fr => Frame.size fr <> 0%N /\ is_Some (Frame.parsed fr)) pre.

Definition valid_report (f : ReportFile) : Prop :=
  let rs := records_read (coded_stream f) in
  String.substring 0 10 (leading_bytes f) = PROT_FILE_MAGIC
  /\ read_uint16 (String.substring 10 2 (leading_bytes f)) = Some PROT_FILE_VERSION
  /\ terminated (coded_stream f)
  /\ (proto.none_set ∉ rs)
  /\ (forall s e, proto.sample s ∈ rs -> e ∈ proto.Sample.callchain s ->
       (-1 <= proto.Sample_CallChainEntry.symbol_id e)%Z)
  /\ map proto.File.id (file_records rs)
     = map N.of_nat (seq 0 (length (file_records rs)))
  /\ (forall fid sid, (fid, sid) ∈ references rs ->
       exists file, file_records rs !! N.to_nat fid = Some file
                    /\ (sid < proto.File.symbol_size file)%Z).

(** The same conditions as boolean tests on the stream: the loop reaches
    [break], and each record passes its branch when [nfiles] file records
    came before it. *)
Fixpoint stream_complete (stream : list Frame.t) : bool :=
  match stream with
  | [] => false
  | f :: rest =>
    if (Frame.size f =? 0)%N then true
    else match Frame.parsed f with
         | Some _ => stream_complete rest
         | None => false
         end
  end.

Fixpoint loop_ok (nfiles : nat) (rs : list proto.Record) : bool :=
  match rs with
  | [] => true
  | proto.sample s :: rest =>
    forallb entry_ok (proto.Sample.callchain s) && loop_ok nfiles rest
  | proto.file f :: rest =>
    (proto.File.id f =? N.of_nat nfiles)%N && loop_ok (S nfiles) rest
  | proto.none_set :: _ => false
  | _ :: rest => loop_ok nfiles rest
  end.

Definition header_ok (f : ReportFile) : bool :=
  String.eqb (String.substring 0 10 (leading_bytes f)) PROT_FILE_MAGIC
  && match read_uint16 (String.substring 10 2 (leading_bytes f)) with
     | Some version => (version =? PROT_FILE_VERSION)%N
     | None => false
     end.

(** The frames the loop reads before it meets the zero length. *)
Fixpoint frames_read (stream : list Frame.t) : list Frame.t :=
  match stream with
  | [] => []
  | f :: rest =>
    if (Frame.size f =? 0)%N then []
    else match Frame.parsed f with
         | Some _ => f :: frames_read rest
         | None => []
         end
  end.

Definition is_sample (r : proto.Record) : bool :=
  match r with proto.sample _ => true | _ => false end.

(** The text of the two header lines. *)
Definition header_text : string :=
  "magic: SIMPLEPERF" +:+ nl +:+ "version: 1" +:+ nl.

(** The state [st] of a dump whose report had the text [before] in it when
    the dump began. *)
Definition prepend (before : string) (st : DumpState) : DumpState :=
  mkDumpState (before +:+ report st) (max_symbol_id_map st) (files st)
    (max_message_size st) (sample_count st).

(** The state in which the loop is entered once the magic and the version
    have been read and printed. *)
Definition loop_start (fp : string) (static_sample_count : N) : DumpState :=
  mkDumpState (fp +:+ header_text) ∅ [] (64 * 2 ^ 20) static_sample_count.

(** ** The loop over frames that are already resolved

    [collapse_frames] is the [for] loop of [ProcessSampleRecord] once
    [GetCallEntry] has given the frames: [add_entry] for each in turn, from
    an empty vector and [near_java_method = false]. *)

Definition collapse_frames (show_art_frames : bool) (frames : list CallEntry)
    : list CallEntry :=
  (fold_left (fun state entry => add_entry show_art_frames state.1 state.2 entry)
     frames ([], false)).1.

Definition is_java (entry : CallEntry) : bool :=
  DsoType_eqb (type (dso entry)) DSO_DEX_FILE.

(** [a] directly followed by [b] is a Java frame followed by an
    interpreter frame, or an interpreter frame followed by a Java frame. *)
Definition interpreter_beside_java (a b : CallEntry) : bool :=
  (is_java a && negb (is_java b) && is_entry_for_interpreter b)
  || (is_entry_for_interpreter a && is_java b).

Fixpoint no_interpreter_beside_java (entries : list CallEntry) : bool :=
  match entries with
  | a :: (b :: _) as rest =>
    negb (interpreter_beside_java a b) && no_interpreter_beside_java rest
  | _ => true
  end.

Definition ends_with_java (entries : list CallEntry) : bool :=
  match last entries with
  | Some entry => is_java entry
  | None => false
  end.

(** A frame that is not in libart.so. *)
Definition kept (entry : CallEntry) : Prop := is_entry_for_interpreter entry = false.

(** ** The rest of the run

    The records of the data section, the callback [ProcessRecord], and the
    records that [Run] writes around the samples. *)

(** A [Record] as [ProcessRecord] looks at it: a sample, a [LostRecord]
    with its [lost] field, or a record of another type. *)
Inductive PerfRecord :=
| PERF_RECORD_SAMPLE (r : SampleRecord)
| PERF_RECORD_LOST (lost : N)
| PERF_RECORD_OTHER.

(** The operations of [ThreadTree] and of the standard library that the
    rest of the run calls.  [std_sort] stands for [std::sort] with the
    comparison given; [GetSymbols] for [dso->GetSymbols()]. *)
Class RunCollaborators (ThreadTree : Type) := {
  Update : ThreadTree -> PerfRecord -> ThreadTree;
  GetAllDsos : ThreadTree -> list Dso;
  GetSymbols : ThreadTree -> Dso -> list Symbol;
  GetAllThreads : ThreadTree -> list ThreadEntry;
  std_sort : forall {A : Type}, (A -> A -> bool) -> list A -> list A
}.

(** What [std::sort] promises for a comparison that compares keys: the
    result has the elements of the input and the keys do not decrease. *)
Definition sort_contract
    (sort : forall A : Type, (A -> A -> bool) -> list A -> list A) : Prop :=
  forall (A : Type) (less : A -> A -> bool) (key : A -> N) (l : list A),
    (forall a b, less a b = (key a <? key b)%N) ->
    sort A less l ≡ₚ l
    /\ StronglySorted (fun a b => (key a <= key b)%N) (sort A less l).

Definition UINT_MAX : N := 2 ^ 32 - 1.

Section Run.

Context {ThreadTree : Type} `{Collaborators ThreadTree} `{RunCollaborators ThreadTree}.

Local Abbreviation Cmd := (ReportSampleCommand ThreadTree).

Definition set_lost_count_ (n : N) (c : Cmd) : Cmd :=
  mkCommand (show_callchain_ c) (use_protobuf_ c) (thread_tree_ c) (dump_ids c)
    (report_fp_ c) (coded_os_ c) (sample_count_ c) n (event_types_ c)
    (remove_unknown_kernel_symbols_ c) (kernel_symbols_available_ c)
    (show_art_frames_ c).

(** *** ProcessRecord *)
Definition ProcessRecord (record : PerfRecord) (c : Cmd) : Outcome * Cmd :=
  let c := set_thread_tree_ (Update (thread_tree_ c) record) c in
  match record with
  | PERF_RECORD_SAMPLE r => ProcessSampleRecord r c
  | PERF_RECORD_LOST lost =>
    (Returned true, set_lost_count_ (uint64 (Z.of_N (lost_count_ c) + Z.of_N lost)) c)
  | PERF_RECORD_OTHER => (Returned true, c)
  end.

(** Modelled from the spec: [RecordFileReader::ReadDataSection] is defined
    in record_file_reader.cpp.  The reader yields the records one at a
    time to the callback and stops when the callback returns false. *)
Fixpoint ReadDataSection (records : list PerfRecord)
    (callback : PerfRecord -> Cmd -> Outcome * Cmd) (c : Cmd) : Outcome * Cmd :=
  match records with
  | [] => (Returned true, c)
  | record :: rest =>
    match callback record c with
    | (Returned true, c) => ReadDataSection rest callback c
    | stopped => stopped
    end
  end.

(** *** PrintLostSituationInProtobuf and PrintLostSituation *)
Definition PrintLostSituationInProtobuf (c : Cmd) : bool * Cmd :=
  WriteRecordInProtobuf
    (proto.lost (proto.LostSituation.mk (sample_count_ c) (lost_count_ c))) c.

Definition PrintLostSituation (c : Cmd) : Cmd :=
  let c := fprint 0 ("lost_situation:" +:+ nl) c in
  let c := fprint 1 ("sample_count: " +:+ fmt_u (sample_count_ c) +:+ nl) c in
  fprint 1 ("lost_count: " +:+ fmt_u (lost_count_ c) +:+ nl) c.

(** *** PrintMetaInfo

    [meta_info_] and [trace_offcpu_] are members that only this function
    reads; they are passed to it. *)
Definition PrintMetaInfo (meta_info_ : gmap string string) (trace_offcpu_ : bool)
    (c : Cmd) : bool * Cmd :=
  let app_package_name := default "" (meta_info_ !! "app_package_name") in
  if use_protobuf_ c then
    WriteRecordInProtobuf
      (proto.meta_info
         (proto.MetaInfo.mk (event_types_ c)
            (if String.eqb app_package_name "" then None else Some app_package_name)))
      c
  else
    let c := fprint 0 ("meta_info:" +:+ nl) c in
    let c := fprint 1 ("trace_offcpu: " +:+
               (if trace_offcpu_ then "true" else "false") +:+ nl) c in
    let c := fold_left
               (fun c event_type => fprint 1 ("event_type: " +:+ c_str event_type +:+ nl) c)
               (event_types_ c) c in
    let c := if String.eqb app_package_name "" then c
             else fprint 1 ("app_package_name: " +:+ c_str app_package_name +:+ nl) c in
    (true, c).

(** *** PrintFileInfoInProtobuf *)

Definition CompareDsoByDumpId (rt : ReferenceTable) (d1 d2 : Dso) : bool :=
  (default UINT_MAX (Dso_GetDumpId rt d1) <? default UINT_MAX (Dso_GetDumpId rt d2))%N.

(** Modelled from the spec: [Symbol::CompareByDumpId] is defined in dso.h;
    symbols are ordered by their assigned ids. *)
Definition Symbol_CompareByDumpId (rt : ReferenceTable) (d : Dso) (s1 s2 : Symbol) : bool :=
  (default UINT_MAX (Symbol_GetDumpId rt d s1)
   <? default UINT_MAX (Symbol_GetDumpId rt d s2))%N.

(** [sym.HasDumpId()] *)
Definition HasDumpId (rt : ReferenceTable) (d : Dso) (s : Symbol) : bool :=
  match Symbol_GetDumpId rt d s with Some _ => true | None => false end.

(** The record written for a dso that has the dump id [file_id]. *)
Definition file_record (c : Cmd) (d : Dso) (file_id : N) : proto.Record :=
  let dump_symbols :=
    std_sort (Symbol_CompareByDumpId (dump_ids c) d)
      (List.filter (HasDumpId (dump_ids c) d) (GetSymbols (thread_tree_ c) d)) in
  proto.file
    (proto.File.mk file_id (Path d)
       (map DemangledName dump_symbols) (map Name dump_symbols)).

(** [for (Dso* dso : dsos)] *)
Fixpoint write_files (dsos : list Dso) (c : Cmd) : bool * Cmd :=
  match dsos with
  | [] => (true, c)
  | d :: rest =>
    match Dso_GetDumpId (dump_ids c) d with
    | None => write_files rest c                                  (* continue *)
    | Some file_id =>
      match WriteRecordInProtobuf (file_record c d file_id) c with
      | (true, c) => write_files rest c
      | (false, c) => (false, c)
      end
    end
  end.

Definition PrintFileInfoInProtobuf (c : Cmd) : bool * Cmd :=
  write_files
    (std_sort (CompareDsoByDumpId (dump_ids c)) (GetAllDsos (thread_tree_ c))) c.

(** *** PrintThreadInfoInProtobuf *)

Definition compare_thread_id (t1 t2 : ThreadEntry) : bool := (tid t1 <? tid t2)%N.

Definition thread_record (thread : ThreadEntry) : proto.Record :=
  proto.thread (proto.Thread.mk (tid thread) (pid thread) (comm thread)).

Fixpoint write_threads (threads : list ThreadEntry) (c : Cmd) : bool * Cmd :=
  match threads with
  | [] => (true, c)
  | thread :: rest =>
    match WriteRecordInProtobuf (thread_record thread) c with
    | (true, c) => write_threads rest c
    | (false, c) => (false, c)
    end
  end.

Definition PrintThreadInfoInProtobuf (c : Cmd) : bool * Cmd :=
  write_threads (std_sort compare_thread_id (GetAllThreads (thread_tree_ c))) c.

(** *** Run, from step 5 on

    The part of [Run] that follows the opening of the files: the magic and
    the version in protobuf mode, the meta info, the data section, and the
    records that close the report.  Writes to the report file succeed
    ([HadError] and [ferror] are false). *)
Definition Run_report (meta_info_ : gmap string string) (trace_offcpu_ : bool)
    (records : list PerfRecord) (c : Cmd) : Outcome * Cmd :=
  let c :=
    if use_protobuf_ c then
      set_report_fp_
        (report_fp_ c +:+ PROT_FILE_MAGIC
         +:+ String (ascii_of_N (PROT_FILE_VERSION mod 256))
               (String (ascii_of_N (PROT_FILE_VERSION / 256)) EmptyString)) c
    else c in
  match PrintMetaInfo meta_info_ trace_offcpu_ c with
  | (false, c) => (Returned false, c)
  | (true, c) =>
    match ReadDataSection records ProcessRecord c with
    | (Returned true, c) =>
      if use_protobuf_ c then
        match PrintLostSituationInProtobuf c with
        | (false, c) => (Returned false, c)
        | (true, c) =>
          match PrintFileInfoInProtobuf c with
          | (false, c) => (Returned false, c)
          | (true, c) =>
            match PrintThreadInfoInProtobuf c with
            | (false, c) => (Returned false, c)
            | (true, c) =>
              (* coded_os_->WriteLittleEndian32(0) *)
              (Returned true, set_coded_os_ (coded_os_ c ++ [Frame.mk 0 None]) c)
            end
          end
        end
      else (Returned true, PrintLostSituation c)
    | stopped => stopped
    end
  end.

End Run.

(** The options of the command, which no function of the run changes. *)
Definition options {ThreadTree : Type} (c : ReportSampleCommand ThreadTree)
    : bool * bool * list string * bool * bool * bool :=
  (show_callchain_ c, use_protobuf_ c, event_types_ c,
   remove_unknown_kernel_symbols_ c, kernel_symbols_available_ c, show_art_frames_ c).

(** What the text printers leave alone. *)
Definition text_only {ThreadTree : Type} (c c' : ReportSampleCommand ThreadTree) : Prop :=
  coded_os_ c' = coded_os_ c /\ dump_ids c' = dump_ids c
  /\ sample_count_ c' = sample_count_ c /\ lost_count_ c' = lost_count_ c
  /\ options c' = options c.

(** A record that [ProcessSampleRecord] reports: a sample whose chain is
    not empty once the kernel pointers are removed. *)
Definition reported {ThreadTree : Type} (c : ReportSampleCommand ThreadTree)
    (record : PerfRecord) : bool :=
  match record with
  | PERF_RECORD_SAMPLE r =>
    match (remove_kernel_ips c (GetCallChain r)).1 with [] => false | _ :: _ => true end
  | _ => false
  end.

Definition lost_of (record : PerfRecord) : N :=
  match record with PERF_RECORD_LOST lost => lost | _ => 0%N end.

Definition lost_total (records : list PerfRecord) : N :=
  fold_right N.add 0%N (map lost_of records).

(** ** A run on the small thread tree *)

Module Scenario.

Fixpoint insert_sorted {A : Type} (less : A -> A -> bool) (x : A) (l : list A) : list A :=
  match l with
  | [] => [x]
  | y :: rest => if less y x then y :: insert_sorted less x rest else x :: l
  end.

Fixpoint insertion_sort {A : Type} (less : A -> A -> bool) (l : list A) : list A :=
  match l with
  | [] => []
  | x :: rest => insert_sorted less x (insertion_sort less rest)
  end.

Definition worker_thread : ThreadEntry := mkThreadEntry 100 101 "worker".

#[global] Instance run_collaborators : RunCollaborators Fixture.Tree := {
  Update t record := t;
  GetAllDsos t :=
    [Fixture.libc; Fixture.kernel; Fixture.libart; Fixture.base_vdex; Fixture.libnative];
  GetSymbols t d :=
    omap (fun m : N * (Dso * option Symbol) =>
            if String.eqb (Path m.2.1) (Path d) then m.2.2 else None) t;
  GetAllThreads t := [worker_thread; Fixture.main_thread];
  std_sort A less l := insertion_sort less l
}.

(** Two samples of the main thread and three lost records. *)
Definition records : list PerfRecord :=
  [PERF_RECORD_SAMPLE (Fixture.sample_of [48; 64; 66]%N 0);
   PERF_RECORD_LOST 3;
   PERF_RECORD_OTHER;
   PERF_RECORD_SAMPLE (Fixture.sample_of [80; 81]%N 2);
   PERF_RECORD_SAMPLE (Fixture.sample_of [80; 49; 17; 32; 65]%N 1);
   PERF_RECORD_LOST 4].

Definition meta_info : gmap string string :=
  {[ "app_package_name" := "com.example" ]}.

End Scenario.

(** A counter of 64 bits after [amount] has been added to it, when
    [added] says that the addition takes place. *)
Definition uint64_if (added : bool) (counter amount : N) : N :=
  if added then uint64 (Z.of_N counter + Z.of_N amount) else counter.

Definition is_lost (record : PerfRecord) : bool :=
  match record with PERF_RECORD_LOST _ => true | _ => false end.

(** ** What the dump ids are kept to be

    [next_symbol rt p] is the next symbol id of the file [p].  The ids of
    a table are dense when the file ids are exactly those below
    [next_file_id], one per path, and the symbol ids of each file exactly
    those below its next symbol id, one per symbol, on files that have a
    file id.  A later table extends an earlier
    one when it keeps every id given.  A callchain entry refers to a table
    when its file id is that of a path and its symbol id is -1 or a symbol
    id given in that file. *)

Definition next_symbol (rt : ReferenceTable) (p : string) : N :=
  default 0%N (next_symbol_id rt !! p).

Record dense_ids (rt : ReferenceTable) : Prop := mk_dense_ids {
  dense_file_lt : forall p i, file_ids rt !! p = Some i -> (i < next_file_id rt)%N;
  dense_file_all : forall i, (i < next_file_id rt)%N -> exists p, file_ids rt !! p = Some i;
  dense_file_inj : forall p q i,
    file_ids rt !! p = Some i -> file_ids rt !! q = Some i -> p = q;
  dense_symbol_file : forall p s i,
    symbol_ids rt !! (p, s) = Some i -> is_Some (file_ids rt !! p);
  dense_symbol_lt : forall p s i,
    symbol_ids rt !! (p, s) = Some i -> (i < next_symbol rt p)%N;
  dense_symbol_all : forall p i,
    (i < next_symbol rt p)%N -> exists s, symbol_ids rt !! (p, s) = Some i;
  dense_symbol_inj : forall p s t i,
    symbol_ids rt !! (p, s) = Some i -> symbol_ids rt !! (p, t) = Some i -> s = t
}.

(** No counter of the table is above [n]. *)
Definition bounded (n : N) (rt : ReferenceTable) : Prop :=
  (next_file_id rt <= n)%N /\ forall p, (next_symbol rt p <= n)%N.

Definition extends (rt rt' : ReferenceTable) : Prop :=
  (forall p i, file_ids rt !! p = Some i -> file_ids rt' !! p = Some i)
  /\ (forall k i, symbol_ids rt !! k = Some i -> symbol_ids rt' !! k = Some i)
  /\ (forall p, (next_symbol rt p <= next_symbol rt' p)%N).

Definition refers_to (rt : ReferenceTable) (e : proto.Sample_CallChainEntry.t) : Prop :=
  exists p,
    file_ids rt !! p = Some (proto.Sample_CallChainEntry.file_id e)
    /\ (proto.Sample_CallChainEntry.symbol_id e = (-1)%Z
        \/ (0 <= proto.Sample_CallChainEntry.symbol_id e
                 < Z.of_N (next_symbol rt p))%Z).

(** The number of instruction pointers that the records carry. *)
Definition pointers (record : PerfRecord) : N :=
  match record with
  | PERF_RECORD_SAMPLE r => N.of_nat (length (GetCallChain r).1)
  | _ => 0%N
  end.

Definition total_pointers (records : list PerfRecord) : N :=
  fold_right N.add 0%N (map pointers records).

Definition empty_table : ReferenceTable := mkReferenceTable ∅ 0 ∅ ∅.

(** A frame as the run writes them before the file table: a record that
    is not a file record and, if it is a sample, refers to the table. *)
Definition plain_frame (rt : ReferenceTable) (f : Frame.t) : Prop :=
  exists r, Frame.parsed f = Some r
            /\ match r with
               | proto.sample s => Forall (refers_to rt) (proto.Sample.callchain s)
               | proto.file _ | proto.none_set => False
               | _ => True
               end.

(** The dump ids are dense, no counter is above [n], and the coded stream
    holds plain frames only. *)
Definition ids_ok {ThreadTree : Type} (n : N) (c : ReportSampleCommand ThreadTree) : Prop :=
  dense_ids (dump_ids c) /\ bounded n (dump_ids c)
  /\ Forall (plain_frame (dump_ids c)) (coded_os_ c).

(** [c'] is [c] with [frames] added to the coded stream. *)
Definition writes {ThreadTree : Type} (c c' : ReportSampleCommand ThreadTree)
    (frames : list Frame.t) : Prop :=
  coded_os_ c' = coded_os_ c ++ frames
  /\ dump_ids c' = dump_ids c /\ thread_tree_ c' = thread_tree_ c
  /\ report_fp_ c' = report_fp_ c
  /\ sample_count_ c' = sample_count_ c /\ lost_count_ c' = lost_count_ c
  /\ options c' = options c.

(** The frame of a record that has been serialised. *)
Definition frame_of `{Collaborators ThreadTree} (record : proto.Record) : Frame.t :=
  Frame.mk (ByteSize record) (Some record).

(** The dsos and the symbols of the thread tree hold what has a dump id,
    each object once: [GetAllDsos] and [GetSymbols] are vectors of
    distinct objects, and a symbol that was found belongs to its dso. *)
Record covers `{RunCollaborators ThreadTree} (t : ThreadTree) (rt : ReferenceTable)
    : Prop := mk_covers {
  covers_dsos : NoDup (map Path (GetAllDsos t));
  covers_files : forall p i, file_ids rt !! p = Some i -> p ∈ map Path (GetAllDsos t);
  covers_symbols_once : forall d,
    d ∈ GetAllDsos t -> NoDup (map symbol_ptr (GetSymbols t d));
  covers_symbols : forall d s i,
    d ∈ GetAllDsos t -> symbol_ids rt !! (Path d, s) = Some i ->
    s ∈ map symbol_ptr (GetSymbols t d)
}.

(** The frames that the loop of [PrintFileInfoInProtobuf] writes for
    [dsos]. *)
Definition file_frames `{Collaborators ThreadTree} `{RunCollaborators ThreadTree}
    (c : ReportSampleCommand ThreadTree) (dsos : list Dso) : list Frame.t :=
  omap (fun d => match Dso_GetDumpId (dump_ids c) d with
                 | Some file_id => Some (frame_of (file_record c d file_id))
                 | None => None
                 end) dsos.

(** The frames that the loop of [PrintThreadInfoInProtobuf] writes. *)
Definition thread_frames `{Collaborators ThreadTree} (threads : list ThreadEntry)
    : list Frame.t :=
  map (fun thread => frame_of (thread_record thread)) threads.

(** A frame that the loop of the decoder reads and goes on after. *)
Definition readable (f : Frame.t) : Prop :=
  Frame.size f <> 0%N /\ is_Some (Frame.parsed f).

(** The lost-situation records of a stream. *)
Definition lost_records (rs : list proto.Record) : list proto.LostSituation.t :=
  omap (fun r => match r with proto.lost l => Some l | _ => None end) rs.

(** The two bytes of the version, as [fwrite] stores them. *)
Definition version_bytes : string :=
  String (ascii_of_N (PROT_FILE_VERSION mod 256))
    (String (ascii_of_N (PROT_FILE_VERSION / 256)) EmptyString).



(** What a file record says of the table when it describes a file of it:
    the id is the id of the path, there are as many symbols as symbol ids
    were given in the file, and the names at index [k] are those of the
    symbol that has the id [k]. *)
Definition describes (rt : ReferenceTable) (file : proto.File.t) : Prop :=
  file_ids rt !! proto.File.path file = Some (proto.File.id file)
  /\ length (proto.File.symbol file) = N.to_nat (next_symbol rt (proto.File.path file))
  /\ forall k, (k < N.to_nat (next_symbol rt (proto.File.path file)))%nat ->
       exists sym,
         symbol_ids rt !! (proto.File.path file, symbol_ptr sym) = Some (N.of_nat k)
         /\ proto.File.symbol file !! k = Some (DemangledName sym)
         /\ proto.File.mangled_symbol file !! k = Some (Name sym).

(** * Verification *)

(** ** The decoder *)

Section DumpFacts.

Implicit Types (st : DumpState) (m : gmap N Z).

Lemma print_fields indent s st :
  max_symbol_id_map (print indent s st) = max_symbol_id_map st
  /\ files (print indent s st) = files st
  /\ max_message_size (print indent s st) = max_message_size st
  /\ sample_count (print indent s st) = sample_count st.
Proof. by repeat split. Qed.

Lemma print_each_fields indent key l st :
  max_symbol_id_map (print_each indent key l st) = max_symbol_id_map st
  /\ files (print_each indent key l st) = files st
  /\ max_message_size (print_each indent key l st) = max_message_size st
  /\ sample_count (print_each indent key l st) = sample_count st.
Proof.
  unfold print_each. revert st.
  induction l as [|x l IH]; intros st; [done|].
  cbn [fold_left]. destruct (IH (print indent (key +:+ c_str x +:+ nl) st))
    as (-> & -> & -> & ->).
  by repeat split.
Qed.

Lemma files_print_each indent key l st :
  files (print_each indent key l st) = files st.
Proof. apply print_each_fields. Qed.

Lemma map_print_each indent key l st :
  max_symbol_id_map (print_each indent key l st) = max_symbol_id_map st.
Proof. apply print_each_fields. Qed.

Lemma count_print_each indent key l st :
  sample_count (print_each indent key l st) = sample_count st.
Proof. apply print_each_fields. Qed.

Lemma omap_cons {A B} (f : A -> option B) (x : A) (l : list A) :
  omap f (x :: l) = match f x with Some y => y :: omap f l | None => omap f l end.
Proof. done. Qed.

Lemma dump_callchain_spec cc : forall st,
  let res := dump_callchain cc st in
  files res.2 = files st
  /\ sample_count res.2 = sample_count st
  /\ res.1 = forallb entry_ok cc
  /\ (res.1 = true ->
      max_symbol_id_map res.2
      = fold_left note (omap entry_reference cc) (max_symbol_id_map st)).
Proof.
  induction cc as [|e cc IH]; intros st; [done|].
  rewrite omap_cons.
  cbn [dump_callchain forallb]. unfold entry_ok at 1, entry_reference at 1.
  destruct (Z.ltb_spec (proto.Sample_CallChainEntry.symbol_id e) (-1)) as [Hlt|Hge].
  - assert ((-1 <=? proto.Sample_CallChainEntry.symbol_id e)%Z = false) as ->
      by (apply Z.leb_gt; lia).
    cbn. repeat split; done.
  - assert ((-1 <=? proto.Sample_CallChainEntry.symbol_id e)%Z = true) as ->
      by (apply Z.leb_le; lia).
    rewrite andb_true_l.
    destruct (Z.eqb_spec (proto.Sample_CallChainEntry.symbol_id e) (-1)) as [Heq|Hne];
      cbn [negb];
      match goal with |- context [dump_callchain cc ?s] =>
        destruct (IH s) as (Hf & Hs & Hb & Hm) end;
      cbn zeta in *; rewrite Hf, Hs, Hb; repeat split; try done.
      all: intros Hok; rewrite Hm by (by rewrite Hb); done.
Qed.

Lemma file_records_cons r rs :
  file_records (r :: rs) = file_records [r] ++ file_records rs.
Proof. unfold file_records. rewrite !omap_cons. by destruct r. Qed.

Lemma references_cons r rs :
  references (r :: rs) = references [r] ++ references rs.
Proof. unfold references. cbn [flat_map]. by rewrite app_nil_r. Qed.

(** One record, when the loop goes on after it. *)
Lemma dump_record_spec r st :
  let res := dump_record r st in
  res.1 = true ->
  files res.2 = files st ++ map symbol_count (file_records [r])
  /\ map proto.File.id (file_records [r])
     = map N.of_nat (seq (length (files st)) (length (file_records [r])))
  /\ max_symbol_id_map res.2
     = fold_left note (references [r]) (max_symbol_id_map st)
  /\ sample_count res.2
     = match r with
       | proto.sample _ => uint64 (Z.of_N (sample_count st) + 1)
       | _ => sample_count st
       end.
Proof.
  destruct r as [s|l|f|t|mi|]; cbn [dump_record].
  - match goal with |- context [dump_callchain _ ?s0] =>
      destruct (dump_callchain_spec (proto.Sample.callchain s) s0)
        as (Hf & Hs & Hb & Hm) end.
    cbn zeta in *. intros Hok. rewrite Hf, Hs, (Hm Hok).
    unfold references. cbn [flat_map file_records]. rewrite app_nil_r.
    cbn. by rewrite app_nil_r.
  - intros _. cbn. by rewrite app_nil_r.
  - cbn zeta.
    destruct (N.eqb_spec (proto.File.id f)
                (N.of_nat (length (files
                   (print_each 1 "mangled_symbol: " (proto.File.mangled_symbol f)
                     (print_each 1 "symbol: " (proto.File.symbol f)
                       (print 1 ("path: " +:+ c_str (proto.File.path f) +:+ nl)
                         (print 1 ("id: " +:+ fmt_u (proto.File.id f) +:+ nl)
                           (print 0 ("file:" +:+ nl) st)))))))))
      as [Heq|Hne]; cbn [negb]; [|done].
    intros _. revert Heq. cbn.
    rewrite ?files_print_each, ?map_print_each, ?count_print_each.
    cbn. intros ->. done.
  - intros _. cbn. by rewrite app_nil_r.
  - intros _. destruct (proto.MetaInfo.app_package_name mi); cbn;
      rewrite ?files_print_each, ?map_print_each, ?count_print_each;
      cbn; by rewrite app_nil_r.
  - done.
Qed.

(** The whole loop, when it leaves through [break]. *)
Lemma dump_records_spec stream : forall st st',
  dump_records stream st = (true, st') ->
  files st' = files st ++ map symbol_count (file_records (records_read stream))
  /\ map proto.File.id (file_records (records_read stream))
     = map N.of_nat (seq (length (files st))
                       (length (file_records (records_read stream))))
  /\ max_symbol_id_map st'
     = fold_left note (references (records_read stream)) (max_symbol_id_map st).
Proof.
  induction stream as [|f rest IH]; intros st st' Hrun; [done|].
  cbn [dump_records records_read] in *.
  destruct (Frame.size f =? 0)%N.
  { injection Hrun as <-. cbn. by rewrite app_nil_r. }
  destruct (Frame.parsed f) as [r|]; [|done].
  set (st1 := if (max_message_size st <? Frame.size f)%N
              then set_max_message_size (Frame.size f) st else st) in *.
  assert (files st1 = files st /\ max_symbol_id_map st1 = max_symbol_id_map st)
    as [Hf1 Hm1] by (subst st1; by destruct (_ <? _)%N).
  destruct (dump_record r st1) as [[] st2] eqn:Hrec; [|done].
  pose proof (dump_record_spec r st1) as Hspec. rewrite Hrec in Hspec.
  destruct (Hspec eq_refl) as (Hf2 & Hid2 & Hm2 & _). cbn [fst snd] in *.
  destruct (IH _ _ Hrun) as (Hf & Hid & Hm).
  rewrite file_records_cons, references_cons, map_app, length_app, seq_app,
    !map_app, fold_left_app.
  rewrite Hf, Hf2, Hf1, Hm, Hm2, Hm1, Hid2, Hf1, <- app_assoc. repeat split; try done.
  f_equal. rewrite Hid, Hf2, Hf1, length_app, length_map. done.
Qed.

Lemma DumpProtobufReport_accepts f fp static_sample_count st' :
  DumpProtobufReport f fp static_sample_count = (true, st') ->
  exists st0,
    files st0 = [] /\ max_symbol_id_map st0 = ∅
    /\ sample_count st0 = static_sample_count
    /\ dump_records (coded_stream f) st0 = (true, st')
    /\ check_symbol_ids (max_symbol_id_map st') (files st') = true.
Proof.
  unfold DumpProtobufReport.
  destruct (negb _); [done|].
  destruct (read_uint16 _) as [version|]; [|done].
  destruct (negb _); [done|].
  match goal with |- context [dump_records _ ?s0] =>
    destruct (dump_records (coded_stream f) s0) as [[] st1] eqn:Hrun; [|done];
    intros [= Hcheck <-]; exists s0 end.
  done.
Qed.

(** *** The map of maximal symbol ids *)

Lemma fold_max_ge_init l : forall a : Z, (a <= fold_left Z.max l a)%Z.
Proof.
  induction l as [|x l IH]; intros a; cbn; [lia|].
  specialize (IH (Z.max a x)). lia.
Qed.

Lemma fold_max_ge_elem l : forall (a x : Z), x ∈ l -> (x <= fold_left Z.max l a)%Z.
Proof.
  induction l as [|y l IH]; intros a x Hin; [by apply elem_of_nil in Hin|].
  apply elem_of_cons in Hin as [->|Hin]; cbn.
  - pose proof (fold_max_ge_init l (Z.max a y)). lia.
  - by apply IH.
Qed.

Lemma fold_max_lt (B : Z) l : forall a : Z,
  (a < B)%Z -> Forall (fun x => (x < B)%Z) l -> (fold_left Z.max l a < B)%Z.
Proof.
  induction l as [|y l IH]; intros a Ha Hall; cbn; [done|].
  inversion_clear Hall. apply IH; [lia|done].
Qed.

Lemma requested_elem k refs sid : sid ∈ requested k refs <-> (k, sid) ∈ refs.
Proof.
  induction refs as [|[k' sid'] refs IH]; cbn.
  - split; intros Hin; by apply elem_of_nil in Hin.
  - rewrite elem_of_cons. destruct (N.eqb_spec k' k) as [->|Hne].
    + rewrite elem_of_cons, IH. split; intros [?|?]; simplify_eq; auto.
    + rewrite IH. split; [auto|]. intros [?|?]; [congruence|done].
Qed.

Lemma fold_note_lookup refs : forall m k,
  fold_left note refs m !! k
  = match requested k refs with
    | [] => m !! k
    | sids => Some (fold_left Z.max sids (default 0%Z (m !! k)))
    end.
Proof.
  induction refs as [|[k' sid] refs IH]; intros m k; [done|].
  cbn [fold_left requested fst snd]. rewrite IH. unfold note, record_symbol_id.
  cbn [fst snd]. destruct (N.eqb_spec k' k) as [->|Hne].
  - rewrite lookup_insert_eq. by destruct (requested k refs).
  - by rewrite lookup_insert_ne.
Qed.

(** Every recorded pair comes from a reference with a symbol id other
    than -1, and is the largest symbol id requested on its file. *)
Lemma recorded_pair refs k v :
  fold_left note refs ∅ !! k = Some v ->
  requested k refs <> [] /\ v = fold_left Z.max (requested k refs) 0%Z.
Proof.
  rewrite fold_note_lookup, lookup_empty.
  destruct (requested k refs); [done|]. intros [= <-]. done.
Qed.

Lemma reference_recorded refs k sid :
  (k, sid) ∈ refs ->
  exists v, fold_left note refs ∅ !! k = Some v /\ (sid <= v)%Z.
Proof.
  intros Hin%requested_elem. rewrite fold_note_lookup, lookup_empty.
  destruct (requested k refs) as [|x l] eqn:Hreq; [by apply elem_of_nil in Hin|].
  eexists; split; [done|]. by apply fold_max_ge_elem.
Qed.

Lemma check_symbol_ids_true m fs :
  check_symbol_ids m fs = true <->
  forall k v, m !! k = Some v -> check_pair fs (k, v) = true.
Proof.
  unfold check_symbol_ids. rewrite forallb_forall. split.
  - intros Hall k v Hkv. apply Hall, list_elem_of_In, elem_of_map_to_list, Hkv.
  - intros Hall [k v] Hin. apply Hall, elem_of_map_to_list, list_elem_of_In, Hin.
Qed.

Lemma check_pair_true fs k v :
  check_pair fs (k, v) = true ->
  exists n, fs !! N.to_nat k = Some n /\ (uint32 v < n)%N.
Proof.
  unfold check_pair. cbn [fst snd].
  destruct (N.leb_spec (N.of_nat (length fs)) k) as [|Hlt]; [done|].
  destruct (fs !! N.to_nat k) as [n|] eqn:Hn.
  - cbn. destruct (N.leb_spec n (uint32 v)); [done|]. eauto.
  - apply lookup_ge_None in Hn. lia.
Qed.

End DumpFacts.

Lemma uint32_small (z : Z) : (0 <= z < 2 ^ 32)%Z -> Z.of_N (uint32 z) = z.
Proof.
  intros Hz. unfold uint32. rewrite Z2N.id by (apply Z.mod_pos_bound; lia).
  apply Z.mod_small. lia.
Qed.

Lemma is_int32_bounds (z : Z) : is_int32 z = true -> (- 2 ^ 31 <= z < 2 ^ 31)%Z.
Proof. unfold is_int32. intros [?%Z.leb_le ?%Z.ltb_lt]%andb_true_iff. lia. Qed.

Lemma well_typed_reference rs k sid :
  well_typed rs = true -> (k, sid) ∈ references rs -> (sid < 2 ^ 31)%Z.
Proof.
  intros [Href _]%andb_true_iff Hin. rewrite forallb_forall in Href.
  apply list_elem_of_In, Href, is_int32_bounds in Hin. cbn in Hin. lia.
Qed.

Lemma well_typed_file rs i file :
  well_typed rs = true -> file_records rs !! i = Some file ->
  Z.of_N (symbol_count file) = proto.File.symbol_size file.
Proof.
  intros [_ Hfiles]%andb_true_iff Hin. rewrite forallb_forall in Hfiles.
  apply list_elem_of_lookup_2, list_elem_of_In, Hfiles, is_int32_bounds in Hin.
  apply uint32_small. unfold proto.File.symbol_size in *. lia.
Qed.

(** What an accepted stream guarantees, in terms of what it declares and
    references. *)
Lemma accepted_stream f fp static_sample_count st' :
  DumpProtobufReport f fp static_sample_count = (true, st') ->
  let rs := records_read (coded_stream f) in
  files st' = map symbol_count (file_records rs)
  /\ map proto.File.id (file_records rs)
     = map N.of_nat (seq 0 (length (file_records rs)))
  /\ max_symbol_id_map st' = fold_left note (references rs) ∅
  /\ check_symbol_ids (max_symbol_id_map st') (files st') = true.
Proof.
  intros (st0 & Hf0 & Hm0 & _ & Hrun & Hcheck)%DumpProtobufReport_accepts.
  destruct (dump_records_spec _ _ _ Hrun) as (Hf & Hid & Hm).
  rewrite Hf0 in Hf, Hid. rewrite Hm0 in Hm. done.
Qed.

Lemma accepted_pair f fp static_sample_count st' fid m :
  DumpProtobufReport f fp static_sample_count = (true, st') ->
  well_typed (records_read (coded_stream f)) = true ->
  max_symbol_id_map st' !! fid = Some m ->
  exists file,
    file_records (records_read (coded_stream f)) !! N.to_nat fid = Some file
    /\ (0 <= m < proto.File.symbol_size file)%Z.
Proof.
  intros (Hf & _ & Hm & Hcheck)%accepted_stream Hwt Hlook.
  cbn zeta in *.
  rewrite check_symbol_ids_true in Hcheck.
  destruct (check_pair_true _ _ _ (Hcheck _ _ Hlook)) as (n & Hn & Hlt).
  rewrite Hf, list_lookup_fmap in Hn.
  destruct (file_records _ !! N.to_nat fid) as [file|] eqn:Hfile; [|done].
  injection Hn as <-. exists file. split; [done|].
  rewrite Hm in Hlook. apply recorded_pair in Hlook as [_ ->].
  set (sids := requested fid (references (records_read (coded_stream f)))) in *.
  assert (0 <= fold_left Z.max sids 0)%Z by apply fold_max_ge_init.
  assert (fold_left Z.max sids 0 < 2 ^ 31)%Z.
  { apply fold_max_lt; [lia|]. apply Forall_forall. intros sid Hsid.
    apply requested_elem in Hsid. by eapply well_typed_reference. }
  rewrite <- (well_typed_file _ _ _ Hwt Hfile).
  rewrite <- (uint32_small (fold_left Z.max sids 0%Z)) by lia. lia.
Qed.

(** C2: a file-table record goes through exactly when its declared id is
    the number of file-table records decoded before it; hence an accepted
    stream declares the file ids 0, 1, 2, ... in record order, one entry of
    [files] per record, and a stream whose ids are anything else is
    rejected. *)
Theorem C2_file_ids_are_sequential f fp static_sample_count :
  let res := DumpProtobufReport f fp static_sample_count in
  let declared := file_records (records_read (coded_stream f)) in
  (forall file st,
     (dump_record (proto.file file) st).1
     = (proto.File.id file =? N.of_nat (length (files st)))%N)
  /\ (res.1 = true ->
      map proto.File.id declared = map N.of_nat (seq 0 (length declared))
      /\ files res.2 = map symbol_count declared)
  /\ (map proto.File.id declared <> map N.of_nat (seq 0 (length declared)) ->
      res.1 = false).
Proof.
  intros res declared. split; [|split].
  - intros file st. cbn [dump_record]. cbn zeta.
    rewrite ?files_print_each. cbn [print files].
    by destruct (_ =? _)%N.
  - intros Hok. destruct res as [b st'] eqn:Hres. cbn in Hok. subst b.
    apply accepted_stream in Hres as (Hf & Hid & _). done.
  - intros Hbad. destruct res as [[] st'] eqn:Hres; [|done].
    apply accepted_stream in Hres as (_ & Hid & _). done.
Qed.

(** C3: when a stream has been accepted, every pair in the map of maximal
    symbol ids has a file id below the number of declared files and a
    symbol id below that file's symbol count, and every reference made by
    a sample is covered by such a pair; a stream that references a symbol
    id equal to the symbol count of its file is rejected.  The sample
    branch itself only refuses symbol ids below -1, whatever files have
    been declared so far: the bounds are checked after the loop. *)
Theorem C3_symbol_bounds_checked_after_the_pass f fp static_sample_count :
  let res := DumpProtobufReport f fp static_sample_count in
  let rs := records_read (coded_stream f) in
  well_typed rs = true ->
  (res.1 = true ->
   (forall fid sid, (fid, sid) ∈ references rs ->
      exists m, max_symbol_id_map res.2 !! fid = Some m /\ (sid <= m)%Z)
   /\ (forall fid m, max_symbol_id_map res.2 !! fid = Some m ->
       (N.to_nat fid < length (file_records rs))%nat
       /\ exists file, file_records rs !! N.to_nat fid = Some file
                       /\ (0 <= m < proto.File.symbol_size file)%Z))
  /\ (forall fid sid file,
        (fid, sid) ∈ references rs ->
        file_records rs !! N.to_nat fid = Some file ->
        sid = proto.File.symbol_size file ->
        res.1 = false)
  /\ (forall s st,
        (dump_record (proto.sample s) st).1
        = forallb entry_ok (proto.Sample.callchain s)).
Proof.
  intros res rs Hwt.
  assert (res.1 = true ->
          (forall fid sid, (fid, sid) ∈ references rs ->
             exists m, max_symbol_id_map res.2 !! fid = Some m /\ (sid <= m)%Z)
          /\ (forall fid m, max_symbol_id_map res.2 !! fid = Some m ->
              (N.to_nat fid < length (file_records rs))%nat
              /\ exists file, file_records rs !! N.to_nat fid = Some file
                       /\ (0 <= m < proto.File.symbol_size file)%Z)) as Hacc.
  { intros Hok. destruct res as [b st'] eqn:Hres. cbn in Hok. subst b. cbn [snd].
    split.
    - intros fid sid Hin. pose proof Hres as (_ & _ & -> & _)%accepted_stream.
      by apply reference_recorded.
    - intros fid m Hlook.
      destruct (accepted_pair _ _ _ _ _ _ Hres Hwt Hlook) as (file & Hfile & Hm).
      split; [by eapply lookup_lt_Some|eauto]. }
  split; [done|]. split.
  - intros fid sid file Hin Hfile ->.
    destruct (res.1) eqn:Hok; [|done].
    destruct (Hacc eq_refl) as [Hcover Hbound].
    destruct (Hcover _ _ Hin) as (m & Hlook & Hle).
    destruct (Hbound _ _ Hlook) as (_ & file' & Hfile' & Hm).
    rewrite Hfile in Hfile'. injection Hfile' as <-. lia.
  - intros s st. cbn [dump_record]. cbn zeta.
    match goal with |- context [dump_callchain _ ?s0] =>
      destruct (dump_callchain_spec (proto.Sample.callchain s) s0) as (_ & _ & Hb & _)
    end. done.
Qed.

Lemma reference_origin rs fid sid :
  (fid, sid) ∈ references rs ->
  exists s e,
    proto.sample s ∈ rs /\ e ∈ proto.Sample.callchain s
    /\ proto.Sample_CallChainEntry.file_id e = fid
    /\ proto.Sample_CallChainEntry.symbol_id e = sid
    /\ sid <> (-1)%Z.
Proof.
  unfold references. rewrite list_elem_of_In, in_flat_map.
  intros (r & Hr & Hin). apply list_elem_of_In in Hr, Hin.
  destruct r as [s| | | | |]; try by apply elem_of_nil in Hin.
  apply list_elem_of_omap in Hin as (e & He & Href).
  unfold entry_reference in Href.
  destruct (Z.eqb_spec (proto.Sample_CallChainEntry.symbol_id e) (-1)); [done|].
  injection Href as <- <-. by exists s, e.
Qed.

(** C10: an entry whose symbol id is -1 changes neither the outcome of the
    callchain loop nor the map of maximal symbol ids; every pair of the map
    that the pass after the loop tests comes from an entry whose symbol id
    is not -1; and a stream that declares no file at all and names a file
    id, whichever it is, only in an entry with symbol id -1 is accepted. *)
Theorem C10_unresolved_entries_escape_the_file_check :
  (forall e cc st,
     proto.Sample_CallChainEntry.symbol_id e = (-1)%Z ->
     (dump_callchain (e :: cc) st).1 = (dump_callchain cc st).1
     /\ ((dump_callchain cc st).1 = true ->
         max_symbol_id_map (dump_callchain (e :: cc) st).2
         = max_symbol_id_map (dump_callchain cc st).2))
  /\ (forall f fp static_sample_count fid m,
        let res := DumpProtobufReport f fp static_sample_count in
        res.1 = true ->
        max_symbol_id_map res.2 !! fid = Some m ->
        exists s e,
          proto.sample s ∈ records_read (coded_stream f)
          /\ e ∈ proto.Sample.callchain s
          /\ proto.Sample_CallChainEntry.file_id e = fid
          /\ proto.Sample_CallChainEntry.symbol_id e <> (-1)%Z)
  /\ (forall fid fp static_sample_count,
        let f := Fixture.unresolved_only_report fid in
        file_records (records_read (coded_stream f)) = []
        /\ (DumpProtobufReport f fp static_sample_count).1 = true).
Proof.
  split; [|split].
  - intros e cc st He.
    destruct (dump_callchain_spec (e :: cc) st) as (_ & _ & Hb1 & Hm1).
    destruct (dump_callchain_spec cc st) as (_ & _ & Hb2 & Hm2).
    cbv zeta in Hb1, Hm1, Hb2, Hm2. rewrite omap_cons in Hm1.
    change (forallb entry_ok (e :: cc)) with (entry_ok e && forallb entry_ok cc) in Hb1.
    assert (entry_ok e = true) as Hentry by (unfold entry_ok; by rewrite He).
    assert (entry_reference e = None) as Hnone by (unfold entry_reference; by rewrite He).
    rewrite Hentry in Hb1. rewrite Hnone in Hm1. rewrite andb_true_l in Hb1.
    split; [congruence|]. intros Hok. rewrite Hm1, Hm2; congruence.
  - intros f fp sc fid m res Hok Hlook.
    destruct res as [b st'] eqn:Hres. cbn in Hok. subst b. cbn [snd] in Hlook.
    apply accepted_stream in Hres as (_ & _ & Hm & _). rewrite Hm in Hlook.
    apply recorded_pair in Hlook as [Hreq _].
    destruct (requested fid _) as [|sid l] eqn:Hsids; [done|].
    assert (sid ∈ requested fid (references (records_read (coded_stream f))))
      as Hin by (rewrite Hsids; apply elem_of_cons; auto).
    apply requested_elem, reference_origin in Hin
      as (s & e & Hs & He & Hfid & Hsid & Hne).
    exists s, e. repeat split; try done. congruence.
  - intros fid fp sc f. split; [done|]. vm_compute. reflexivity.
Qed.

(** C4: two dumps of the same valid stream give the same text only when
    both start with the sample counter at 0.  The counter is a static of
    [DumpProtobufReport]: after the first dump of a stream of one sample
    and one file, which prints [sample 1:], a second dump of that stream
    in the same process starts from 1 and prints [sample 2:], so the two
    texts differ. *)
Theorem C4_second_dump_renumbers_samples :
  let f := Fixture.one_sample_report in
  let first := DumpProtobufReport f "" 0 in
  let second := DumpProtobufReport f "" (sample_count first.2) in
  first.1 = true /\ second.1 = true
  /\ sample_count first.2 = 1%N
  /\ report first.2 =
"magic: SIMPLEPERF
version: 1
sample 1:
  event_type_id: 0
  time: 1000
  event_count: 1
  thread_id: 100
  callchain:
    vaddr_in_file: 0
    file_id: 0
    symbol_id: 0
file:
  id: 0
  path: /system/lib64/libc.so
  symbol: main
  mangled_symbol: main
"
  /\ report second.2 =
"magic: SIMPLEPERF
version: 1
sample 2:
  event_type_id: 0
  time: 1000
  event_count: 1
  thread_id: 100
  callchain:
    vaddr_in_file: 0
    file_id: 0
    symbol_id: 0
file:
  id: 0
  path: /system/lib64/libc.so
  symbol: main
  mangled_symbol: main
"
  /\ report first.2 <> report second.2.
Proof.
  vm_compute. repeat split; discriminate.
Qed.

(** ** The call-chain resolver *)

Section ResolverFacts.

Context {ThreadTree : Type} `{Collaborators ThreadTree}.

Implicit Types (c : ReportSampleCommand ThreadTree) (entries : list CallEntry).

(** [GetCallEntry] refuses a pointer only when it is asked to omit the
    unknown dso and the pointer is mapped there. *)
Lemma GetCallEntry_None c thread in_kernel ip omit_unknown_dso :
  GetCallEntry c thread in_kernel ip omit_unknown_dso = None <->
  omit_unknown_dso = true
  /\ IsUnknownDso (thread_tree_ c)
       (MapEntry.dso (FindMap (thread_tree_ c) thread ip in_kernel)) = true.
Proof.
  unfold GetCallEntry.
  destruct (FindSymbol _ _ _) as [[? ?] ?].
  destruct omit_unknown_dso,
    (IsUnknownDso (thread_tree_ c)
       (MapEntry.dso (FindMap (thread_tree_ c) thread ip in_kernel)));
    cbn; split; try done; by intros [? ?].
Qed.

Lemma GetCallEntry_first c thread in_kernel ip :
  exists entry, GetCallEntry c thread in_kernel ip false = Some entry.
Proof.
  destruct (GetCallEntry c thread in_kernel ip false) as [entry|] eqn:Hget; [eauto|].
  apply GetCallEntry_None in Hget as [? _]. done.
Qed.

Lemma pop_interpreter_entries_snoc entries entry :
  pop_interpreter_entries (entries ++ [entry])
  = if is_entry_for_interpreter entry then pop_interpreter_entries entries
    else entries ++ [entry].
Proof.
  unfold pop_interpreter_entries. rewrite rev_app_distr. cbn.
  destruct (is_entry_for_interpreter entry); [done|].
  cbn. by rewrite rev_involutive.
Qed.

Lemma spec_without_trailing_interpreters_snoc entries entry :
  spec_without_trailing_interpreters (entries ++ [entry])
  = if is_entry_for_interpreter entry then spec_without_trailing_interpreters entries
    else entries ++ [entry].
Proof.
  induction entries as [|e entries IH]; [done|].
  cbn [app spec_without_trailing_interpreters]. rewrite IH.
  destruct (is_entry_for_interpreter entry); [done|].
  by destruct entries.
Qed.

(** The pops of the loop remove exactly the trailing interpreter frames. *)
Lemma pop_interpreter_entries_spec entries :
  pop_interpreter_entries entries = spec_without_trailing_interpreters entries.
Proof.
  induction entries as [|entry entries IH] using rev_ind; [done|].
  rewrite pop_interpreter_entries_snoc, spec_without_trailing_interpreters_snoc.
  by rewrite IH.
Qed.

Lemma add_entry_collapsing entries near entry :
  add_entry false entries near entry = spec_collapse_step (entries, near) entry.
Proof.
  unfold add_entry, spec_collapse_step, frame_kind. cbn [negb].
  rewrite pop_interpreter_entries_spec.
  destruct (DsoType_eqb _ _); [done|].
  destruct (is_entry_for_interpreter entry); [|done].
  by destruct near.
Qed.

Lemma resolve_from_frames c thread k ips : forall i entries near,
  resolve_from c thread k i ips entries near
  = fold_left (fun state entry => add_entry (show_art_frames_ c) state.1 state.2 entry)
      (resolved_frames c thread k i ips) (entries, near).
Proof.
  induction ips as [|ip ips IH]; intros i entries near; [done|].
  cbn [resolve_from resolved_frames].
  destruct (GetCallEntry _ _ _ _ _) as [entry|]; [|done].
  cbn [fold_left fst snd].
  destruct (add_entry _ _ _ _) as [entries' near']. apply IH.
Qed.

Lemma fold_add_entry_all frames : forall entries near,
  fold_left (fun state entry => add_entry true state.1 state.2 entry)
    frames (entries, near)
  = (entries ++ frames, near).
Proof.
  induction frames as [|e frames IH]; intros entries near; cbn.
  - by rewrite app_nil_r.
  - rewrite IH. by rewrite <- app_assoc.
Qed.

Lemma fold_add_entry_collapsing frames : forall state,
  fold_left (fun state entry => add_entry false state.1 state.2 entry) frames state
  = fold_left spec_collapse_step frames state.
Proof.
  induction frames as [|e frames IH]; intros [entries near]; [done|].
  cbn [fold_left fst snd]. rewrite add_entry_collapsing. apply IH.
Qed.

End ResolverFacts.

(** C1: with --show-art-frames off the resolver folds the state machine of
    the description over the frames it resolves: an interpreted-code frame
    takes the trailing interpreter frames off the output, is appended and
    raises the flag; an interpreter frame is skipped while the flag is up
    and appended otherwise; any other frame is appended and lowers the
    flag.  With --show-art-frames on every resolved frame is appended.  On
    [interp, interp, managed, interp, interp, native] the output is
    [managed, native] with collapsing and the six frames without. *)
Theorem C1_interpreter_frames_collapse
    {ThreadTree : Type} `{Collaborators ThreadTree}
    (c : ReportSampleCommand ThreadTree) (thread : ThreadEntry)
    (kernel_ip_count i : nat) (ips : list N) (entries : list CallEntry)
    (near_java_method : bool) :
  (show_art_frames_ c = false ->
   resolve_from c thread kernel_ip_count i ips entries near_java_method
   = fold_left spec_collapse_step (resolved_frames c thread kernel_ip_count i ips)
       (entries, near_java_method))
  /\ (show_art_frames_ c = true ->
      resolve_from c thread kernel_ip_count i ips entries near_java_method
      = (entries ++ resolved_frames c thread kernel_ip_count i ips, near_java_method))
  /\ (let chain := [16; 17; 32; 18; 19; 48]%N in
      let collapsing := Fixture.command true false false false in
      let showing := Fixture.command true false false true in
      let frames := resolved_frames collapsing Fixture.main_thread 0 0 chain in
      map frame_kind frames
      = [Interpreter; Interpreter; InterpretedCode; Interpreter; Interpreter; Other]
      /\ length frames = 6%nat
      /\ resolve collapsing Fixture.main_thread 0 chain
         = [nth 2 frames Fixture.work_entry; nth 5 frames Fixture.work_entry]
      /\ map (fun e => Name (symbol e)) (resolve collapsing Fixture.main_thread 0 chain)
         = ["com.example.Main.run"; "_Z4workv"]
      /\ resolve showing Fixture.main_thread 0 chain = frames).
Proof.
  split; [|split].
  - intros Hoff. rewrite resolve_from_frames, Hoff. apply fold_add_entry_collapsing.
  - intros Hon. rewrite resolve_from_frames, Hon. apply fold_add_entry_all.
  - vm_compute. done.
Qed.

Section ProcessFacts.

Context {ThreadTree : Type} `{Collaborators ThreadTree}.

Implicit Types (c : ReportSampleCommand ThreadTree) (entries : list CallEntry).

Lemma add_entry_first show_art_frames first :
  exists near, add_entry show_art_frames [] false first = ([first], near).
Proof.
  unfold add_entry.
  destruct show_art_frames, (DsoType_eqb _ _), (is_entry_for_interpreter first);
    cbn; eauto.
Qed.

Lemma add_entry_nonempty show_art_frames entries near entry :
  entries <> [] -> (add_entry show_art_frames entries near entry).1 <> [].
Proof.
  intros Hne. unfold add_entry.
  destruct show_art_frames, (DsoType_eqb _ _), (is_entry_for_interpreter entry),
    near; cbn; try done; by intros [? ?]%app_eq_nil.
Qed.

Lemma resolve_from_nonempty c thread k ips : forall i entries near,
  entries <> [] -> (resolve_from c thread k i ips entries near).1 <> [].
Proof.
  induction ips as [|ip ips IH]; intros i entries near Hne; [done|].
  cbn [resolve_from]. destruct (GetCallEntry _ _ _ _ _) as [entry|]; [|done].
  pose proof (add_entry_nonempty (show_art_frames_ c) entries near entry Hne) as Hadd.
  destruct (add_entry _ _ _ _) as [entries' near']. by apply IH.
Qed.

Lemma resolve_from_first c thread k ip rest :
  exists first near,
    GetCallEntry c thread (0 <? k)%nat ip false = Some first
    /\ resolve_from c thread k 0 (ip :: rest) [] false
       = resolve_from c thread k 1 rest [first] near.
Proof.
  destruct (GetCallEntry_first c thread (0 <? k)%nat ip) as [first Hfirst].
  destruct (add_entry_first (show_art_frames_ c) first) as [near Hadd].
  exists first, near. split; [done|].
  cbn [resolve_from]. change (0 <? 0)%nat with false. by rewrite Hfirst, Hadd.
Qed.

Lemma resolve_nonempty c thread k ips : ips <> [] -> resolve c thread k ips <> [].
Proof.
  destruct ips as [|ip rest]; [done|]. intros _. unfold resolve.
  destruct (resolve_from_first c thread k ip rest) as (first & near & _ & ->).
  by apply resolve_from_nonempty.
Qed.

Lemma resolved_frames_truncate c thread k pre : forall i ip post,
  (0 < i + length pre)%nat ->
  IsUnknownDso (thread_tree_ c)
    (MapEntry.dso (FindMap (thread_tree_ c) thread ip (i + length pre <? k)%nat)) = true ->
  resolved_frames c thread k i (pre ++ ip :: post) = resolved_frames c thread k i pre.
Proof.
  induction pre as [|p pre IH]; intros i ip post Hpos Hunknown.
  - cbn [app resolved_frames length] in *. rewrite Nat.add_0_r in *.
    assert (GetCallEntry c thread (i <? k)%nat ip (0 <? i)%nat = None) as ->; [|done].
    apply GetCallEntry_None. split; [by apply Nat.ltb_lt|done].
  - cbn [app resolved_frames length] in *.
    destruct (GetCallEntry _ _ _ p _); [|done]. f_equal.
    apply IH; [lia|]. by replace (S i + length pre)%nat with (i + S (length pre))%nat by lia.
Qed.

Lemma resolve_frames c thread k ips :
  resolve c thread k ips
  = (fold_left (fun state entry => add_entry (show_art_frames_ c) state.1 state.2 entry)
       (resolved_frames c thread k 0 ips) ([], false)).1.
Proof. unfold resolve. by rewrite resolve_from_frames. Qed.

Lemma resolve_truncate c thread k pre ip post :
  pre <> [] ->
  IsUnknownDso (thread_tree_ c)
    (MapEntry.dso (FindMap (thread_tree_ c) thread ip (length pre <? k)%nat)) = true ->
  resolve c thread k (pre ++ ip :: post) = resolve c thread k pre.
Proof.
  intros Hne Hunknown. rewrite !resolve_frames, resolved_frames_truncate; [done| |done].
  destruct pre; [done|]. cbn. lia.
Qed.

(** *** What the printers leave alone *)

Lemma print_entries_fields others : forall c,
  let c' := fold_left (fun c e => print_entry 2 e c) others c in
  sample_count_ c' = sample_count_ c /\ dump_ids c' = dump_ids c
  /\ coded_os_ c' = coded_os_ c.
Proof.
  induction others as [|e others IH]; intros c; [done|].
  cbn [fold_left]. destruct (IH (print_entry 2 e c)) as (-> & -> & ->). done.
Qed.

Lemma print_sample_head_sample_count r c :
  sample_count_ (print_sample_head r c) = sample_count_ c.
Proof.
  unfold print_sample_head. cbv zeta.
  by destruct (FindThreadOrNew _ _ _) as [tree thread].
Qed.

Lemma PrintSampleRecord_sample_count r entries c :
  sample_count_ (PrintSampleRecord r entries c).2 = sample_count_ c.
Proof.
  unfold PrintSampleRecord. cbv zeta.
  destruct entries as [|first others]; cbn [snd].
  - apply print_sample_head_sample_count.
  - unfold print_callchain. destruct others as [|second others].
    + cbn [print_entry fprint set_report_fp_ sample_count_].
      apply print_sample_head_sample_count.
    + match goal with |- context [fold_left ?f ?l ?c0] =>
        destruct (print_entries_fields l c0) as (-> & _) end.
      apply print_sample_head_sample_count.
Qed.

Lemma PrintSampleRecord_outcome r entries c :
  entries <> [] -> (PrintSampleRecord r entries c).1 = Returned true.
Proof. unfold PrintSampleRecord. by destruct entries. Qed.

Lemma PrintSampleRecordInProtobuf_sample_count r entries c :
  sample_count_ (PrintSampleRecordInProtobuf r entries c).2 = sample_count_ c.
Proof.
  unfold PrintSampleRecordInProtobuf, WriteRecordInProtobuf.
  destruct (add_callchain _ _ _) as [rt callchain].
  by destruct (negb _).
Qed.

Lemma process_chain_sample_count r ips k c :
  sample_count_ (process_chain r ips k c).2 = uint64 (Z.of_N (sample_count_ c) + 1).
Proof.
  unfold process_chain.
  destruct (negb (show_callchain_ c));
    destruct (FindThreadOrNew _ _ _) as [tree thread]; cbn [use_protobuf_ set_thread_tree_ set_sample_count_];
    destruct (use_protobuf_ c).
  all: try (match goal with |- context [PrintSampleRecordInProtobuf ?r ?e ?c0] =>
    pose proof (PrintSampleRecordInProtobuf_sample_count r e c0) as Hcount;
    destruct (PrintSampleRecordInProtobuf r e c0) as [ok c'] end;
    cbn [snd] in *; by rewrite Hcount).
  all: by rewrite PrintSampleRecord_sample_count.
Qed.

Lemma process_chain_no_check r ips k c :
  ips <> [] -> (process_chain r ips k c).1 <> CheckFailed.
Proof.
  intros Hne. unfold process_chain.
  assert (take 1 ips <> []) as Hne1 by (by destruct ips).
  destruct (negb (show_callchain_ c));
    destruct (FindThreadOrNew _ _ _) as [tree thread];
    cbn [use_protobuf_ set_thread_tree_ set_sample_count_];
    destruct (use_protobuf_ c).
  all: try (by destruct (PrintSampleRecordInProtobuf _ _ _)).
  all: rewrite PrintSampleRecord_outcome; [done|]; by apply resolve_nonempty.
Qed.

Lemma remove_kernel_ips_stable c chain ips k :
  remove_kernel_ips c chain = (ips, k) ->
  (0 <? k)%nat && remove_unknown_kernel_symbols_ c
    && negb (kernel_symbols_available_ c) = false.
Proof.
  unfold remove_kernel_ips. destruct chain as [ips0 k0].
  destruct (_ && _ && _) eqn:Hcond; intros [= <- <-]; [done|exact Hcond].
Qed.

End ProcessFacts.

(** C5: the first pointer of a chain always gives an entry, which is the
    whole output after the first turn of the loop, its file unknown or
    not; a later pointer mapped in the unknown dso ends the loop, so that
    the frames and the entries are those of the pointers before it, and
    the sample is processed, counted and reported as the sample with the
    shorter chain is.  [A (known), B (unknown file)] with --show-callchain
    gives [A]. *)
Theorem C5_chain_truncated_at_unknown_file
    {ThreadTree : Type} `{Collaborators ThreadTree}
    (c : ReportSampleCommand ThreadTree) (r : SampleRecord) (thread : ThreadEntry)
    (kernel_ip_count : nat) :
  (forall ip rest,
     exists first near,
       GetCallEntry c thread (0 <? kernel_ip_count)%nat ip false = Some first
       /\ resolve_from c thread kernel_ip_count 0 (ip :: rest) [] false
          = resolve_from c thread kernel_ip_count 1 rest [first] near)
  /\ (forall pre ip post,
        pre <> [] ->
        IsUnknownDso (thread_tree_ c)
          (MapEntry.dso (FindMap (thread_tree_ c) thread ip
                           (length pre <? kernel_ip_count)%nat)) = true ->
        resolved_frames c thread kernel_ip_count 0 (pre ++ ip :: post)
        = resolved_frames c thread kernel_ip_count 0 pre
        /\ resolve c thread kernel_ip_count (pre ++ ip :: post)
           = resolve c thread kernel_ip_count pre)
  /\ (forall pre ip post,
        pre <> [] ->
        show_callchain_ c = true ->
        (let found := FindThreadOrNew (thread_tree_ c) (tid_data_pid r) (tid_data_tid r) in
         IsUnknownDso found.1
           (MapEntry.dso (FindMap found.1 found.2 ip
                            (length pre <? kernel_ip_count)%nat)) = true) ->
        process_chain r (pre ++ ip :: post) kernel_ip_count c
        = process_chain r pre kernel_ip_count c
        /\ sample_count_ (process_chain r (pre ++ ip :: post) kernel_ip_count c).2
           = uint64 (Z.of_N (sample_count_ c) + 1)
        /\ (process_chain r (pre ++ ip :: post) kernel_ip_count c).1 <> CheckFailed)
  /\ (let known := 48%N in
      let unknown := 99%N in
      let cmd := Fixture.command true false false false in
      IsUnknownDso (thread_tree_ cmd)
        (MapEntry.dso (FindMap (thread_tree_ cmd) Fixture.main_thread unknown false)) = true
      /\ resolve cmd Fixture.main_thread 0 [known; unknown] = [Fixture.work_entry]).
Proof.
  split; [|split; [|split]].
  - intros ip rest. apply resolve_from_first.
  - intros pre ip post Hne Hunknown. split.
    + apply resolved_frames_truncate; [|done]. destruct pre; [done|]. cbn. lia.
    + by apply resolve_truncate.
  - intros pre ip post Hne Hshow Hunknown. cbn zeta in Hunknown.
    split; [|split].
    + unfold process_chain. rewrite Hshow. cbn [negb].
      cbn [thread_tree_ set_sample_count_].
      destruct (FindThreadOrNew _ _ _) as [tree thread']. cbn [fst snd] in Hunknown.
      rewrite resolve_truncate; done.
    + apply process_chain_sample_count.
    + apply process_chain_no_check. by destruct pre.
  - vm_compute. done.
Qed.

(** C6: when the chain begins with kernel pointers, the policy is set and
    the run has no kernel symbols, [ProcessSampleRecord] goes on with the
    user pointers alone and a kernel count of 0: it returns at once when
    there is none, and otherwise does with them what it does with a chain
    that never had kernel pointers. *)
Theorem C6_unknown_kernel_frames_removed
    {ThreadTree : Type} `{Collaborators ThreadTree}
    (c : ReportSampleCommand ThreadTree) (r : SampleRecord)
    (kernel_ips user_ips : list N) :
  GetCallChain r = (kernel_ips ++ user_ips, length kernel_ips) ->
  kernel_ips <> [] ->
  remove_unknown_kernel_symbols_ c = true ->
  kernel_symbols_available_ c = false ->
  remove_kernel_ips c (GetCallChain r) = (user_ips, 0%nat)
  /\ ProcessSampleRecord r c
     = match user_ips with
       | [] => (Returned true, c)
       | _ :: _ => process_chain r user_ips 0 c
       end.
Proof.
  intros Hchain Hkernel Hremove Havailable.
  assert (remove_kernel_ips c (GetCallChain r) = (user_ips, 0%nat)) as Hleft.
  { rewrite Hchain. unfold remove_kernel_ips. rewrite Hremove, Havailable.
    assert ((0 <? length kernel_ips)%nat = true) as ->
      by (apply Nat.ltb_lt; destruct kernel_ips; [done|cbn; lia]).
    cbn [andb negb]. by rewrite drop_app_length. }
  split; [done|]. unfold ProcessSampleRecord. by rewrite Hleft.
Qed.

(** C7: a sample whose chain is empty once the kernel pointers are removed
    makes [ProcessSampleRecord] return true and leaves the command as it
    was: nothing is written to either report, the sample counter keeps its
    value and no dump id is allocated. *)
Theorem C7_empty_chain_reports_nothing
    {ThreadTree : Type} `{Collaborators ThreadTree}
    (c : ReportSampleCommand ThreadTree) (r : SampleRecord) :
  (remove_kernel_ips c (GetCallChain r)).1 = [] ->
  ProcessSampleRecord r c = (Returned true, c)
  /\ report_fp_ (ProcessSampleRecord r c).2 = report_fp_ c
  /\ coded_os_ (ProcessSampleRecord r c).2 = coded_os_ c
  /\ sample_count_ (ProcessSampleRecord r c).2 = sample_count_ c
  /\ dump_ids (ProcessSampleRecord r c).2 = dump_ids c.
Proof.
  intros Hempty.
  assert (ProcessSampleRecord r c = (Returned true, c)) as ->; [|done].
  unfold ProcessSampleRecord.
  destruct (remove_kernel_ips c (GetCallChain r)) as [ips k]. cbn in Hempty. by subst.
Qed.

(** C8: a chain that is not empty after the removal of kernel pointers is
    resolved to a list of entries that is not empty, whether the whole
    chain or only its first pointer is resolved, and whatever the thread
    tree answers; so the [CHECK] of the text printer holds and
    [ProcessSampleRecord] does not abort. *)
Theorem C8_entries_never_empty
    {ThreadTree : Type} `{Collaborators ThreadTree}
    (c : ReportSampleCommand ThreadTree) (r : SampleRecord)
    (ips : list N) (kernel_ip_count : nat) :
  remove_kernel_ips c (GetCallChain r) = (ips, kernel_ip_count) ->
  ips <> [] ->
  (forall (c' : ReportSampleCommand ThreadTree) thread k,
     resolve c' thread k ips <> [] /\ resolve c' thread k (take 1 ips) <> [])
  /\ (forall entries, entries <> [] ->
        (PrintSampleRecord r entries c).1 = Returned true)
  /\ (ProcessSampleRecord r c).1 <> CheckFailed.
Proof.
  intros Hleft Hne. split; [|split].
  - intros c' thread k. split; apply resolve_nonempty; [done|by destruct ips].
  - intros entries. apply PrintSampleRecord_outcome.
  - unfold ProcessSampleRecord. rewrite Hleft.
    destruct ips as [|ip rest]; [done|]. by apply process_chain_no_check.
Qed.

(** ** The two printers *)

Section PrinterFacts.

Context {ThreadTree : Type} `{Collaborators ThreadTree}.

Implicit Types (c : ReportSampleCommand ThreadTree) (entries : list CallEntry).

Lemma add_callchain_cut unknown_symbol pre : forall rt node post,
  Forall (fun e => is_call_chain_end e = false) pre ->
  is_call_chain_end node = true ->
  add_callchain unknown_symbol rt (pre ++ node :: post)
  = add_callchain unknown_symbol rt (pre ++ [node])
  /\ length (add_callchain unknown_symbol rt (pre ++ node :: post)).2 = S (length pre).
Proof.
  induction pre as [|e pre IH]; intros rt node post Hpre Hend.
  - cbn [app add_callchain]. destruct (add_node _ _ _) as [rt' callchain].
    by rewrite Hend.
  - inversion_clear Hpre as [|? ? He Hrest].
    cbn [app add_callchain length]. destruct (add_node _ _ _) as [rt' callchain].
    rewrite He. destruct (IH rt' node post Hrest Hend) as [-> Hlen].
    destruct (IH rt' node [] Hrest Hend) as [_ Hlen'].
    destruct (add_callchain unknown_symbol rt' (pre ++ [node])) as [rt'' more].
    cbn [snd length] in *. by rewrite Hlen'.
Qed.

Lemma print_callchain_snoc others last c :
  print_callchain (others ++ [last]) c
  = print_entry 2 last
      (match others with
       | [] => fprint 1 ("callchain:" +:+ nl) c
       | _ :: _ => print_callchain others c
       end).
Proof.
  destruct others as [|second others]; [done|].
  unfold print_callchain. cbn [app fold_left]. by rewrite fold_left_app.
Qed.

Lemma PrintSampleRecord_snoc r first others last c :
  (PrintSampleRecord r (first :: others ++ [last]) c).2
  = print_entry 2 last
      (match others with
       | [] => fprint 1 ("callchain:" +:+ nl)
                 (PrintSampleRecord r (first :: others) c).2
       | _ :: _ => (PrintSampleRecord r (first :: others) c).2
       end).
Proof.
  unfold PrintSampleRecord. cbn [snd]. rewrite print_callchain_snoc.
  by destruct others.
Qed.

End PrinterFacts.

(** C9: in protobuf mode the callchain written for a sample stops with the
    first entry that is [__libc_init] or [__start_thread] of libc.so: the
    entries resolved after it add nothing to the record and get no dump
    id.  The text printer prints every entry it is given, whatever comes
    before it.  For the chain work() / __libc_init / _start_main the
    protobuf record has two entries and the text report three. *)
Theorem C9_protobuf_chain_ends_at_thread_start
    {ThreadTree : Type} `{Collaborators ThreadTree}
    (c : ReportSampleCommand ThreadTree) (r : SampleRecord) :
  (forall pre node post,
     Forall (fun e => is_call_chain_end e = false) pre ->
     is_call_chain_end node = true ->
     PrintSampleRecordInProtobuf r (pre ++ node :: post) c
     = PrintSampleRecordInProtobuf r (pre ++ [node]) c
     /\ length (add_callchain (UnknownSymbol (thread_tree_ c)) (dump_ids c)
                  (pre ++ node :: post)).2 = S (length pre))
  /\ (forall first others last,
        (PrintSampleRecord r (first :: others ++ [last]) c).2
        = print_entry 2 last
            (match others with
             | [] => fprint 1 ("callchain:" +:+ nl)
                       (PrintSampleRecord r (first :: others) c).2
             | _ :: _ => (PrintSampleRecord r (first :: others) c).2
             end))
  /\ (let chain := [48; 64; 66]%N in
      let sample := Fixture.sample_of chain 0 in
      let binary := Fixture.command true true false false in
      let text := Fixture.command true false false false in
      map (fun e => (FileName (dso e), Name (symbol e)))
        (resolve binary Fixture.main_thread 0 chain)
      = [("libnative.so", "_Z4workv"); ("libc.so", "__libc_init");
         ("libc.so", "_start_main")]
      /\ coded_os_ (ProcessSampleRecord sample binary).2
         = [Frame.mk 1
              (Some (proto.sample
                 (proto.Sample.mk 1000 1 100
                    [proto.Sample_CallChainEntry.mk 48 0 0;
                     proto.Sample_CallChainEntry.mk 64 1 0] 0)))]
      /\ report_fp_ (ProcessSampleRecord sample text).2 =
"sample:
  event_type: cpu-cycles
  time: 1000
  event_count: 1
  thread_id: 100
  thread_name: main
  vaddr_in_file: 30
  file: /data/app/libnative.so
  symbol: work()
  callchain:
    vaddr_in_file: 40
    file: /system/lib64/libc.so
    symbol: __libc_init
    vaddr_in_file: 42
    file: /system/lib64/libc.so
    symbol: _start_main
").
Proof.
  split; [|split].
  - intros pre node post Hpre Hend.
    destruct (add_callchain_cut (UnknownSymbol (thread_tree_ c)) pre (dump_ids c)
                node post Hpre Hend) as [Hcut Hlen].
    split; [|done]. unfold PrintSampleRecordInProtobuf. by rewrite Hcut.
  - intros first others last. apply PrintSampleRecord_snoc.
  - vm_compute. done.
Qed.

(** ** The theorems at work on the fixture *)

Lemma C1_interpreter_frames_collapse_witness :
  show_art_frames_ (Fixture.command true false false false) = false
  /\ resolve_from (Fixture.command true false false false) Fixture.main_thread 0 0
       [16; 17; 32; 18; 19; 48]%N [] false
     = fold_left spec_collapse_step
         (resolved_frames (Fixture.command true false false false)
            Fixture.main_thread 0 0 [16; 17; 32; 18; 19; 48]%N)
         ([], false).
Proof.
  split; [reflexivity|].
  apply (proj1 (C1_interpreter_frames_collapse
                  (Fixture.command true false false false) Fixture.main_thread 0 0
                  [16; 17; 32; 18; 19; 48]%N [] false)).
  reflexivity.
Defined.

Lemma C2_file_ids_are_sequential_witness :
  ((DumpProtobufReport Fixture.two_file_report "" 0).1 = true
   /\ map proto.File.id
        (file_records (records_read (coded_stream Fixture.two_file_report)))
      = [0; 1]%N)
  /\ (map proto.File.id
        (file_records (records_read (coded_stream Fixture.gap_report)))
      = [0; 2]%N
      /\ (DumpProtobufReport Fixture.gap_report "" 0).1 = false).
Proof.
  split; split.
  - vm_compute; reflexivity.
  - apply (proj1 (proj2 (C2_file_ids_are_sequential Fixture.two_file_report "" 0))).
    vm_compute; reflexivity.
  - reflexivity.
  - apply (proj2 (proj2 (C2_file_ids_are_sequential Fixture.gap_report "" 0))).
    vm_compute. discriminate.
Defined.

Lemma C3_symbol_bounds_checked_after_the_pass_witness :
  (well_typed (records_read (coded_stream Fixture.two_file_report)) = true
   /\ (DumpProtobufReport Fixture.two_file_report "" 0).1 = true
   /\ exists m,
        max_symbol_id_map (DumpProtobufReport Fixture.two_file_report "" 0).2 !! 1%N
        = Some m /\ (1 <= m)%Z)
  /\ (well_typed (records_read (coded_stream Fixture.out_of_bounds_report)) = true
      /\ (DumpProtobufReport Fixture.out_of_bounds_report "" 0).1 = false).
Proof.
  split; [split; [|split]|split].
  - vm_compute; reflexivity.
  - vm_compute; reflexivity.
  - apply (proj1 (C3_symbol_bounds_checked_after_the_pass
                    Fixture.two_file_report "" 0 ltac:(vm_compute; reflexivity))).
    + vm_compute; reflexivity.
    + vm_compute. apply list_elem_of_here.
  - vm_compute; reflexivity.
  - apply (proj1 (proj2 (C3_symbol_bounds_checked_after_the_pass
                           Fixture.out_of_bounds_report "" 0
                           ltac:(vm_compute; reflexivity)))
             0%N 1%Z (proto.File.mk 0 "/system/lib64/libc.so" ["main"] ["main"])).
    + vm_compute. apply list_elem_of_here.
    + reflexivity.
    + reflexivity.
Defined.

Lemma C5_chain_truncated_at_unknown_file_witness :
  [48%N] <> []
  /\ IsUnknownDso (thread_tree_ (Fixture.command true false false false))
       (MapEntry.dso
          (FindMap (thread_tree_ (Fixture.command true false false false))
             Fixture.main_thread 99%N (length [48%N] <? 0)%nat)) = true
  /\ resolve (Fixture.command true false false false) Fixture.main_thread 0
       ([48%N] ++ 99%N :: [64%N])
     = resolve (Fixture.command true false false false) Fixture.main_thread 0 [48%N].
Proof.
  split; [discriminate|]. split; [reflexivity|].
  apply (proj1 (proj2 (C5_chain_truncated_at_unknown_file
                         (Fixture.command true false false false)
                         (Fixture.sample_of [48; 99; 64]%N 0) Fixture.main_thread 0))
           [48%N] 99%N [64%N]).
  - discriminate.
  - reflexivity.
Defined.

Lemma C6_unknown_kernel_frames_removed_witness :
  remove_kernel_ips (Fixture.command true false true false)
    (GetCallChain (Fixture.sample_of [80; 81; 48; 64; 66]%N 2))
  = ([48; 64; 66]%N, 0%nat)
  /\ ProcessSampleRecord (Fixture.sample_of [80; 81; 48; 64; 66]%N 2)
       (Fixture.command true false true false)
     = process_chain (Fixture.sample_of [80; 81; 48; 64; 66]%N 2) [48; 64; 66]%N 0
         (Fixture.command true false true false).
Proof.
  apply (C6_unknown_kernel_frames_removed (Fixture.command true false true false)
           (Fixture.sample_of [80; 81; 48; 64; 66]%N 2) [80; 81]%N [48; 64; 66]%N).
  - reflexivity.
  - discriminate.
  - reflexivity.
  - reflexivity.
Defined.

Lemma C7_empty_chain_reports_nothing_witness :
  (remove_kernel_ips (Fixture.command true true true false)
     (GetCallChain (Fixture.sample_of [80; 81]%N 2))).1 = []
  /\ ProcessSampleRecord (Fixture.sample_of [80; 81]%N 2)
       (Fixture.command true true true false)
     = (Returned true, Fixture.command true true true false).
Proof.
  split; [reflexivity|].
  apply (C7_empty_chain_reports_nothing (Fixture.command true true true false)
           (Fixture.sample_of [80; 81]%N 2)).
  reflexivity.
Defined.

Lemma C8_entries_never_empty_witness :
  (ProcessSampleRecord (Fixture.sample_of [17; 32; 16]%N 0)
     (Fixture.command true false false false)).1 <> CheckFailed.
Proof.
  apply (C8_entries_never_empty (Fixture.command true false false false)
           (Fixture.sample_of [17; 32; 16]%N 0) [17; 32; 16]%N 0).
  - reflexivity.
  - discriminate.
Defined.

Lemma C9_protobuf_chain_ends_at_thread_start_witness :
  is_call_chain_end Fixture.libc_init_entry = true
  /\ PrintSampleRecordInProtobuf (Fixture.sample_of [48; 64; 66]%N 0)
       ([Fixture.work_entry] ++ Fixture.libc_init_entry :: [Fixture.start_main_entry])
       (Fixture.command true true false false)
     = PrintSampleRecordInProtobuf (Fixture.sample_of [48; 64; 66]%N 0)
         ([Fixture.work_entry] ++ [Fixture.libc_init_entry])
         (Fixture.command true true false false).
Proof.
  split; [reflexivity|].
  apply (proj1 (C9_protobuf_chain_ends_at_thread_start
                  (Fixture.command true true false false)
                  (Fixture.sample_of [48; 64; 66]%N 0))
           [Fixture.work_entry] Fixture.libc_init_entry [Fixture.start_main_entry]).
  - apply List.Forall_cons; [reflexivity|apply List.Forall_nil].
  - reflexivity.
Defined.

Lemma C10_unresolved_entries_escape_the_file_check_witness :
  (dump_callchain
     [proto.Sample_CallChainEntry.mk 0 7 (-1); proto.Sample_CallChainEntry.mk 0 0 0]
     (mkDumpState "" ∅ [] 0 0)).1
  = (dump_callchain [proto.Sample_CallChainEntry.mk 0 0 0]
       (mkDumpState "" ∅ [] 0 0)).1.
Proof.
  apply (proj1 C10_unresolved_entries_escape_the_file_check
           (proto.Sample_CallChainEntry.mk 0 7 (-1))
           [proto.Sample_CallChainEntry.mk 0 0 0] (mkDumpState "" ∅ [] 0 0)).
  reflexivity.
Defined.

(** * More of the decoder *)

Lemma string_app_assoc (a b c : string) : (a +:+ b) +:+ c = a +:+ b +:+ c.
Proof.
  induction a as [|x a IH]; [done|].
  change (String x ((a +:+ b) +:+ c) = String x (a +:+ b +:+ c)). by rewrite IH.
Qed.

Lemma substring_length_le (n : nat) (s : string) :
  (String.length (String.substring 0 n s) <= String.length s)%nat.
Proof.
  revert n. induction s as [|c s IH]; intros n; destruct n; cbn; try lia.
  specialize (IH n). lia.
Qed.

Lemma header_ok_magic (f : ReportFile) :
  (10 <=? String.length (leading_bytes f))%nat
  && String.eqb (String.substring 0 10 (leading_bytes f)) PROT_FILE_MAGIC
  = String.eqb (String.substring 0 10 (leading_bytes f)) PROT_FILE_MAGIC.
Proof.
  destruct (String.eqb_spec (String.substring 0 10 (leading_bytes f)) PROT_FILE_MAGIC)
    as [Heq|Hne]; [|by rewrite andb_false_r].
  rewrite andb_true_r. apply Nat.leb_le.
  pose proof (substring_length_le 10 (leading_bytes f)) as Hlen.
  rewrite Heq in Hlen. exact Hlen.
Qed.

Lemma dump_record_verdict r st :
  (dump_record r st).1 = loop_ok (length (files st)) [r].
Proof.
  destruct r as [s|l|f|t|mi|]; cbn [loop_ok]; rewrite ?andb_true_r; try done.
  - cbn [dump_record]. cbv zeta.
    match goal with |- context [dump_callchain _ ?s0] =>
      destruct (dump_callchain_spec (proto.Sample.callchain s) s0) as (_ & _ & Hb & _)
    end. done.
  - cbn [dump_record]. cbv zeta. rewrite ?files_print_each. cbn [print files].
    by destruct (_ =? _)%N.
Qed.

Lemma loop_ok_cons n r rs :
  loop_ok n (r :: rs) = loop_ok n [r] && loop_ok (n + length (file_records [r])) rs.
Proof.
  destruct r; cbn [loop_ok file_records]; rewrite ?omap_cons; cbn;
    rewrite ?andb_true_r, ?Nat.add_0_r, ?Nat.add_1_r; done.
Qed.

Lemma dump_records_verdict stream : forall st,
  (dump_records stream st).1
  = stream_complete stream && loop_ok (length (files st)) (records_read stream).
Proof.
  induction stream as [|f rest IH]; intros st; [done|].
  cbn [dump_records stream_complete records_read].
  destruct (Frame.size f =? 0)%N; [done|].
  destruct (Frame.parsed f) as [r|]; [|done].
  set (st1 := if (max_message_size st <? Frame.size f)%N
              then set_max_message_size (Frame.size f) st else st).
  assert (files st1 = files st) as Hf1 by (subst st1; by destruct (_ <? _)%N).
  rewrite loop_ok_cons, <- Hf1.
  pose proof (dump_record_verdict r st1) as Hverdict.
  pose proof (dump_record_spec r st1) as Hspec.
  destruct (dump_record r st1) as [[] st2]; cbn [fst snd] in *.
  - destruct (Hspec eq_refl) as (Hf2 & _). rewrite <- Hverdict, andb_true_l, IH.
    by rewrite Hf2, length_app, length_map.
  - by rewrite <- Hverdict, andb_false_r.
Qed.

(** The verdict of the decoder as a test on the file alone. *)
Lemma DumpProtobufReport_verdict f fp static_sample_count :
  let rs := records_read (coded_stream f) in
  (DumpProtobufReport f fp static_sample_count).1
  = header_ok f
    && (stream_complete (coded_stream f) && loop_ok 0 rs)
    && check_symbol_ids (fold_left note (references rs) ∅)
         (map symbol_count (file_records rs)).
Proof.
  cbv zeta. unfold DumpProtobufReport, header_ok. rewrite header_ok_magic.
  destruct (String.eqb _ PROT_FILE_MAGIC); [|done]. cbn [negb andb].
  destruct (read_uint16 _) as [version|]; [|done].
  destruct (version =? PROT_FILE_VERSION)%N; [|done]. cbn [negb andb].
  match goal with |- context [dump_records _ ?s0] =>
    pose proof (dump_records_verdict (coded_stream f) s0) as Hverdict;
    pose proof (dump_records_spec (coded_stream f) s0) as Hspec;
    destruct (dump_records (coded_stream f) s0) as [[] st1]
  end; cbn [fst snd print files length max_symbol_id_map] in *.
  - destruct (Hspec st1 eq_refl) as (-> & _ & ->). by rewrite <- Hverdict.
  - by rewrite <- Hverdict.
Qed.

Lemma stream_complete_terminated stream :
  stream_complete stream = true <-> terminated stream.
Proof.
  unfold terminated. split.
  - induction stream as [|f rest IH]; [done|]. cbn [stream_complete].
    destruct (N.eqb_spec (Frame.size f) 0) as [Hzero|Hsize].
    { intros _. exists [], f, rest. by repeat split. }
    destruct (Frame.parsed f) as [r|] eqn:Hparsed; [|done].
    intros (pre & last & post & -> & Hlast & Hpre)%IH.
    exists (f :: pre), last, post. repeat split; [done|].
    apply Forall_cons. split; [|done]. split; [done|]. by rewrite Hparsed.
  - intros (pre & last & post & -> & Hlast & Hpre).
    induction Hpre as [|f pre [Hsize [r Hparsed]] _ IH]; cbn [app stream_complete].
    + by rewrite Hlast.
    + apply N.eqb_neq in Hsize. by rewrite Hsize, Hparsed.
Qed.

Lemma loop_ok_iff rs : forall n,
  loop_ok n rs = true <->
  (proto.none_set ∉ rs)
  /\ (forall s e, proto.sample s ∈ rs -> e ∈ proto.Sample.callchain s ->
      (-1 <= proto.Sample_CallChainEntry.symbol_id e)%Z)
  /\ map proto.File.id (file_records rs)
     = map N.of_nat (seq n (length (file_records rs))).
Proof.
  induction rs as [|r rs IH]; intros n.
  - cbn. split; [|done]. intros _. repeat split; [by intros ?%elem_of_nil|].
    by intros s e ?%elem_of_nil.
  - rewrite loop_ok_cons, andb_true_iff, IH, (file_records_cons r rs).
    rewrite !not_elem_of_cons.
    assert (forall P : proto.Sample.t -> proto.Sample_CallChainEntry.t -> Prop,
              (forall s e, proto.sample s ∈ r :: rs -> e ∈ proto.Sample.callchain s -> P s e)
              <-> (forall s e, proto.sample s = r -> e ∈ proto.Sample.callchain s -> P s e)
                  /\ (forall s e, proto.sample s ∈ rs -> e ∈ proto.Sample.callchain s -> P s e))
      as Hsplit.
    { intros P. split.
      - intros Hall. split; intros s e Hs He; apply Hall; try done;
          apply elem_of_cons; auto.
      - intros [Hhere Hrest] s e [Hs|Hs]%elem_of_cons He; eauto. }
    rewrite Hsplit.
    destruct r as [s|l|f|t|mi|]; cbn [loop_ok];
      repeat match goal with
      | |- context [file_records [?x]] =>
        let v := eval cbn in (file_records [x]) in change (file_records [x]) with v
      end;
      cbn [length app Nat.add map seq]; rewrite ?andb_true_r, ?Nat.add_0_r, ?Nat.add_1_r.
    + rewrite forallb_forall. unfold entry_ok. split.
      * intros (Hentries & Hnone & Hrest & Hids). repeat split; try done.
        intros s' e [= <-] He%list_elem_of_In. by apply Z.leb_le, Hentries.
      * intros ((_ & Hnone) & (Hhere & Hrest) & Hids). repeat split; try done.
        intros e He%list_elem_of_In. by apply Z.leb_le, (Hhere s).
    + split.
      * intros (_ & Hnone & Hrest & Hids). by repeat split.
      * intros ((_ & Hnone) & (_ & Hrest) & Hids). by repeat split.
    + rewrite N.eqb_eq. split.
      * intros (Hid & Hnone & Hrest & Hids). repeat split; try done.
        by rewrite Hid, Hids.
      * intros ((_ & Hnone) & (_ & Hrest) & [= Hid Hids]). by repeat split.
    + split.
      * intros (_ & Hnone & Hrest & Hids). by repeat split.
      * intros ((_ & Hnone) & (_ & Hrest) & Hids). by repeat split.
    + split.
      * intros (_ & Hnone & Hrest & Hids). by repeat split.
      * intros ((_ & Hnone) & (_ & Hrest) & Hids). by repeat split.
    + split; [by intros [? _]|]. by intros ((? & _) & _).
Qed.

Lemma check_pair_intro fs k v n :
  fs !! N.to_nat k = Some n -> (uint32 v < n)%N -> check_pair fs (k, v) = true.
Proof.
  intros Hn Hlt. unfold check_pair. cbn [fst snd]. rewrite Hn. cbn.
  apply lookup_lt_Some in Hn.
  destruct (N.leb_spec (N.of_nat (length fs)) k); [lia|].
  by destruct (N.leb_spec n (uint32 v)); [lia|].
Qed.

Lemma reference_nonneg rs fid sid :
  (forall s e, proto.sample s ∈ rs -> e ∈ proto.Sample.callchain s ->
     (-1 <= proto.Sample_CallChainEntry.symbol_id e)%Z) ->
  (fid, sid) ∈ references rs -> (0 <= sid)%Z.
Proof.
  intros Hentries (s & e & Hs & He & _ & <- & Hne)%reference_origin.
  specialize (Hentries s e Hs He). lia.
Qed.

Lemma bounds_checked rs :
  well_typed rs = true ->
  (forall s e, proto.sample s ∈ rs -> e ∈ proto.Sample.callchain s ->
     (-1 <= proto.Sample_CallChainEntry.symbol_id e)%Z) ->
  check_symbol_ids (fold_left note (references rs) ∅)
    (map symbol_count (file_records rs)) = true
  <-> (forall fid sid, (fid, sid) ∈ references rs ->
       exists file, file_records rs !! N.to_nat fid = Some file
                    /\ (sid < proto.File.symbol_size file)%Z).
Proof.
  intros Hwt Hentries. rewrite check_symbol_ids_true. split.
  - intros Hcheck fid sid Hin.
    destruct (reference_recorded _ _ _ Hin) as (v & Hlook & Hle).
    destruct (check_pair_true _ _ _ (Hcheck _ _ Hlook)) as (n & Hn & Hlt).
    rewrite list_lookup_fmap in Hn.
    destruct (file_records rs !! N.to_nat fid) as [file|] eqn:Hfile; [|done].
    injection Hn as <-. exists file. split; [done|].
    apply recorded_pair in Hlook as [_ ->].
    set (sids := requested fid (references rs)) in *.
    assert (0 <= fold_left Z.max sids 0)%Z by apply fold_max_ge_init.
    assert (fold_left Z.max sids 0 < 2 ^ 31)%Z.
    { apply fold_max_lt; [lia|]. apply Forall_forall. intros x Hx.
      apply requested_elem in Hx. by eapply well_typed_reference. }
    rewrite <- (well_typed_file _ _ _ Hwt Hfile).
    rewrite <- (uint32_small (fold_left Z.max sids 0%Z)) in Hle by lia. lia.
  - intros Hbound k v Hlook. apply recorded_pair in Hlook as [Hreq ->].
    destruct (requested k (references rs)) as [|sid0 sids] eqn:Hsids; [done|].
    assert ((k, sid0) ∈ references rs) as Hin0
      by (apply requested_elem; rewrite Hsids; apply list_elem_of_here).
    destruct (Hbound _ _ Hin0) as (file & Hfile & Hlt0).
    pose proof (reference_nonneg _ _ _ Hentries Hin0) as Hpos0.
    pose proof (well_typed_file _ _ _ Hwt Hfile) as Hcount.
    assert (proto.File.symbol_size file < 2 ^ 32)%Z.
    { pose proof Hwt as [_ Hfiles]%andb_true_iff. rewrite forallb_forall in Hfiles.
      apply list_elem_of_lookup_2, list_elem_of_In, Hfiles, is_int32_bounds in Hfile.
      lia. }
    assert (fold_left Z.max (sid0 :: sids) 0 < proto.File.symbol_size file)%Z as Hmax.
    { apply fold_max_lt; [lia|]. apply Forall_forall. intros x Hx.
      rewrite <- Hsids in Hx. apply requested_elem in Hx.
      destruct (Hbound _ _ Hx) as (file' & Hfile' & Hx'). congruence. }
    pose proof (fold_max_ge_init (sid0 :: sids) 0%Z).
    apply (check_pair_intro _ _ _ (symbol_count file)).
    + by rewrite list_lookup_fmap, Hfile.
    + apply N2Z.inj_lt. rewrite uint32_small by lia. lia.
Qed.

(** X1: for a stream within the ranges of its field types, the decoder
    returns true exactly when the file is a valid report. *)
Theorem DumpProtobufReport_accepts_valid_reports f fp static_sample_count :
  well_typed (records_read (coded_stream f)) = true ->
  (DumpProtobufReport f fp static_sample_count).1 = true <-> valid_report f.
Proof.
  intros Hwt. rewrite DumpProtobufReport_verdict. cbv zeta. unfold valid_report, header_ok.
  rewrite !andb_true_iff, stream_complete_terminated, loop_ok_iff, String.eqb_eq.
  assert (match read_uint16 (String.substring 10 2 (leading_bytes f)) with
          | Some version => (version =? PROT_FILE_VERSION)%N
          | None => false
          end = true
          <-> read_uint16 (String.substring 10 2 (leading_bytes f))
              = Some PROT_FILE_VERSION) as ->.
  { destruct (read_uint16 _) as [version|]; [|done].
    rewrite N.eqb_eq. split; congruence. }
  split.
  - intros (((Hmagic & Hversion) & Hterm & Hnone & Hentries & Hids) & Hcheck).
    repeat split; try done. by apply bounds_checked.
  - intros (Hmagic & Hversion & Hterm & Hnone & Hentries & Hids & Hbound).
    repeat split; try done. by apply bounds_checked.
Qed.

(** X2: what follows the first zero length is never read: the dump of a
    file does not depend on it. *)
Theorem DumpProtobufReport_ignores_what_follows_the_terminator
    (head : string) (pre post : list Frame.t) (last : Frame.t)
    (fp : string) (static_sample_count : N) :
  Frame.size last = 0%N ->
  DumpProtobufReport (mkReportFile head (pre ++ last :: post)) fp static_sample_count
  = DumpProtobufReport (mkReportFile head (pre ++ [last])) fp static_sample_count.
Proof.
  intros Hlast.
  assert (forall st, dump_records (pre ++ last :: post) st = dump_records (pre ++ [last]) st)
    as Hloop.
  { induction pre as [|f pre IH]; intros st; cbn [app dump_records].
    - by rewrite Hlast.
    - destruct (Frame.size f =? 0)%N; [done|].
      destruct (Frame.parsed f) as [r|]; [|done].
      destruct (dump_record r _) as [[] st2]; [apply IH|done]. }
  unfold DumpProtobufReport. cbn [leading_bytes coded_stream].
  destruct (negb _); [done|]. destruct (read_uint16 _) as [version|]; [|done].
  destruct (negb _); [done|]. by rewrite Hloop.
Qed.

Lemma DumpProtobufReport_ignores_what_follows_the_terminator_witness :
  Frame.size Fixture.end_of_stream = 0%N
  /\ DumpProtobufReport
       (mkReportFile Fixture.header
          ([Fixture.frame (Fixture.file_with 0 ["main"])]
           ++ Fixture.end_of_stream :: [Fixture.frame (Fixture.file_with 7 [])]))
       "" 0
     = DumpProtobufReport
         (mkReportFile Fixture.header
            ([Fixture.frame (Fixture.file_with 0 ["main"])] ++ [Fixture.end_of_stream]))
         "" 0.
Proof.
  split; [reflexivity|].
  apply (DumpProtobufReport_ignores_what_follows_the_terminator Fixture.header
           [Fixture.frame (Fixture.file_with 0 ["main"])]
           [Fixture.frame (Fixture.file_with 7 [])] Fixture.end_of_stream "" 0).
  reflexivity.
Defined.

Lemma dump_callchain_max_message_size cc : forall st,
  max_message_size (dump_callchain cc st).2 = max_message_size st.
Proof.
  induction cc as [|e cc IH]; intros st; [done|]. cbn [dump_callchain]. cbv zeta.
  destruct (_ <? _)%Z; [done|]. rewrite IH. by destruct (negb _).
Qed.

Lemma max_print_each indent key l st :
  max_message_size (print_each indent key l st) = max_message_size st.
Proof. apply print_each_fields. Qed.

Lemma dump_record_max_message_size r st :
  max_message_size (dump_record r st).2 = max_message_size st.
Proof.
  destruct r as [s|l|f|t|mi|]; cbn [dump_record]; cbv zeta; try done.
  - by rewrite dump_callchain_max_message_size.
  - destruct (negb _); cbn [snd set_files max_message_size];
      by rewrite !max_print_each.
  - destruct (proto.MetaInfo.app_package_name mi); cbn [snd print max_message_size];
      by rewrite max_print_each.
Qed.

Lemma dump_records_max_message_size stream : forall st st',
  dump_records stream st = (true, st') ->
  max_message_size st'
  = fold_left N.max (map Frame.size (frames_read stream)) (max_message_size st).
Proof.
  induction stream as [|f rest IH]; intros st st' Hrun; [done|].
  cbn [dump_records frames_read] in *.
  destruct (Frame.size f =? 0)%N; [by injection Hrun as <-|].
  destruct (Frame.parsed f) as [r|]; [|done].
  pose proof (dump_record_max_message_size r
                (if (max_message_size st <? Frame.size f)%N
                 then set_max_message_size (Frame.size f) st else st)) as Hmax.
  destruct (dump_record r _) as [[] st2]; [|done]. cbn [snd] in Hmax.
  rewrite (IH _ _ Hrun), Hmax. cbn [map fold_left]. f_equal.
  destruct (N.ltb_spec (max_message_size st) (Frame.size f)); cbn; lia.
Qed.

(** With a valid header, the dump is the loop run from [loop_start]
    followed by the pass over the map. *)
Lemma DumpProtobufReport_loop f fp static_sample_count :
  header_ok f = true ->
  DumpProtobufReport f fp static_sample_count
  = match dump_records (coded_stream f) (loop_start fp static_sample_count) with
    | (false, st) => (false, st)
    | (true, st) => (check_symbol_ids (max_symbol_id_map st) (files st), st)
    end.
Proof.
  unfold header_ok, DumpProtobufReport.
  intros [Hmagic%String.eqb_eq Hversion]%andb_true_iff.
  rewrite header_ok_magic, Hmagic. cbn [String.eqb negb].
  rewrite String.eqb_refl. cbn [negb].
  destruct (read_uint16 _) as [version|]; [|done].
  apply N.eqb_eq in Hversion as ->. cbn [N.eqb Pos.eqb PROT_FILE_VERSION negb].
  replace (print 0 ("version: " +:+ fmt_u PROT_FILE_VERSION +:+ nl)
             (print 0 ("magic: " +:+ c_str PROT_FILE_MAGIC +:+ nl)
                (mkDumpState fp ∅ [] (64 * 2 ^ 20) static_sample_count)))
    with (loop_start fp static_sample_count); [done|].
  unfold loop_start, print, FprintIndented. cbn [report max_symbol_id_map files
    max_message_size sample_count]. f_equal.
  rewrite string_app_assoc. f_equal.
Qed.

Lemma DumpProtobufReport_header_ok f fp static_sample_count :
  (DumpProtobufReport f fp static_sample_count).1 = true -> header_ok f = true.
Proof.
  rewrite DumpProtobufReport_verdict. cbv zeta.
  by intros [[? _]%andb_true_iff _]%andb_true_iff.
Qed.

(** X3: the limit on the size of a message starts at 64 MiB and is only
    ever raised: after an accepted dump it is the larger of 64 MiB and the
    largest length read. *)
Theorem DumpProtobufReport_raises_the_message_limit f fp static_sample_count :
  (DumpProtobufReport f fp static_sample_count).1 = true ->
  max_message_size (DumpProtobufReport f fp static_sample_count).2
  = fold_left N.max (map Frame.size (frames_read (coded_stream f))) (64 * 2 ^ 20)%N
  /\ (64 * 2 ^ 20 <= max_message_size (DumpProtobufReport f fp static_sample_count).2)%N
  /\ Forall (fun fr => (Frame.size fr
                        <= max_message_size
                             (DumpProtobufReport f fp static_sample_count).2)%N)
       (frames_read (coded_stream f)).
Proof.
  intros Hok. pose proof (DumpProtobufReport_header_ok _ _ _ Hok) as Hheader.
  rewrite (DumpProtobufReport_loop _ _ _ Hheader) in *.
  destruct (dump_records _ _) as [[] st'] eqn:Hrun; [|done]. cbn [snd].
  rewrite (dump_records_max_message_size _ _ _ Hrun). cbn [loop_start max_message_size].
  clear. generalize (64 * 2 ^ 20)%N as limit.
  induction (frames_read (coded_stream f)) as [|fr frames IH]; intros limit.
  - cbn. repeat split; [lia|done].
  - cbn [map fold_left]. destruct (IH (N.max limit (Frame.size fr))) as (_ & Hle & Hall).
    repeat split; [lia|]. apply Forall_cons. split; [lia|done].
Qed.

Lemma DumpProtobufReport_raises_the_message_limit_witness :
  (DumpProtobufReport
     (mkReportFile Fixture.header
        [Frame.mk (100 * 2 ^ 20) (Some (Fixture.file_with 0 ["main"]));
         Fixture.end_of_stream])
     "" 0).1 = true
  /\ max_message_size
       (DumpProtobufReport
          (mkReportFile Fixture.header
             [Frame.mk (100 * 2 ^ 20) (Some (Fixture.file_with 0 ["main"]));
              Fixture.end_of_stream])
          "" 0).2
     = (100 * 2 ^ 20)%N.
Proof.
  split; [vm_compute; reflexivity|].
  apply (proj1 (DumpProtobufReport_raises_the_message_limit
                  (mkReportFile Fixture.header
                     [Frame.mk (100 * 2 ^ 20) (Some (Fixture.file_with 0 ["main"]));
                      Fixture.end_of_stream])
                  "" 0 ltac:(vm_compute; reflexivity))).
Defined.

Lemma uint64_spec (z : Z) : (0 <= z)%Z -> Z.of_N (uint64 z) = (z mod 2 ^ 64)%Z.
Proof. intros Hz. unfold uint64. apply Z2N.id, Z.mod_pos_bound. lia. Qed.

Lemma uint64_lt (z : Z) : (uint64 z < 2 ^ 64)%N.
Proof.
  unfold uint64. pose proof (Z.mod_pos_bound z (2 ^ 64) ltac:(lia)). lia.
Qed.

Lemma uint64_add_uint64 (a b : Z) :
  (0 <= a)%Z -> (0 <= b)%Z -> uint64 (Z.of_N (uint64 a) + b) = uint64 (a + b).
Proof.
  intros Ha Hb. rewrite uint64_spec by done. unfold uint64.
  by rewrite Zplus_mod_idemp_l.
Qed.

Lemma dump_records_sample_count stream : forall st st',
  dump_records stream st = (true, st') ->
  (sample_count st < 2 ^ 64)%N ->
  sample_count st'
  = uint64 (Z.of_N (sample_count st)
            + Z.of_nat (length (filter is_sample (records_read stream)))).
Proof.
  induction stream as [|f rest IH]; intros st st' Hrun Hrange.
  - done.
  - cbn [dump_records records_read] in *.
    destruct (Frame.size f =? 0)%N.
    { injection Hrun as <-. cbn. unfold uint64.
      rewrite Z.add_0_r, Z.mod_small by lia. lia. }
    destruct (Frame.parsed f) as [r|]; [|done].
    set (st1 := if (max_message_size st <? Frame.size f)%N
                then set_max_message_size (Frame.size f) st else st) in *.
    assert (sample_count st1 = sample_count st) as Hc1
      by (subst st1; by destruct (_ <? _)%N).
    pose proof (dump_record_spec r st1) as Hspec.
    destruct (dump_record r st1) as [[] st2]; [|done].
    destruct (Hspec eq_refl) as (_ & _ & _ & Hc2). cbn [snd] in Hc2.
    rewrite Hc1 in Hc2. rewrite (IH _ _ Hrun).
    + rewrite Hc2. destruct r; rewrite ?filter_cons; cbn [is_sample];
        try (rewrite decide_True by done); try (rewrite decide_False by done);
        cbn [length]; try done.
      rewrite uint64_add_uint64 by lia. f_equal. lia.
    + rewrite Hc2. destruct r; try done. apply uint64_lt.
Qed.

(** X4: a dump that is accepted leaves the static sample counter advanced
    by the number of sample records of the stream, modulo 2^64. *)
Theorem DumpProtobufReport_counts_samples f fp static_sample_count :
  (DumpProtobufReport f fp static_sample_count).1 = true ->
  (static_sample_count < 2 ^ 64)%N ->
  sample_count (DumpProtobufReport f fp static_sample_count).2
  = uint64 (Z.of_N static_sample_count
            + Z.of_nat (length (filter is_sample (records_read (coded_stream f))))).
Proof.
  intros Hok Hrange. pose proof (DumpProtobufReport_header_ok _ _ _ Hok) as Hheader.
  rewrite (DumpProtobufReport_loop _ _ _ Hheader) in *.
  destruct (dump_records _ _) as [[] st'] eqn:Hrun; [|done]. cbn [snd].
  by rewrite (dump_records_sample_count _ _ _ Hrun).
Qed.

Lemma DumpProtobufReport_counts_samples_witness :
  (DumpProtobufReport Fixture.two_file_report "" 41).1 = true
  /\ (41 < 2 ^ 64)%N
  /\ sample_count (DumpProtobufReport Fixture.two_file_report "" 41).2 = 42%N.
Proof.
  split; [vm_compute; reflexivity|]. split; [reflexivity|].
  apply (DumpProtobufReport_counts_samples Fixture.two_file_report "" 41).
  - vm_compute; reflexivity.
  - reflexivity.
Defined.

(** *** The report is only appended to *)

Lemma print_prepend before indent s st :
  print indent s (prepend before st) = prepend before (print indent s st).
Proof.
  unfold print, prepend, FprintIndented. cbn. f_equal. apply string_app_assoc.
Qed.

Lemma print_each_prepend before indent key l : forall st,
  print_each indent key l (prepend before st)
  = prepend before (print_each indent key l st).
Proof.
  unfold print_each. induction l as [|x l IH]; intros st; [done|].
  cbn [fold_left]. by rewrite print_prepend, IH.
Qed.

Lemma dump_callchain_prepend before cc : forall st,
  dump_callchain cc (prepend before st)
  = ((dump_callchain cc st).1, prepend before (dump_callchain cc st).2).
Proof.
  induction cc as [|e cc IH]; intros st; [done|].
  cbn [dump_callchain]. cbv zeta. rewrite !print_prepend.
  destruct (_ <? _)%Z; [done|].
  destruct (negb _); [|apply IH].
  match goal with |- dump_callchain cc ?s1 = (?r.1, _) =>
    replace s1 with (prepend before
      (set_max_symbol_id_map
         (record_symbol_id (proto.Sample_CallChainEntry.file_id e)
            (proto.Sample_CallChainEntry.symbol_id e)
            (max_symbol_id_map
               (print 2 ("symbol_id: " +:+
                  fmt_d (proto.Sample_CallChainEntry.symbol_id e) +:+ nl)
                  (print 2 ("file_id: " +:+
                     fmt_u (proto.Sample_CallChainEntry.file_id e) +:+ nl)
                     (print 2 ("vaddr_in_file: " +:+
                        fmt_x (proto.Sample_CallChainEntry.vaddr_in_file e) +:+ nl)
                        st)))))
         (print 2 ("symbol_id: " +:+
            fmt_d (proto.Sample_CallChainEntry.symbol_id e) +:+ nl)
            (print 2 ("file_id: " +:+
               fmt_u (proto.Sample_CallChainEntry.file_id e) +:+ nl)
               (print 2 ("vaddr_in_file: " +:+
                  fmt_x (proto.Sample_CallChainEntry.vaddr_in_file e) +:+ nl)
                  st))))) by done
  end.
  apply IH.
Qed.

Lemma dump_record_prepend before r st :
  dump_record r (prepend before st)
  = ((dump_record r st).1, prepend before (dump_record r st).2).
Proof.
  destruct r as [s|l|f|t|mi|]; cbn [dump_record]; cbv zeta.
  - change (set_sample_count (uint64 (Z.of_N (sample_count (prepend before st)) + 1))
              (prepend before st))
      with (prepend before (set_sample_count (uint64 (Z.of_N (sample_count st) + 1)) st)).
    rewrite !print_prepend. apply dump_callchain_prepend.
  - by rewrite !print_prepend.
  - rewrite !print_prepend, !print_each_prepend.
    change (files (prepend before ?s0)) with (files s0).
    by destruct (negb _).
  - by rewrite !print_prepend.
  - rewrite !print_prepend, !print_each_prepend.
    destruct (proto.MetaInfo.app_package_name mi); [|done]. by rewrite print_prepend.
  - done.
Qed.

Lemma dump_records_prepend before stream : forall st,
  dump_records stream (prepend before st)
  = ((dump_records stream st).1, prepend before (dump_records stream st).2).
Proof.
  induction stream as [|f rest IH]; intros st; [done|].
  cbn [dump_records]. destruct (Frame.size f =? 0)%N; [done|].
  change (max_message_size (prepend before st)) with (max_message_size st).
  destruct (max_message_size st <? Frame.size f)%N.
  - change (set_max_message_size (Frame.size f) (prepend before st))
      with (prepend before (set_max_message_size (Frame.size f) st)).
    destruct (Frame.parsed f) as [r|]; [|done].
    rewrite dump_record_prepend.
    destruct (dump_record r _) as [[] st2]; [apply IH|done].
  - destruct (Frame.parsed f) as [r|]; [|done].
    rewrite dump_record_prepend.
    destruct (dump_record r _) as [[] st2]; [apply IH|done].
Qed.

(** X5: the dump only appends to the report.  What it returns and what it
    appends do not depend on the text the report already holds: dumping
    after [before +:+ fp] gives the verdict and the state of the dump
    after [fp], with [before] in front of the report. *)
Theorem DumpProtobufReport_appends_to_the_report f before fp static_sample_count :
  DumpProtobufReport f (before +:+ fp) static_sample_count
  = ((DumpProtobufReport f fp static_sample_count).1,
     prepend before (DumpProtobufReport f fp static_sample_count).2).
Proof.
  unfold DumpProtobufReport.
  change (mkDumpState (before +:+ fp) ∅ [] (64 * 2 ^ 20) static_sample_count)
    with (prepend before (mkDumpState fp ∅ [] (64 * 2 ^ 20) static_sample_count)).
  destruct (negb _); [done|]. rewrite print_prepend.
  destruct (read_uint16 _) as [version|]; [|done].
  destruct (negb _); [done|]. rewrite print_prepend, dump_records_prepend.
  by destruct (dump_records _ _) as [[] st'].
Qed.

(** * More of the resolver *)

Lemma resolve_collapse_frames {ThreadTree : Type} `{Collaborators ThreadTree}
    (c : ReportSampleCommand ThreadTree) thread k ips :
  resolve c thread k ips
  = collapse_frames (show_art_frames_ c) (resolved_frames c thread k 0 ips).
Proof. apply resolve_frames. Qed.

Lemma resolved_frames_length {ThreadTree : Type} `{Collaborators ThreadTree}
    (c : ReportSampleCommand ThreadTree) thread k ips : forall i,
  (length (resolved_frames c thread k i ips) <= length ips)%nat.
Proof.
  induction ips as [|ip ips IH]; intros i; cbn [resolved_frames length]; [lia|].
  destruct (GetCallEntry _ _ _ _ _); cbn [length]; [|lia]. specialize (IH (S i)). lia.
Qed.

Lemma pop_interpreter_entries_split entries :
  exists popped,
    entries = pop_interpreter_entries entries ++ popped
    /\ Forall (fun e => is_entry_for_interpreter e = true) popped.
Proof.
  induction entries as [|entry entries IH] using rev_ind.
  - by exists [].
  - rewrite pop_interpreter_entries_snoc.
    destruct (is_entry_for_interpreter entry) eqn:Hentry.
    + destruct IH as (popped & Hsplit & Hall). exists (popped ++ [entry]). split.
      * rewrite app_assoc. by rewrite <- Hsplit.
      * apply Forall_app. split; [done|]. by apply Forall_singleton.
    + exists []. by rewrite app_nil_r.
Qed.

Lemma pop_interpreter_entries_last entries entry :
  last (pop_interpreter_entries entries) = Some entry ->
  is_entry_for_interpreter entry = false.
Proof.
  induction entries as [|e entries IH] using rev_ind; [done|].
  rewrite pop_interpreter_entries_snoc.
  destruct (is_entry_for_interpreter e) eqn:He; [done|].
  rewrite last_snoc. by intros [= <-].
Qed.

Lemma pop_interpreter_entries_id entries :
  (forall entry, last entries = Some entry -> is_entry_for_interpreter entry = false) ->
  pop_interpreter_entries entries = entries.
Proof.
  destruct entries as [|e entries _] using rev_ind; [done|].
  intros Hlast. rewrite pop_interpreter_entries_snoc, (Hlast e); [done|].
  by rewrite last_snoc.
Qed.

Lemma filter_kept_interpreters popped :
  Forall (fun e => is_entry_for_interpreter e = true) popped ->
  filter kept popped = [].
Proof.
  induction 1 as [|e popped He _ IH]; [done|].
  rewrite filter_cons, decide_False; [done|]. unfold kept. congruence.
Qed.

Lemma add_entry_keeps show_art_frames entries near entry :
  let entries' := (add_entry show_art_frames entries near entry).1 in
  entries' `sublist_of` entries ++ [entry]
  /\ filter kept entries' = filter kept (entries ++ [entry]).
Proof.
  cbv zeta. unfold add_entry.
  destruct show_art_frames; cbn [negb fst]; [done|].
  destruct (DsoType_eqb _ _).
  - cbn [fst]. destruct (pop_interpreter_entries_split entries) as (popped & Hsplit & Hall).
    split.
    + apply sublist_app; [|done]. rewrite Hsplit at 2. by apply sublist_inserts_r.
    + rewrite Hsplit at 2. rewrite !filter_app, (filter_kept_interpreters popped Hall).
      by rewrite app_nil_r.
  - destruct (is_entry_for_interpreter entry) eqn:Hentry; [|done].
    destruct near; [|done]. cbn [fst]. split.
    + by apply sublist_inserts_r.
    + rewrite filter_app, filter_cons, decide_False, app_nil_r; [done|].
      unfold kept. congruence.
Qed.

Lemma fold_add_entry_keeps show_art_frames frames : forall entries near,
  let entries' :=
    (fold_left (fun state entry => add_entry show_art_frames state.1 state.2 entry)
       frames (entries, near)).1 in
  entries' `sublist_of` entries ++ frames
  /\ filter kept entries' = filter kept (entries ++ frames).
Proof.
  induction frames as [|e frames IH]; intros entries near; cbv zeta.
  - cbn. by rewrite app_nil_r.
  - cbn [fold_left fst snd].
    destruct (add_entry_keeps show_art_frames entries near e) as [Hsub Hfilter].
    destruct (add_entry show_art_frames entries near e) as [entries1 near1].
    cbn [fst] in *. destruct (IH entries1 near1) as [Hsub' Hfilter']. split.
    + etrans; [exact Hsub'|]. rewrite (cons_middle e entries frames), app_assoc.
      by apply sublist_app.
    + rewrite Hfilter', (cons_middle e entries frames), app_assoc, !filter_app.
      by rewrite Hfilter, filter_app.
Qed.

Lemma resolve_length {ThreadTree : Type} `{Collaborators ThreadTree}
    (c : ReportSampleCommand ThreadTree) thread k ips :
  (length (resolve c thread k ips) <= length ips)%nat.
Proof.
  rewrite resolve_frames.
  destruct (fold_add_entry_keeps (show_art_frames_ c)
              (resolved_frames c thread k 0 ips) [] false) as [Hsub _].
  cbn [app] in Hsub. etrans; [by apply sublist_length|]. apply resolved_frames_length.
Qed.

(** X6: the entries of a sample are frames that [GetCallEntry] gave, in
    the order of the call chain and at most one per pointer, and no frame
    outside libart.so is ever left out: the entries and the resolved
    frames are the same once the frames of libart.so are put aside. *)
Theorem resolve_only_drops_interpreter_frames
    {ThreadTree : Type} `{Collaborators ThreadTree}
    (c : ReportSampleCommand ThreadTree) (thread : ThreadEntry)
    (kernel_ip_count : nat) (ips : list N) :
  let frames := resolved_frames c thread kernel_ip_count 0 ips in
  let entries := resolve c thread kernel_ip_count ips in
  entries `sublist_of` frames
  /\ filter (fun e => is_entry_for_interpreter e = false) entries
     = filter (fun e => is_entry_for_interpreter e = false) frames
  /\ (length entries <= length ips)%nat.
Proof.
  cbv zeta. rewrite resolve_frames.
  destruct (fold_add_entry_keeps (show_art_frames_ c)
              (resolved_frames c thread kernel_ip_count 0 ips) [] false) as [Hsub Hfilter].
  cbn [app] in *. repeat split; [done|exact Hfilter|].
  etrans; [by apply sublist_length|]. apply resolved_frames_length.
Qed.

Lemma no_interpreter_beside_java_snoc entries entry :
  no_interpreter_beside_java (entries ++ [entry])
  = no_interpreter_beside_java entries
    && match last entries with
       | Some a => negb (interpreter_beside_java a entry)
       | None => true
       end.
Proof.
  induction entries as [|a [|b entries] IH]; [done| |].
  - cbn. by rewrite !andb_true_r.
  - change (no_interpreter_beside_java ((a :: b :: entries) ++ [entry]))
      with (negb (interpreter_beside_java a b)
            && no_interpreter_beside_java ((b :: entries) ++ [entry])).
    rewrite IH. change (last (a :: b :: entries)) with (last (b :: entries)).
    cbn [no_interpreter_beside_java]. by rewrite andb_assoc.
Qed.

Lemma no_interpreter_beside_java_app_l front back :
  no_interpreter_beside_java (front ++ back) = true ->
  no_interpreter_beside_java front = true.
Proof.
  induction back as [|e back IH] using rev_ind; [by rewrite app_nil_r|].
  rewrite app_assoc, no_interpreter_beside_java_snoc.
  intros [? _]%andb_true_iff. by apply IH.
Qed.

Lemma ends_with_java_snoc entries entry :
  ends_with_java (entries ++ [entry]) = is_java entry.
Proof. unfold ends_with_java. by rewrite last_snoc. Qed.

(** What the loop keeps true of [entries] and [near_java_method]. *)
Lemma add_entry_collapsed entries near entry :
  no_interpreter_beside_java entries = true ->
  near = ends_with_java entries ->
  let state := add_entry false entries near entry in
  no_interpreter_beside_java state.1 = true /\ state.2 = ends_with_java state.1.
Proof.
  intros Hok ->. cbv zeta. unfold add_entry. cbn [negb].
  fold (is_java entry). destruct (is_java entry) eqn:Hjava; cbn [fst snd].
  - rewrite no_interpreter_beside_java_snoc, ends_with_java_snoc, Hjava.
    split; [|done]. apply andb_true_iff. split.
    + destruct (pop_interpreter_entries_split entries) as (popped & Hsplit & _).
      rewrite Hsplit in Hok. by eapply no_interpreter_beside_java_app_l.
    + destruct (last (pop_interpreter_entries entries)) as [a|] eqn:Hlast; [|done].
      apply pop_interpreter_entries_last in Hlast. unfold interpreter_beside_java.
      by rewrite Hlast, Hjava, andb_false_r.
  - destruct (is_entry_for_interpreter entry) eqn:Hentry.
    + destruct (ends_with_java entries) eqn:Hends; cbn [fst snd]; [done|].
      rewrite no_interpreter_beside_java_snoc, ends_with_java_snoc, Hok, Hjava.
      split; [|done]. unfold ends_with_java in Hends.
      destruct (last entries) as [a|]; [|done].
      unfold interpreter_beside_java. by rewrite Hends, Hjava, andb_false_r.
    + cbn [fst snd].
      rewrite no_interpreter_beside_java_snoc, ends_with_java_snoc, Hok, Hjava.
      split; [|done]. destruct (last entries) as [a|]; [|done].
      unfold interpreter_beside_java. by rewrite Hjava, Hentry, !andb_false_r.
Qed.

Lemma fold_add_entry_collapsed frames : forall entries near,
  no_interpreter_beside_java entries = true ->
  near = ends_with_java entries ->
  let state :=
    fold_left (fun state entry => add_entry false state.1 state.2 entry)
      frames (entries, near) in
  no_interpreter_beside_java state.1 = true /\ state.2 = ends_with_java state.1.
Proof.
  induction frames as [|e frames IH]; intros entries near Hok Hnear; [done|].
  cbn [fold_left fst snd].
  destruct (add_entry_collapsed entries near e Hok Hnear) as [Hok1 Hnear1].
  destruct (add_entry false entries near e) as [entries1 near1]. by apply IH.
Qed.



Lemma collapse_frames_fixed entries :
  no_interpreter_beside_java entries = true ->
  fold_left (fun state entry => add_entry false state.1 state.2 entry)
    entries ([], false)
  = (entries, ends_with_java entries).
Proof.
  induction entries as [|e entries IH] using rev_ind; [done|].
  rewrite no_interpreter_beside_java_snoc. intros [Hok Hlast]%andb_true_iff.
  rewrite fold_left_app, (IH Hok). cbn [fold_left fst snd].
  rewrite ends_with_java_snoc. unfold add_entry. cbn [negb].
  fold (is_java e). unfold ends_with_java.
  destruct (is_java e) eqn:Hjava.
  - rewrite pop_interpreter_entries_id; [done|].
    intros a Ha. rewrite Ha in Hlast. unfold interpreter_beside_java in Hlast.
    rewrite Hjava, andb_true_r in Hlast.
    by destruct (is_entry_for_interpreter a); [rewrite orb_true_r in Hlast|].
  - destruct (is_entry_for_interpreter e) eqn:Hentry; [|done].
    destruct (last entries) as [a|]; [|done].
    unfold interpreter_beside_java in Hlast. rewrite Hjava, Hentry in Hlast.
    by destruct (is_java a).
Qed.

(** X8: the loop changes nothing in a list of entries that it produced:
    collapsing is idempotent, with --show-art-frames on or off. *)
Theorem collapse_frames_idempotent (show_art_frames : bool) (frames : list CallEntry) :
  collapse_frames show_art_frames (collapse_frames show_art_frames frames)
  = collapse_frames show_art_frames frames.
Proof.
  unfold collapse_frames. destruct show_art_frames.
  - by rewrite !fold_add_entry_all.
  - destruct (fold_add_entry_collapsed frames [] false eq_refl eq_refl) as [Hok _].
    by rewrite (collapse_frames_fixed _ Hok).
Qed.

(** * More of the run *)

Section RunFacts.

Context {ThreadTree : Type} `{Collaborators ThreadTree} `{RunCollaborators ThreadTree}.

Implicit Types (c : ReportSampleCommand ThreadTree) (entries : list CallEntry).

Lemma text_only_refl c : text_only c c.
Proof. by repeat split. Qed.

Lemma text_only_trans c1 c2 c3 : text_only c1 c2 -> text_only c2 c3 -> text_only c1 c3.
Proof.
  intros (? & ? & ? & ? & ?) (? & ? & ? & ? & ?). repeat split; congruence.
Qed.

Lemma fprint_text_only indent s c : text_only c (fprint indent s c).
Proof. by repeat split. Qed.

Lemma print_entry_text_only indent entry c : text_only c (print_entry indent entry c).
Proof. by repeat split. Qed.

Lemma print_entries_text_only others : forall c,
  text_only c (fold_left (fun c e => print_entry 2 e c) others c).
Proof.
  induction others as [|e others IH]; intros c; [apply text_only_refl|].
  cbn [fold_left]. eapply text_only_trans; [apply (print_entry_text_only 2 e)|apply IH].
Qed.

Lemma print_sample_head_text_only r c : text_only c (print_sample_head r c).
Proof.
  unfold print_sample_head. cbv zeta.
  by destruct (FindThreadOrNew _ _ _) as [tree thread].
Qed.

Lemma PrintSampleRecord_text_only r entries c :
  text_only c (PrintSampleRecord r entries c).2.
Proof.
  unfold PrintSampleRecord. cbv zeta.
  destruct entries as [|first others]; cbn [snd]; [apply print_sample_head_text_only|].
  eapply text_only_trans; [apply print_sample_head_text_only|].
  eapply text_only_trans; [apply (print_entry_text_only 1 first)|].
  unfold print_callchain. destruct others as [|second others]; [apply text_only_refl|].
  eapply text_only_trans; [apply (fprint_text_only 1)|apply print_entries_text_only].
Qed.

Lemma add_callchain_length unknown_symbol entries : forall rt,
  entries <> [] ->
  (1 <= length (add_callchain unknown_symbol rt entries).2 <= length entries)%nat.
Proof.
  induction entries as [|node entries IH]; intros rt Hne; [done|].
  cbn [add_callchain length]. destruct (add_node _ _ _) as [rt1 callchain].
  destruct (is_call_chain_end node); [cbn; lia|].
  destruct entries as [|next entries]; [cbn; lia|].
  specialize (IH rt1 ltac:(done)).
  destruct (add_callchain unknown_symbol rt1 (next :: entries)) as [rt2 more].
  cbn [snd length] in *. lia.
Qed.

Lemma PrintSampleRecordInProtobuf_writes r entries c :
  let added := add_callchain (UnknownSymbol (thread_tree_ c)) (dump_ids c) entries in
  let record :=
    proto.sample
      (proto.Sample.mk (time_data_time r) (period_data_period r)
         (int32 (tid_data_tid r)) added.2
         (uint32 (Z.of_nat (GetAttrIndexOfRecord r)))) in
  PrintSampleRecordInProtobuf r entries c
  = (SerializeToCodedStream record,
     set_coded_os_
       (coded_os_ c
        ++ [Frame.mk (ByteSize record)
              (if SerializeToCodedStream record then Some record else None)])
       (set_dump_ids added.1 c)).
Proof.
  cbv zeta. unfold PrintSampleRecordInProtobuf, WriteRecordInProtobuf.
  destruct (add_callchain _ _ _) as [rt callchain]. cbn [fst snd].
  by destruct (SerializeToCodedStream _).
Qed.

(** X9: in protobuf mode a sample that is reported puts exactly one frame
    on the coded stream and nothing in the text report, and the function
    returns what the serialisation returns.  The frame holds the time, the
    period and the thread id of the sample and a callchain of at least one
    entry and at most one per pointer; without --show-callchain it has
    exactly one entry. *)
Theorem process_chain_writes_one_sample c r ips kernel_ip_count :
  use_protobuf_ c = true ->
  ips <> [] ->
  exists callchain,
    let record :=
      proto.sample
        (proto.Sample.mk (time_data_time r) (period_data_period r)
           (int32 (tid_data_tid r)) callchain
           (uint32 (Z.of_nat (GetAttrIndexOfRecord r)))) in
    let res := process_chain r ips kernel_ip_count c in
    res.1 = Returned (SerializeToCodedStream record)
    /\ coded_os_ res.2
       = coded_os_ c
         ++ [Frame.mk (ByteSize record)
               (if SerializeToCodedStream record then Some record else None)]
    /\ report_fp_ res.2 = report_fp_ c
    /\ (1 <= length callchain <= length ips)%nat
    /\ (show_callchain_ c = false -> length callchain = 1%nat).
Proof.
  intros Hproto Hne. unfold process_chain.
  set (chain := if negb (show_callchain_ c)
                then (take 1 ips, Nat.min kernel_ip_count 1)
                else (ips, kernel_ip_count)).
  assert (chain.1 <> [] /\ (length chain.1 <= length ips)%nat
          /\ (show_callchain_ c = false -> length chain.1 = 1%nat)) as (Hne' & Hlen & Hone).
  { subst chain. destruct (show_callchain_ c); cbn [negb fst].
    - repeat split; [done|lia|done].
    - destruct ips as [|ip ips]; [done|]. cbn [take length].
      rewrite take_0. cbn [length]. repeat split; [done|lia]. }
  destruct chain as [ips' k']. cbn [fst] in *.
  cbn [thread_tree_ set_sample_count_].
  destruct (FindThreadOrNew _ _ _) as [tree thread].
  cbn [use_protobuf_ set_thread_tree_ set_sample_count_]. rewrite Hproto.
  rewrite PrintSampleRecordInProtobuf_writes. cbv zeta.
  set (c2 := set_thread_tree_ tree _).
  set (entries := resolve c2 thread k' ips').
  assert (entries <> []) as Hentries by (by apply resolve_nonempty).
  pose proof (add_callchain_length (UnknownSymbol (thread_tree_ c2)) entries
                (dump_ids c2) Hentries) as Hcc.
  pose proof (resolve_length c2 thread k' ips') as Hle. fold entries in Hle.
  exists (add_callchain (UnknownSymbol (thread_tree_ c2)) (dump_ids c2) entries).2.
  cbn [fst snd]. repeat split; try done; try lia.
  intros Hshow. specialize (Hone Hshow). lia.
Qed.

Lemma remove_kernel_ips_options c c' chain :
  options c' = options c -> remove_kernel_ips c' chain = remove_kernel_ips c chain.
Proof.
  unfold options, remove_kernel_ips. intros [= _ _ _ -> -> _]. done.
Qed.

Lemma reported_options c c' record :
  options c' = options c -> reported c' record = reported c record.
Proof.
  intros Hoptions. destruct record as [r| |]; [|done..]. cbn [reported].
  by rewrite (remove_kernel_ips_options _ _ _ Hoptions).
Qed.

(** What [process_chain] does to the members, in either mode. *)
Lemma process_chain_effect r ips k c :
  let res := process_chain r ips k c in
  options res.2 = options c
  /\ lost_count_ res.2 = lost_count_ c
  /\ sample_count_ res.2 = uint64 (Z.of_N (sample_count_ c) + 1)
  /\ (use_protobuf_ c = false ->
      coded_os_ res.2 = coded_os_ c /\ dump_ids res.2 = dump_ids c)
  /\ (use_protobuf_ c = true ->
      report_fp_ res.2 = report_fp_ c
      /\ exists f s, coded_os_ res.2 = coded_os_ c ++ [f]
                     /\ (res.1 = Returned true -> Frame.parsed f = Some (proto.sample s))
                     /\ Frame.size f = ByteSize (proto.sample s)).
Proof.
  cbv zeta. split; [|split; [|split; [apply process_chain_sample_count|]]].
  all: unfold process_chain.
  all: destruct (if negb (show_callchain_ c) then _ else _) as [ips' k'].
  all: cbn [thread_tree_ set_sample_count_].
  all: destruct (FindThreadOrNew _ _ _) as [tree thread].
  all: cbn [use_protobuf_ set_thread_tree_ set_sample_count_].
  all: destruct (use_protobuf_ c) eqn:Hmode.
  all: rewrite ?PrintSampleRecordInProtobuf_writes; cbv zeta; cbn [fst snd]; try done.
  - match goal with |- context [PrintSampleRecord ?r0 ?e ?c0] =>
      destruct (PrintSampleRecord_text_only r0 e c0) as (_ & _ & _ & _ & ->) end. done.
  - match goal with |- context [PrintSampleRecord ?r0 ?e ?c0] =>
      destruct (PrintSampleRecord_text_only r0 e c0) as (_ & _ & _ & -> & _) end. done.
  - split; [done|]. intros _. split; [done|].
    eexists _, _. split; [done|]. split; [|done].
    intros [= Hser].
    cbn [Frame.parsed thread_tree_ dump_ids set_thread_tree_ set_sample_count_].
    by rewrite Hser.
  - split; [|done]. intros _.
    match goal with |- context [PrintSampleRecord ?r0 ?e ?c0] =>
      destruct (PrintSampleRecord_text_only r0 e c0) as (-> & -> & _) end. done.
Qed.

Lemma ProcessSampleRecord_not_reported r c :
  reported c (PERF_RECORD_SAMPLE r) = false -> ProcessSampleRecord r c = (Returned true, c).
Proof.
  unfold ProcessSampleRecord. cbn [reported].
  destruct (remove_kernel_ips c (GetCallChain r)) as [[|ip ips] k]; done.
Qed.

Lemma ProcessSampleRecord_reported r c :
  reported c (PERF_RECORD_SAMPLE r) = true ->
  exists ips k, ips <> [] /\ ProcessSampleRecord r c = process_chain r ips k c.
Proof.
  unfold ProcessSampleRecord. cbn [reported].
  destruct (remove_kernel_ips c (GetCallChain r)) as [[|ip ips] k]; [done|].
  intros _. by exists (ip :: ips), k.
Qed.

(** What [ProcessRecord] does to the members, in either mode. *)
Lemma ProcessRecord_effect record c :
  let res := ProcessRecord record c in
  options res.2 = options c
  /\ lost_count_ res.2 = uint64_if (is_lost record) (lost_count_ c) (lost_of record)
  /\ sample_count_ res.2 = uint64_if (reported c record) (sample_count_ c) 1
  /\ (use_protobuf_ c = false ->
      res.1 = Returned true
      /\ coded_os_ res.2 = coded_os_ c /\ dump_ids res.2 = dump_ids c)
  /\ (use_protobuf_ c = true ->
      report_fp_ res.2 = report_fp_ c
      /\ exists frames,
           coded_os_ res.2 = coded_os_ c ++ frames
           /\ length frames = (if reported c record then 1 else 0)%nat
           /\ (res.1 = Returned true ->
               Forall (fun f => exists s, Frame.parsed f = Some (proto.sample s)
                                          /\ Frame.size f = ByteSize (proto.sample s))
                 frames)).
Proof.
  cbv zeta. unfold ProcessRecord.
  set (c1 := set_thread_tree_ (Update (thread_tree_ c) record) c).
  assert (options c1 = options c) as Hoptions by done.
  destruct record as [r|lost|]; cbn [lost_of is_lost uint64_if].
  - rewrite <- (reported_options c c1 _ Hoptions).
    destruct (reported c1 (PERF_RECORD_SAMPLE r)) eqn:Hreported.
    + destruct (ProcessSampleRecord_reported r c1 Hreported) as (ips & k & Hne & ->).
      destruct (process_chain_effect r ips k c1) as (Ho & Hl & Hs & Htext & Hproto).
      rewrite Ho, Hl, Hs. split; [done|]. split; [done|]. split; [done|]. split.
      * intros Hmode. destruct (Htext Hmode) as [-> ->]. split; [|done].
        pose proof (process_chain_no_check r ips k c1 Hne) as Hcheck.
        revert Hcheck. unfold process_chain.
        destruct (if negb (show_callchain_ c1) then _ else _) as [ips' k'] eqn:Hchain.
        cbn [thread_tree_ set_sample_count_].
        destruct (FindThreadOrNew _ _ _) as [tree thread].
        cbn [use_protobuf_ set_thread_tree_ set_sample_count_].
        change (use_protobuf_ c1) with (use_protobuf_ c). rewrite Hmode. intros _.
        apply PrintSampleRecord_outcome, resolve_nonempty.
        destruct (show_callchain_ c1); cbn [negb] in Hchain; injection Hchain as <- <-;
          [done|by destruct ips].
      * intros Hmode. destruct (Hproto Hmode) as (-> & f & s & -> & Hparsed & Hsize).
        split; [done|].
        exists [f]. split; [done|]. split; [done|].
        intros Hok. apply Forall_singleton. eauto.
    + rewrite (ProcessSampleRecord_not_reported r c1 Hreported). cbn [fst snd].
      split; [done|]. split; [done|]. split; [done|]. split; [done|].
      intros _. split; [done|]. exists []. by rewrite app_nil_r.
  - cbn [fst snd]. split; [done|]. split; [done|]. split; [done|]. split; [done|].
    intros _. split; [done|]. exists []. by rewrite app_nil_r.
  - cbn [fst snd]. split; [done|]. split; [done|]. split; [done|]. split; [done|].
    intros _. split; [done|]. exists []. by rewrite app_nil_r.
Qed.

Lemma uint64_if_lt added counter amount :
  (counter < 2 ^ 64)%N -> (uint64_if added counter amount < 2 ^ 64)%N.
Proof. intros Hlt. destruct added; [apply uint64_lt|done]. Qed.

Lemma uint64_small (n : N) : (n < 2 ^ 64)%N -> uint64 (Z.of_N n) = n.
Proof.
  intros Hlt. unfold uint64. rewrite Z.mod_small by lia. apply N2Z.id.
Qed.

Lemma uint64_if_add added counter amount (rest : Z) :
  (counter < 2 ^ 64)%N -> (0 <= rest)%Z ->
  uint64 (Z.of_N (uint64_if added counter amount) + rest)
  = uint64 (Z.of_N counter + ((if added then Z.of_N amount else 0) + rest)).
Proof.
  intros Hlt Hrest. destruct added; cbn [uint64_if].
  - rewrite uint64_add_uint64 by lia. f_equal. lia.
  - done.
Qed.

Lemma ReadDataSection_counters records : forall c,
  let res := ReadDataSection records ProcessRecord c in
  res.1 = Returned true ->
  (sample_count_ c < 2 ^ 64)%N ->
  (lost_count_ c < 2 ^ 64)%N ->
  sample_count_ res.2
  = uint64 (Z.of_N (sample_count_ c)
            + Z.of_nat (length (List.filter (reported c) records)))
  /\ lost_count_ res.2
     = uint64 (Z.of_N (lost_count_ c) + Z.of_N (lost_total records)).
Proof.
  induction records as [|record rest IH]; intros c; cbv zeta.
  - intros _ Hs Hl. cbn. by rewrite !Z.add_0_r, !uint64_small.
  - cbn [ReadDataSection].
    destruct (ProcessRecord_effect record c) as (Ho & Hl1 & Hs1 & _).
    destruct (ProcessRecord record c) as [[[]|] c1]; cbn [fst snd] in *; try done.
    intros Hok Hs Hl. destruct (IH c1 Hok) as [Hs2 Hl2].
    { rewrite Hs1. by apply uint64_if_lt. }
    { rewrite Hl1. by apply uint64_if_lt. }
    rewrite Hs2, Hl2, Hs1, Hl1.
    rewrite (List.filter_ext _ _ (fun r => reported_options c c1 r Ho)).
    rewrite !uint64_if_add by lia. split; f_equal.
    + cbn [List.filter]. destruct (reported c record); cbn [length]; lia.
    + unfold lost_total. cbn [map fold_right]. fold (lost_total rest).
      destruct record; cbn [is_lost lost_of]; lia.
Qed.

Lemma PrintMetaInfo_text meta_info_ trace_offcpu_ c :
  use_protobuf_ c = false ->
  (PrintMetaInfo meta_info_ trace_offcpu_ c).1 = true
  /\ text_only c (PrintMetaInfo meta_info_ trace_offcpu_ c).2.
Proof.
  intros Hmode. unfold PrintMetaInfo. rewrite Hmode. cbv zeta. cbn [fst snd].
  split; [done|].
  assert (forall types c0,
            text_only c0
              (fold_left (fun c1 t => fprint 1 ("event_type: " +:+ c_str t +:+ nl) c1)
                 types c0)) as Hfold.
  { induction types as [|t types IH]; intros c0; [apply text_only_refl|].
    cbn [fold_left]. eapply text_only_trans; [apply (fprint_text_only 1)|apply IH]. }
  eapply text_only_trans; [|destruct (String.eqb _ "");
                             [apply text_only_refl|apply (fprint_text_only 1)]].
  eapply text_only_trans; [|apply Hfold]. by repeat split.
Qed.

Lemma ReadDataSection_text records : forall c,
  use_protobuf_ c = false ->
  let res := ReadDataSection records ProcessRecord c in
  res.1 = Returned true
  /\ coded_os_ res.2 = coded_os_ c /\ dump_ids res.2 = dump_ids c
  /\ options res.2 = options c.
Proof.
  induction records as [|record rest IH]; intros c Hmode; cbv zeta; [done|].
  cbn [ReadDataSection].
  destruct (ProcessRecord_effect record c) as (Ho & _ & _ & Htext & _).
  destruct (Htext Hmode) as (Hok & Hos & Hids).
  destruct (ProcessRecord record c) as [o c1]; cbn [fst snd] in *. subst o.
  destruct (IH c1) as (-> & -> & -> & ->); [|done].
  injection Ho as _ Hmode1 _. congruence.
Qed.

(** X11: in text mode the run always returns true, whatever the records
    are; it writes nothing to the coded stream and allocates no dump
    id. *)
Theorem Run_report_text_mode meta_info_ trace_offcpu_ records c :
  use_protobuf_ c = false ->
  let res := Run_report meta_info_ trace_offcpu_ records c in
  res.1 = Returned true
  /\ coded_os_ res.2 = coded_os_ c
  /\ dump_ids res.2 = dump_ids c.
Proof.
  intros Hmode. cbv zeta. unfold Run_report. rewrite Hmode.
  destruct (PrintMetaInfo_text meta_info_ trace_offcpu_ c Hmode)
    as (Hok & Hos & Hids & _ & _ & Ho).
  destruct (PrintMetaInfo meta_info_ trace_offcpu_ c) as [ok c1]. cbn [fst snd] in *.
  subst ok. assert (use_protobuf_ c1 = false) as Hmode1.
  { injection Ho as _ Hmode1 _. congruence. }
  destruct (ReadDataSection_text records c1 Hmode1) as (Hok2 & Hos2 & Hids2 & Ho2).
  destruct (ReadDataSection records ProcessRecord c1) as [o c2]. cbn [fst snd] in *.
  subst o. assert (use_protobuf_ c2 = false) as ->.
  { injection Ho2 as _ Hmode2 _. congruence. }
  cbn [fst snd PrintLostSituation fprint set_report_fp_ coded_os_ dump_ids].
  split; [done|]. split; congruence.
Qed.

End RunFacts.

(** * The dump ids *)

Lemma uint32_succ (n : N) : (n + 1 < 2 ^ 32)%N -> uint32 (Z.of_N n + 1) = (n + 1)%N.
Proof. intros Hlt. unfold uint32. rewrite Z.mod_small by lia. lia. Qed.

Lemma int32_small (n : N) : (n < 2 ^ 31)%N -> int32 n = Z.of_N n.
Proof. intros Hlt. unfold int32. rewrite Z.mod_small by lia. lia. Qed.

Lemma extends_refl rt : extends rt rt.
Proof. by repeat split. Qed.

Lemma extends_trans rt1 rt2 rt3 : extends rt1 rt2 -> extends rt2 rt3 -> extends rt1 rt3.
Proof.
  intros (Hf1 & Hs1 & Hn1) (Hf2 & Hs2 & Hn2). repeat split; [eauto..|].
  intros p. specialize (Hn1 p). specialize (Hn2 p). lia.
Qed.

Lemma refers_to_extends rt rt' e : extends rt rt' -> refers_to rt e -> refers_to rt' e.
Proof.
  intros (Hf & _ & Hn) (p & Hfile & Hsym). exists p. split; [eauto|].
  destruct Hsym as [?|?]; [by left|right]. specialize (Hn p). lia.
Qed.

(** [GetDumpId] or else [CreateDumpId]. *)
Lemma file_id_step rt d :
  dense_ids rt -> (next_file_id rt + 1 < 2 ^ 32)%N ->
  let res := match Dso_GetDumpId rt d with
             | Some file_id => (rt, file_id)
             | None => Dso_CreateDumpId rt d
             end in
  dense_ids res.1 /\ extends rt res.1
  /\ file_ids res.1 !! Path d = Some res.2
  /\ (next_file_id res.1 <= next_file_id rt + 1)%N
  /\ next_symbol_id res.1 = next_symbol_id rt.
Proof.
  intros Hdense Hbound. cbv zeta. unfold Dso_GetDumpId.
  destruct (file_ids rt !! Path d) as [file_id|] eqn:Hlook; cbn [fst snd].
  { split; [done|]. split; [apply extends_refl|]. split; [done|]. split; [lia|done]. }
  destruct Hdense as [Hlt Hall Hinj Hsfile Hslt Hsall Hsinj].
  unfold Dso_CreateDumpId. cbn [fst snd next_file_id next_symbol_id].
  rewrite uint32_succ by lia. split; [|split; [|split; [|split; [lia|done]]]].
  - split; cbn [next_file_id file_ids symbol_ids]; try done.
    + intros p i. rewrite lookup_insert. case_decide as Hp.
      * intros [= <-]. lia.
      * intros Hi%Hlt. lia.
    + intros i Hi. destruct (decide (i = next_file_id rt)) as [->|Hne].
      * exists (Path d). by rewrite lookup_insert_eq.
      * destruct (Hall i ltac:(lia)) as [p Hp]. exists p.
        rewrite lookup_insert_ne; [done|]. intros <-. congruence.
    + intros p q i. rewrite !lookup_insert.
      repeat case_decide; subst; try done.
      * intros [= <-] Hq%Hlt. lia.
      * intros Hp%Hlt [= <-]. lia.
      * apply Hinj.
    + intros p s i Hi. destruct (Hsfile p s i Hi) as [j Hj].
      rewrite lookup_insert. case_decide; eauto.
  - repeat split; cbn [file_ids symbol_ids]; try done.
    intros p i Hp. rewrite lookup_insert_ne; [done|]. intros <-. congruence.
  - cbn [file_ids]. by rewrite lookup_insert_eq.
Qed.

Lemma next_symbol_insert rt p q n :
  default 0%N (<[p := n]> (next_symbol_id rt) !! q)
  = if decide (p = q) then n else next_symbol rt q.
Proof. rewrite lookup_insert. by case_decide. Qed.

(** [symbol->GetDumpId] or else [CreateSymbolDumpId]. *)
Lemma symbol_id_step rt d s :
  dense_ids rt -> (next_symbol rt (Path d) + 1 < 2 ^ 31)%N ->
  is_Some (file_ids rt !! Path d) ->
  let res := match Symbol_GetDumpId rt d s with
             | Some id => (rt, int32 id)
             | None =>
               let '(rt, id) := Dso_CreateSymbolDumpId rt d s in (rt, int32 id)
             end in
  dense_ids res.1 /\ extends rt res.1
  /\ (0 <= res.2 < Z.of_N (next_symbol res.1 (Path d)))%Z
  /\ next_file_id res.1 = next_file_id rt
  /\ (forall p, (next_symbol res.1 p <= next_symbol rt p + 1)%N).
Proof.
  intros Hdense Hbound Hfile. cbv zeta. unfold Symbol_GetDumpId.
  pose proof Hdense as [Hlt Hall Hinj Hsfile Hslt Hsall Hsinj].
  destruct (symbol_ids rt !! (Path d, symbol_ptr s)) as [id|] eqn:Hlook; cbn [fst snd].
  { pose proof (Hslt _ _ _ Hlook). rewrite int32_small by lia.
    split; [done|]. split; [apply extends_refl|]. split; [lia|]. split; [done|].
    intros p. lia. }
  unfold Dso_CreateSymbolDumpId. fold (next_symbol rt (Path d)). cbn [fst snd].
  rewrite uint32_succ, int32_small by lia.
  split; [|split; [|split; [|split]]].
  - split; cbn [next_file_id file_ids symbol_ids]; unfold next_symbol;
      cbn [next_symbol_id]; try done.
    + intros p t i. rewrite lookup_insert. case_decide as Hkey; [|by eauto].
      injection Hkey as <- <-. by intros _.
    + intros p t i. rewrite lookup_insert, next_symbol_insert.
      case_decide as Hkey.
      * injection Hkey as <- <-. intros [= <-]. rewrite decide_True by done. lia.
      * intros Hi%Hslt. case_decide; subst; unfold next_symbol in *; lia.
    + intros p i. rewrite next_symbol_insert. case_decide as Hp.
      * subst p. intros Hi. destruct (decide (i = next_symbol rt (Path d))) as [->|Hne].
        { exists (symbol_ptr s). by rewrite lookup_insert_eq. }
        destruct (Hsall (Path d) i ltac:(unfold next_symbol in *; lia)) as [t Ht].
        exists t.
        rewrite lookup_insert_ne; [done|]. intros [= <-]. congruence.
      * intros Hi. destruct (Hsall p i Hi) as [t Ht]. exists t.
        rewrite lookup_insert_ne; [done|]. intros [= <- <-]. done.
    + intros p t1 t2 i. rewrite !lookup_insert.
      repeat case_decide; simplify_eq; try done.
      * intros [= <-] Ht%Hslt. unfold next_symbol in *. lia.
      * intros Ht%Hslt [= <-]. unfold next_symbol in *. lia.
      * apply Hsinj.
  - repeat split; cbn [file_ids symbol_ids]; try done.
    + intros k i Hk. rewrite lookup_insert_ne; [done|]. intros <-. congruence.
    + intros p. unfold next_symbol at 2. cbn [next_symbol_id].
      rewrite next_symbol_insert. case_decide; subst; lia.
  - unfold next_symbol at 3. cbn [next_symbol_id].
    rewrite next_symbol_insert, decide_True by done. lia.
  - done.
  - intros p. unfold next_symbol at 1. cbn [next_symbol_id].
    rewrite next_symbol_insert. case_decide; subst; lia.
Qed.

Lemma bounded_weaken n n' rt : (n <= n')%N -> bounded n rt -> bounded n' rt.
Proof.
  intros Hle [Hfile Hsym]. split; [lia|]. intros p. specialize (Hsym p). lia.
Qed.

Lemma add_node_ids unknown_symbol rt node n :
  dense_ids rt -> bounded n rt -> (n + 1 < 2 ^ 31)%N ->
  let res := add_node unknown_symbol rt node in
  dense_ids res.1 /\ bounded (n + 1) res.1 /\ extends rt res.1
  /\ refers_to res.1 res.2.
Proof.
  intros Hdense [Hnext Hsym] Hn. cbv zeta. unfold add_node.
  destruct (file_id_step rt (dso node) Hdense ltac:(lia))
    as (Hdense1 & Hext1 & Hfile1 & Hnext1 & Hsym1).
  destruct (match Dso_GetDumpId rt (dso node) with
            | Some file_id => (rt, file_id)
            | None => Dso_CreateDumpId rt (dso node)
            end) as [rt1 file_id]. cbn [fst snd] in *.
  assert (forall p, next_symbol rt1 p = next_symbol rt p) as Hsame
    by (intros p; unfold next_symbol; by rewrite Hsym1).
  destruct (negb (Symbol_ptr_eqb (symbol node) unknown_symbol)).
  - destruct (symbol_id_step rt1 (dso node) (symbol node) Hdense1)
      as (Hdense2 & Hext2 & Hrange & Hnext2 & Hsym2).
    { rewrite Hsame. specialize (Hsym (Path (dso node))). lia. }
    { by rewrite Hfile1. }
    destruct (match Symbol_GetDumpId rt1 (dso node) (symbol node) with
              | Some id => (rt1, int32 id)
              | None => let '(rt, id) := Dso_CreateSymbolDumpId rt1 (dso node) (symbol node)
                        in (rt, int32 id)
              end) as [rt2 symbol_id]. cbn [fst snd] in *.
    split; [done|]. split; [|split; [by eapply extends_trans|]].
    + split; [lia|]. intros p. specialize (Hsym2 p). specialize (Hsym p).
      rewrite Hsame in Hsym2. lia.
    + exists (Path (dso node)). cbn. split; [by apply Hext2|]. by right.
  - cbn [fst snd]. split; [done|]. split; [|split; [done|]].
    + split; [lia|]. intros p. rewrite Hsame. specialize (Hsym p). lia.
    + exists (Path (dso node)). cbn. split; [done|]. by left.
Qed.

Lemma add_callchain_ids unknown_symbol entries : forall rt n,
  dense_ids rt -> bounded n rt -> (n + N.of_nat (length entries) < 2 ^ 31)%N ->
  let res := add_callchain unknown_symbol rt entries in
  dense_ids res.1 /\ bounded (n + N.of_nat (length entries)) res.1
  /\ extends rt res.1 /\ Forall (refers_to res.1) res.2.
Proof.
  induction entries as [|node entries IH]; intros rt n Hdense Hbounded Hn; cbv zeta.
  - cbn. split; [done|]. split; [by rewrite N.add_0_r|]. split; [apply extends_refl|done].
  - cbn [add_callchain length] in *.
    destruct (add_node_ids unknown_symbol rt node n Hdense Hbounded ltac:(lia))
      as (Hdense1 & Hbounded1 & Hext1 & Hrefers1).
    destruct (add_node unknown_symbol rt node) as [rt1 callchain]. cbn [fst snd] in *.
    destruct (is_call_chain_end node); cbn [fst snd].
    + split; [done|]. split; [eapply bounded_weaken; [|done]; lia|].
      split; [done|]. by apply Forall_singleton.
    + destruct (IH rt1 (n + 1)%N Hdense1 Hbounded1 ltac:(lia))
        as (Hdense2 & Hbounded2 & Hext2 & Hrefers2).
      destruct (add_callchain unknown_symbol rt1 entries) as [rt2 more].
      cbn [fst snd] in *. split; [done|].
      split; [eapply bounded_weaken; [|done]; lia|].
      split; [by eapply extends_trans|].
      apply Forall_cons. split; [by eapply refers_to_extends|done].
Qed.

Lemma dense_ids_empty : dense_ids empty_table /\ bounded 0 empty_table.
Proof.
  split; [split|split]; cbn; try done; try lia.
  - intros p i. unfold next_symbol. cbn. rewrite lookup_empty. cbn. lia.
Qed.

Section IdFacts.

Context {ThreadTree : Type} `{Collaborators ThreadTree} `{RunCollaborators ThreadTree}.

Implicit Types (c : ReportSampleCommand ThreadTree) (entries : list CallEntry).

Lemma plain_frame_extends rt rt' f : extends rt rt' -> plain_frame rt f -> plain_frame rt' f.
Proof.
  intros Hext (r & Hparsed & Hr). exists r. split; [done|].
  destruct r; try done. eapply Forall_impl; [done|].
  intros e. by apply refers_to_extends.
Qed.

Lemma WriteRecordInProtobuf_writes record c c' :
  WriteRecordInProtobuf record c = (true, c') -> writes c c' [frame_of record].
Proof.
  unfold WriteRecordInProtobuf. destruct (SerializeToCodedStream record); [|done].
  cbn [negb]. intros [= <-]. by repeat split.
Qed.

Lemma writes_ids_ok n c c' frames :
  writes c c' frames -> ids_ok n c -> Forall (plain_frame (dump_ids c)) frames ->
  ids_ok n c'.
Proof.
  intros (Hos & Hids & _) (Hdense & Hbounded & Hplain) Hframes.
  unfold ids_ok. rewrite Hids, Hos.
  split; [done|]. split; [done|]. apply Forall_app. by split.
Qed.

Lemma process_chain_ids r ips k c n :
  use_protobuf_ c = true ->
  ids_ok n c -> (n + N.of_nat (length ips) < 2 ^ 31)%N ->
  let res := process_chain r ips k c in
  res.1 = Returned true ->
  ids_ok (n + N.of_nat (length ips)) res.2 /\ extends (dump_ids c) (dump_ids res.2).
Proof.
  intros Hmode (Hdense & Hbounded & Hplain) Hn. cbv zeta. unfold process_chain.
  set (chain := if negb (show_callchain_ c)
                then (take 1 ips, Nat.min k 1) else (ips, k)).
  assert (length chain.1 <= length ips)%nat as Hlen.
  { subst chain. destruct (show_callchain_ c); cbn [negb fst]; [done|].
    rewrite length_take. lia. }
  destruct chain as [ips' k']. cbn [fst] in Hlen.
  cbn [thread_tree_ set_sample_count_].
  destruct (FindThreadOrNew _ _ _) as [tree thread].
  cbn [use_protobuf_ set_thread_tree_ set_sample_count_]. rewrite Hmode.
  rewrite PrintSampleRecordInProtobuf_writes. cbv zeta. cbn [fst snd].
  set (c2 := set_thread_tree_ tree _).
  set (entries := resolve c2 thread k' ips').
  pose proof (resolve_length c2 thread k' ips') as Hle. fold entries in Hle.
  destruct (add_callchain_ids (UnknownSymbol (thread_tree_ c2)) entries (dump_ids c) n
              Hdense Hbounded ltac:(lia)) as (Hdense' & Hbounded' & Hext & Hrefers).
  change (dump_ids c2) with (dump_ids c).
  destruct (add_callchain _ (dump_ids c) entries) as [rt' callchain]. cbn [fst snd] in *.
  intros [= Hser]. rewrite Hser.
  cbn [dump_ids coded_os_ set_coded_os_ set_dump_ids c2 set_thread_tree_
    set_sample_count_]. split; [|done].
  unfold ids_ok. cbn [dump_ids coded_os_ set_coded_os_ set_dump_ids c2
    set_thread_tree_ set_sample_count_].
  split; [done|]. split; [eapply bounded_weaken; [|done]; lia|].
  apply Forall_app. split.
  - eapply Forall_impl; [done|]. intros f. by apply plain_frame_extends.
  - apply Forall_singleton. eexists. split; [done|]. done.
Qed.

Lemma ids_ok_weaken n m c : (n <= m)%N -> ids_ok n c -> ids_ok m c.
Proof.
  intros Hle (Hdense & Hbounded & Hplain). split; [done|]. split; [|done].
  by eapply bounded_weaken.
Qed.

Lemma drop_length_le {A} (l : list A) n : (length (drop n l) <= length l)%nat.
Proof. rewrite length_drop. lia. Qed.

Lemma ProcessRecord_ids record c n :
  use_protobuf_ c = true ->
  ids_ok n c -> (n + pointers record < 2 ^ 31)%N ->
  let res := ProcessRecord record c in
  res.1 = Returned true ->
  ids_ok (n + pointers record) res.2 /\ extends (dump_ids c) (dump_ids res.2).
Proof.
  intros Hmode Hok Hn. cbv zeta. unfold ProcessRecord.
  set (c1 := set_thread_tree_ (Update (thread_tree_ c) record) c).
  assert (ids_ok n c1) as Hok1 by done.
  change (dump_ids c) with (dump_ids c1).
  destruct record as [r|lost|]; cbn [pointers] in *.
  - unfold ProcessSampleRecord.
    destruct (remove_kernel_ips c1 (GetCallChain r)) as [ips k] eqn:Hremove.
    assert (length ips <= length (GetCallChain r).1)%nat as Hlen.
    { revert Hremove. unfold remove_kernel_ips.
      destruct (GetCallChain r) as [ips0 k0]. cbn [fst].
      destruct (_ && _ && _); intros [= <- <-]; [apply drop_length_le|done]. }
    destruct ips as [|ip ips].
    + intros _. split; [|apply extends_refl]. eapply ids_ok_weaken; [|done]. lia.
    + intros Hret.
      destruct (process_chain_ids r (ip :: ips) k c1 n Hmode Hok1 ltac:(lia) Hret)
        as [Hok2 Hext].
      split; [|done]. eapply ids_ok_weaken; [|done]. lia.
  - intros _. rewrite N.add_0_r. split; [done|apply extends_refl].
  - intros _. rewrite N.add_0_r. split; [done|apply extends_refl].
Qed.

Lemma ReadDataSection_ids records : forall c n,
  use_protobuf_ c = true ->
  ids_ok n c -> (n + total_pointers records < 2 ^ 31)%N ->
  let res := ReadDataSection records ProcessRecord c in
  res.1 = Returned true ->
  ids_ok (n + total_pointers records) res.2 /\ extends (dump_ids c) (dump_ids res.2).
Proof.
  induction records as [|record rest IH]; intros c n Hmode Hok Hn; cbv zeta.
  - intros _. cbn. rewrite N.add_0_r. split; [done|apply extends_refl].
  - unfold total_pointers in *. cbn [map fold_right] in *. fold (total_pointers rest) in *.
    cbn [ReadDataSection].
    pose proof (ProcessRecord_ids record c n Hmode Hok ltac:(lia)) as Hstep.
    destruct (ProcessRecord_effect record c) as (Ho & _).
    destruct (ProcessRecord record c) as [[[]|] c1]; cbn [fst snd] in *; try done.
    destruct (Hstep eq_refl) as [Hok1 Hext1].
    intros Hret. rewrite N.add_assoc.
    destruct (IH c1 (n + pointers record)%N) as [Hok2 Hext2]; try done; [|lia|].
    { injection Ho as _ Hmode1 _. congruence. }
    split; [done|]. by eapply extends_trans.
Qed.

(** X13: while the data section is read in protobuf mode, the dump ids
    stay dense and stable.  From a table with dense ids and a stream whose
    samples refer to it, and with fewer than 2^31 instruction pointers to
    come, a data section read to its end leaves a table with dense ids in
    which every path and every symbol has kept its id, and every callchain
    entry of every sample in the stream carries the file id of a path and
    either -1 or a symbol id given in that file. *)
Theorem ReadDataSection_keeps_the_dump_ids records c n :
  use_protobuf_ c = true ->
  ids_ok n c -> (n + total_pointers records < 2 ^ 31)%N ->
  let res := ReadDataSection records ProcessRecord c in
  res.1 = Returned true ->
  dense_ids (dump_ids res.2)
  /\ extends (dump_ids c) (dump_ids res.2)
  /\ forall f s e,
       f ∈ coded_os_ res.2 -> Frame.parsed f = Some (proto.sample s) ->
       e ∈ proto.Sample.callchain s -> refers_to (dump_ids res.2) e.
Proof.
  intros Hmode Hok Hn. cbv zeta. intros Hret.
  destruct (ReadDataSection_ids records c n Hmode Hok Hn Hret)
    as [(Hdense & _ & Hplain) Hext].
  split; [done|]. split; [done|]. intros f s e Hf Hs He.
  rewrite Forall_forall in Hplain. destruct (Hplain f Hf) as (r & Hr & Hrefers).
  rewrite Hs in Hr. injection Hr as <-. rewrite Forall_forall in Hrefers.
  by apply Hrefers.
Qed.

End IdFacts.

(** * The file table of a run *)

Lemma seq_sorted n : forall j, StronglySorted le (seq j n).
Proof.
  induction n as [|n IH]; intros j; [constructor|]. cbn [seq]. constructor; [apply IH|].
  apply List.Forall_forall. intros k Hk%in_seq. lia.
Qed.

Lemma ids_permute_a_range (l : list N) (n : N) :
  NoDup l -> (forall i, i ∈ l <-> (i < n)%N) ->
  l ≡ₚ map N.of_nat (seq 0 (N.to_nat n)).
Proof.
  intros Hnodup Hall. apply NoDup_Permutation; [done| |].
  - apply (NoDup_fmap_2 N.of_nat), NoDup_seq.
  - intros i. rewrite Hall. change (map N.of_nat) with (fmap (M := list) N.of_nat).
    rewrite list_elem_of_fmap. setoid_rewrite elem_of_seq. split.
    + intros Hlt. exists (N.to_nat i). lia.
    + intros (k & -> & Hk). lia.
Qed.

Lemma sorted_ids_are_a_range (l : list N) (n : N) :
  StronglySorted N.le l -> NoDup l -> (forall i, i ∈ l <-> (i < n)%N) ->
  l = map N.of_nat (seq 0 (N.to_nat n)).
Proof.
  intros Hsorted Hnodup Hall.
  apply (StronglySorted_unique N.le); [done| |by apply ids_permute_a_range].
  apply (StronglySorted_fmap N.of_nat le N.le); [lia|apply seq_sorted].
Qed.

Lemma object_ids {A K : Type} (key : A -> K) (look : K -> option N) (l : list A) (n : N) :
  NoDup (map key l) ->
  (forall k k' i, look k = Some i -> look k' = Some i -> k = k') ->
  (forall k i, look k = Some i -> (i < n)%N) ->
  (forall i, (i < n)%N -> exists k, look k = Some i /\ k ∈ map key l) ->
  NoDup (omap (fun a => look (key a)) l)
  /\ forall i, i ∈ omap (fun a => look (key a)) l <-> (i < n)%N.
Proof.
  intros Hnodup Hinj Hlt Hall. split.
  - clear Hall. induction l as [|a l IH]; [constructor|].
    cbn [map] in Hnodup. apply NoDup_cons in Hnodup as [Hnotin Hnodup].
    rewrite omap_cons. destruct (look (key a)) as [i|] eqn:Hlook; [|by apply IH].
    apply NoDup_cons. split; [|by apply IH].
    intros (b & Hb & Hlookb)%list_elem_of_omap. apply Hnotin.
    rewrite (Hinj _ _ _ Hlook Hlookb).
    change (map key l) with (key <$> l). by apply list_elem_of_fmap_2.
  - intros i. rewrite list_elem_of_omap. split.
    + intros (a & _ & Hlook). by eapply Hlt.
    + intros (k & Hlook & Hk)%Hall.
      change (map key l) with (key <$> l) in Hk.
      apply list_elem_of_fmap in Hk as (a & -> & Ha). by exists a.
Qed.

Lemma sorted_omap {A : Type} (key : A -> N) (f : A -> option N) (l : list A) :
  (forall a i, f a = Some i -> key a = i) ->
  StronglySorted (fun a b => (key a <= key b)%N) l ->
  StronglySorted N.le (omap f l).
Proof.
  intros Hkey. induction 1 as [|a l _ IH Hall]; [constructor|].
  rewrite omap_cons. destruct (f a) as [i|] eqn:Hfa; [|done].
  constructor; [done|]. apply List.Forall_forall. intros j Hj%list_elem_of_In.
  apply list_elem_of_omap in Hj as (b & Hb & Hfb).
  rewrite List.Forall_forall in Hall. specialize (Hall b).
  rewrite <- list_elem_of_In in Hall. specialize (Hall Hb).
  by rewrite (Hkey _ _ Hfa), (Hkey _ _ Hfb) in Hall.
Qed.

Section FileTable.

Context {ThreadTree : Type} `{Collaborators ThreadTree} `{RunCollaborators ThreadTree}.

Implicit Types (c : ReportSampleCommand ThreadTree) (rt : ReferenceTable) (t : ThreadTree).

Hypothesis sort_ok : sort_contract (@std_sort ThreadTree _).

Lemma writes_refl c : writes c c [].
Proof. unfold writes. by rewrite app_nil_r. Qed.

Lemma writes_trans c c1 c2 frames1 frames2 :
  writes c c1 frames1 -> writes c1 c2 frames2 -> writes c c2 (frames1 ++ frames2).
Proof.
  intros (Hos1 & Hids1 & Htree1 & Hfp1 & Hsc1 & Hlc1 & Ho1)
         (Hos2 & Hids2 & Htree2 & Hfp2 & Hsc2 & Hlc2 & Ho2).
  unfold writes. rewrite Hos2, Hos1, app_assoc. repeat split; congruence.
Qed.

Lemma file_frames_writes c c' frames dsos :
  writes c c' frames -> file_frames c' dsos = file_frames c dsos.
Proof.
  intros (_ & Hids & Htree & _). unfold file_frames, file_record.
  by rewrite Hids, Htree.
Qed.

Lemma write_files_writes dsos : forall c c',
  write_files dsos c = (true, c') -> writes c c' (file_frames c dsos).
Proof.
  induction dsos as [|d rest IH]; intros c c'; cbn [write_files].
  - intros [= <-]. apply writes_refl.
  - unfold file_frames. rewrite omap_cons. fold (file_frames c rest).
    destruct (Dso_GetDumpId (dump_ids c) d) as [file_id|]; [|apply IH].
    destruct (WriteRecordInProtobuf _ c) as [[] c1] eqn:Hwrite; [|done].
    apply WriteRecordInProtobuf_writes in Hwrite. intros Hrest%IH.
    rewrite (file_frames_writes _ _ _ _ Hwrite) in Hrest.
    apply (writes_trans _ _ _ [_] _ Hwrite Hrest).
Qed.

Lemma write_threads_writes threads : forall c c',
  write_threads threads c = (true, c') -> writes c c' (thread_frames threads).
Proof.
  induction threads as [|thread rest IH]; intros c c'; cbn [write_threads].
  - intros [= <-]. apply writes_refl.
  - destruct (WriteRecordInProtobuf _ c) as [[] c1] eqn:Hwrite; [|done].
    apply WriteRecordInProtobuf_writes in Hwrite. intros Hrest%IH.
    apply (writes_trans _ _ _ [_] _ Hwrite Hrest).
Qed.

Lemma length_filter_HasDumpId rt d syms :
  length (List.filter (HasDumpId rt d) syms) = length (omap (Symbol_GetDumpId rt d) syms).
Proof.
  induction syms as [|sym syms IH]; [done|]. rewrite omap_cons. cbn [List.filter].
  unfold HasDumpId at 1. destruct (Symbol_GetDumpId rt d sym); cbn [length]; by rewrite IH.
Qed.

Lemma dump_symbols_length rt t d :
  dense_ids rt -> covers t rt -> d ∈ GetAllDsos t ->
  length (std_sort (Symbol_CompareByDumpId rt d)
            (List.filter (HasDumpId rt d) (GetSymbols t d)))
  = N.to_nat (next_symbol rt (Path d)).
Proof.
  intros Hdense Hcovers Hd.
  destruct (sort_ok Symbol (Symbol_CompareByDumpId rt d)
              (fun s => default UINT_MAX (Symbol_GetDumpId rt d s))
              (List.filter (HasDumpId rt d) (GetSymbols t d))) as [Hperm _]; [done|].
  rewrite (Permutation_length Hperm), length_filter_HasDumpId.
  destruct (object_ids symbol_ptr (fun s => symbol_ids rt !! (Path d, s))
              (GetSymbols t d) (next_symbol rt (Path d))) as [Hnodup Hall].
  - by apply (covers_symbols_once t rt).
  - intros s s' i. apply (dense_symbol_inj rt Hdense).
  - intros s i. apply (dense_symbol_lt rt Hdense).
  - intros i (s & Hs)%(dense_symbol_all rt Hdense). exists s. split; [done|].
    by eapply (covers_symbols t rt).
  - change (omap (Symbol_GetDumpId rt d) (GetSymbols t d))
      with (omap (fun a => symbol_ids rt !! (Path d, symbol_ptr a)) (GetSymbols t d)).
    rewrite (Permutation_length (ids_permute_a_range _ _ Hnodup Hall)).
    by rewrite length_map, length_seq.
Qed.

Lemma sorted_dsos rt t :
  dense_ids rt -> covers t rt ->
  let dsos := std_sort (CompareDsoByDumpId rt) (GetAllDsos t) in
  omap (Dso_GetDumpId rt) dsos = map N.of_nat (seq 0 (N.to_nat (next_file_id rt)))
  /\ forall d, d ∈ dsos -> d ∈ GetAllDsos t.
Proof.
  intros Hdense Hcovers dsos.
  destruct (sort_ok Dso (CompareDsoByDumpId rt)
              (fun d => default UINT_MAX (Dso_GetDumpId rt d))
              (GetAllDsos t)) as [Hperm Hsorted]; [done|].
  fold dsos in Hperm, Hsorted. split; [|intros d; by rewrite Hperm].
  destruct (object_ids Path (fun p => file_ids rt !! p) dsos (next_file_id rt))
    as [Hnodup Hall].
  - change (map Path dsos) with (Path <$> dsos). rewrite Hperm.
    apply (covers_dsos t rt Hcovers).
  - intros p q i. apply (dense_file_inj rt Hdense).
  - intros p i. apply (dense_file_lt rt Hdense).
  - intros i (p & Hp)%(dense_file_all rt Hdense). exists p. split; [done|].
    change (map Path dsos) with (Path <$> dsos). rewrite Hperm.
    by eapply (covers_files t rt).
  - apply sorted_ids_are_a_range; [|done..].
    eapply sorted_omap; [|exact Hsorted]. intros d i Hi. cbn beta. by rewrite Hi.
Qed.

Lemma file_frames_cons c d rest :
  file_frames c (d :: rest)
  = match Dso_GetDumpId (dump_ids c) d with
    | Some file_id => frame_of (file_record c d file_id) :: file_frames c rest
    | None => file_frames c rest
    end.
Proof. unfold file_frames. rewrite omap_cons. by destruct (Dso_GetDumpId _ d). Qed.

Lemma file_record_is_file c d file_id :
  exists file, file_record c d file_id = proto.file file /\ proto.File.id file = file_id.
Proof. by eexists. Qed.

Lemma NoDup_map_filter {A B : Type} (f : A -> B) (keep : A -> bool) (l : list A) :
  NoDup (map f l) -> NoDup (map f (List.filter keep l)).
Proof.
  induction l as [|a l IH]; [done|]. cbn [map List.filter].
  intros [Hnotin Hnodup]%NoDup_cons. destruct (keep a); [|by apply IH].
  cbn [map]. apply NoDup_cons. split; [|by apply IH].
  intros Hin. apply Hnotin.
  change (map f (List.filter keep l)) with (f <$> List.filter keep l) in Hin.
  apply list_elem_of_fmap in Hin as (b & -> & Hb). apply list_elem_of_In in Hb.
  apply filter_In in Hb as [Hb _]. change (map f l) with (f <$> l).
  apply list_elem_of_fmap_2. by apply list_elem_of_In.
Qed.

Lemma omap_total_lookup {A B : Type} (g : A -> option B) (l : list A) : forall k i,
  Forall (fun a => is_Some (g a)) l ->
  omap g l !! k = Some i -> exists a, l !! k = Some a /\ g a = Some i.
Proof.
  induction l as [|a l IH]; intros k i Hall; [done|].
  apply Forall_cons in Hall as [[j Hj] Hall]. rewrite omap_cons, Hj.
  destruct k as [|k]; cbn [lookup list_lookup].
  - intros [= <-]. by exists a.
  - by apply IH.
Qed.

Lemma dump_symbols_aligned rt t d :
  dense_ids rt -> covers t rt -> d ∈ GetAllDsos t ->
  let dump_symbols :=
    std_sort (Symbol_CompareByDumpId rt d)
      (List.filter (HasDumpId rt d) (GetSymbols t d)) in
  omap (Symbol_GetDumpId rt d) dump_symbols
  = map N.of_nat (seq 0 (N.to_nat (next_symbol rt (Path d))))
  /\ Forall (fun sym => is_Some (Symbol_GetDumpId rt d sym)) dump_symbols.
Proof.
  intros Hdense Hcovers Hd.
  set (syms := List.filter (HasDumpId rt d) (GetSymbols t d)).
  destruct (sort_ok Symbol (Symbol_CompareByDumpId rt d)
              (fun s => default UINT_MAX (Symbol_GetDumpId rt d s)) syms)
    as [Hperm Hsorted]; [done|].
  cbv zeta. set (sorted := std_sort _ syms) in *.
  assert (forall sym, sym ∈ sorted <-> sym ∈ GetSymbols t d /\ HasDumpId rt d sym = true)
    as Hsorted_in.
  { intros sym. rewrite Hperm. subst syms. by rewrite !list_elem_of_In, filter_In. }
  split.
  - destruct (object_ids symbol_ptr (fun s => symbol_ids rt !! (Path d, s)) sorted
                (next_symbol rt (Path d))) as [Hnodup Hall].
    + change (map symbol_ptr sorted) with (symbol_ptr <$> sorted). rewrite Hperm.
      apply NoDup_map_filter. by apply (covers_symbols_once t rt).
    + intros s s' i. apply (dense_symbol_inj rt Hdense).
    + intros s i. apply (dense_symbol_lt rt Hdense).
    + intros i (s & Hs)%(dense_symbol_all rt Hdense). exists s. split; [done|].
      pose proof (covers_symbols t rt Hcovers d s i Hd Hs) as Hin.
      change (map symbol_ptr (GetSymbols t d)) with (symbol_ptr <$> GetSymbols t d) in Hin.
      apply list_elem_of_fmap in Hin as (sym & -> & Hsym).
      change (map symbol_ptr sorted) with (symbol_ptr <$> sorted).
      apply list_elem_of_fmap_2, Hsorted_in. split; [done|].
      unfold HasDumpId, Symbol_GetDumpId. by rewrite Hs.
    + apply sorted_ids_are_a_range; [|done..].
      eapply sorted_omap; [|exact Hsorted]. intros sym i Hi. cbn beta. by rewrite Hi.
  - apply Forall_forall. intros sym [_ Hhas]%Hsorted_in. unfold HasDumpId in Hhas.
    by destruct (Symbol_GetDumpId rt d sym).
Qed.

Lemma file_record_describes c d file_id file :
  dense_ids (dump_ids c) -> covers (thread_tree_ c) (dump_ids c) ->
  d ∈ GetAllDsos (thread_tree_ c) ->
  Dso_GetDumpId (dump_ids c) d = Some file_id ->
  file_record c d file_id = proto.file file ->
  describes (dump_ids c) file.
Proof.
  intros Hdense Hcovers Hd Hid [= <-].
  destruct (dump_symbols_aligned _ _ _ Hdense Hcovers Hd) as [Haligned Hall].
  pose proof (dump_symbols_length _ _ _ Hdense Hcovers Hd) as Hlength.
  cbv zeta in Haligned, Hall. set (dump_symbols := std_sort _ _) in *.
  unfold describes. cbn [proto.File.path proto.File.id proto.File.symbol
    proto.File.mangled_symbol].
  split; [done|]. split; [by rewrite length_map|]. intros k Hk.
  destruct (omap_total_lookup (Symbol_GetDumpId (dump_ids c) d) dump_symbols k
              (N.of_nat k) Hall) as (sym & Hsym & Hsym_id).
  { rewrite Haligned, list_lookup_fmap, lookup_seq_lt by done. done. }
  exists sym. split; [done|]. by rewrite !list_lookup_fmap, Hsym.
Qed.

Lemma file_frames_table c dsos :
  exists files,
    file_frames c dsos = map (fun file => frame_of (proto.file file)) files
    /\ map proto.File.id files = omap (Dso_GetDumpId (dump_ids c)) dsos
    /\ Forall (fun file =>
                 exists d, d ∈ dsos
                   /\ Dso_GetDumpId (dump_ids c) d = Some (proto.File.id file)
                   /\ file_record c d (proto.File.id file) = proto.file file) files.
Proof.
  induction dsos as [|d rest (files & Hframes & Hids & Hfiles)].
  { exists []. by repeat split. }
  assert (Forall (fun file =>
            exists d', d' ∈ d :: rest
              /\ Dso_GetDumpId (dump_ids c) d' = Some (proto.File.id file)
              /\ file_record c d' (proto.File.id file) = proto.file file) files)
    as Hfiles'.
  { eapply Forall_impl; [exact Hfiles|]. intros file (d' & Hd' & Hrest).
    exists d'. split; [by apply list_elem_of_further|done]. }
  unfold file_frames in *. rewrite !omap_cons.
  destruct (Dso_GetDumpId (dump_ids c) d) as [file_id|] eqn:Hid; [|by exists files].
  destruct (file_record_is_file c d file_id) as (file & Hfile & Hfid).
  exists (file :: files). cbn [map]. rewrite Hframes, Hids, Hfile, Hfid.
  split; [done|]. split; [done|]. apply Forall_cons. split; [|done].
  exists d. rewrite Hfid. split; [apply list_elem_of_here|]. done.
Qed.

(** X16: the file table that [PrintFileInfoInProtobuf] writes.  When
    [std::sort] sorts, the dump ids are dense and the thread tree holds
    the files and symbols that have one, a call that returns true adds
    one file record per file id, in the order 0, 1, 2, ..., and each
    record describes its file: the path that has the id, and at index
    [k] the names of the symbol that has the symbol id [k]. *)
Theorem PrintFileInfoInProtobuf_writes_the_file_table c c' :
  dense_ids (dump_ids c) -> covers (thread_tree_ c) (dump_ids c) ->
  PrintFileInfoInProtobuf c = (true, c') ->
  exists files,
    coded_os_ c' = coded_os_ c ++ map (fun file => frame_of (proto.file file)) files
    /\ map proto.File.id files
       = map N.of_nat (seq 0 (N.to_nat (next_file_id (dump_ids c))))
    /\ Forall (describes (dump_ids c)) files.
Proof.
  intros Hdense Hcovers Hprint. unfold PrintFileInfoInProtobuf in Hprint.
  apply write_files_writes in Hprint as (Hos & _).
  destruct (sorted_dsos _ _ Hdense Hcovers) as [Hids Hsub]. cbv zeta in Hids, Hsub.
  set (dsos := std_sort _ _) in *.
  destruct (file_frames_table c dsos) as (files & Hframes & Hfile_ids & Hfiles).
  exists files. rewrite Hos, Hframes, Hfile_ids, Hids.
  split; [done|]. split; [done|]. eapply Forall_impl; [exact Hfiles|].
  intros file (d & Hd & Hid & Hrecord).
  eapply file_record_describes; [done..| |done|done]. by apply Hsub.
Qed.

(** X17: the thread table that [PrintThreadInfoInProtobuf] writes.  When
    [std::sort] sorts, a call that returns true adds one thread record for
    each thread of the tree, in the order of the thread ids, and nothing
    else. *)
Theorem PrintThreadInfoInProtobuf_writes_the_threads c c' :
  PrintThreadInfoInProtobuf c = (true, c') ->
  exists threads,
    threads ≡ₚ GetAllThreads (thread_tree_ c)
    /\ StronglySorted (fun a b => (tid a <= tid b)%N) threads
    /\ coded_os_ c' = coded_os_ c ++ map (fun thread => frame_of (thread_record thread)) threads.
Proof.
  intros Hprint. unfold PrintThreadInfoInProtobuf in Hprint.
  apply write_threads_writes in Hprint as (Hos & _).
  destruct (sort_ok ThreadEntry compare_thread_id tid (GetAllThreads (thread_tree_ c)))
    as [Hperm Hsorted]; [done|].
  by eexists.
Qed.

End FileTable.

(** * The decoder reads what a run has written *)

Section Acceptance.

Context {ThreadTree : Type} `{Collaborators ThreadTree} `{RunCollaborators ThreadTree}.

Implicit Types (c : ReportSampleCommand ThreadTree) (rt : ReferenceTable) (t : ThreadTree).

Hypothesis sort_ok : sort_contract (@std_sort ThreadTree _).

Hypothesis ByteSize_positive : forall record, ByteSize record <> 0%N.

Lemma ReadDataSection_frames records : forall c,
  use_protobuf_ c = true ->
  let res := ReadDataSection records ProcessRecord c in
  res.1 = Returned true ->
  report_fp_ res.2 = report_fp_ c /\ options res.2 = options c
  /\ exists frames,
       coded_os_ res.2 = coded_os_ c ++ frames
       /\ length frames = length (List.filter (reported c) records)
       /\ Forall (fun f => exists s, Frame.parsed f = Some (proto.sample s)
                                     /\ Frame.size f = ByteSize (proto.sample s))
            frames.
Proof.
  induction records as [|record rest IH]; intros c Hmode; cbv zeta.
  { intros _. split; [done|]. split; [done|]. exists []. by rewrite app_nil_r. }
  cbn [ReadDataSection].
  destruct (ProcessRecord_effect record c) as (Ho & _ & _ & _ & Hproto).
  destruct (Hproto Hmode) as (Hfp & frames & Hos & Hlen & Hframes).
  destruct (ProcessRecord record c) as [[[]|] c1]; cbn [fst snd] in *; try done.
  assert (use_protobuf_ c1 = true) as Hmode1.
  { injection Ho as _ Hmode1 _. congruence. }
  intros Hret.
  destruct (IH c1 Hmode1 Hret) as (-> & -> & frames' & -> & Hlen' & Hframes').
  split; [done|]. split; [done|]. exists (frames ++ frames').
  rewrite Hos, app_assoc. split; [done|]. split; [|apply Forall_app; by auto].
  rewrite length_app, Hlen, Hlen'.
  rewrite (List.filter_ext _ _ (fun r => reported_options c c1 r Ho)).
  cbn [List.filter]. destruct (reported c record); cbn [length]; lia.
Qed.

(** X10: when the data section has been read to its end, the sample
    counter has advanced by the number of samples reported and the lost
    counter by the sum of the [lost] fields, both modulo 2^64; in protobuf
    mode the stream has received one frame for each sample reported, each
    holding a sample record, and nothing else. *)
Theorem ReadDataSection_counts records c :
  let res := ReadDataSection records ProcessRecord c in
  res.1 = Returned true ->
  (sample_count_ c < 2 ^ 64)%N ->
  (lost_count_ c < 2 ^ 64)%N ->
  sample_count_ res.2
  = uint64 (Z.of_N (sample_count_ c)
            + Z.of_nat (length (List.filter (reported c) records)))
  /\ lost_count_ res.2
     = uint64 (Z.of_N (lost_count_ c) + Z.of_N (lost_total records))
  /\ (use_protobuf_ c = true ->
      exists frames,
        coded_os_ res.2 = coded_os_ c ++ frames
        /\ length frames = length (List.filter (reported c) records)
        /\ Forall (fun f => exists s, Frame.parsed f = Some (proto.sample s)) frames).
Proof.
  cbv zeta. intros Hret Hsamples Hlost.
  destruct (ReadDataSection_counters records c Hret Hsamples Hlost) as [-> ->].
  split; [done|]. split; [done|]. intros Hmode.
  destruct (ReadDataSection_frames records c Hmode Hret)
    as (_ & _ & frames & Hos & Hlength & Hframes).
  exists frames. split; [done|]. split; [done|].
  eapply Forall_impl; [exact Hframes|]. intros f (s & Hs & _). by exists s.
Qed.

Lemma records_read_body body last post :
  Forall readable body -> Frame.size last = 0%N ->
  records_read (body ++ last :: post) = omap Frame.parsed body.
Proof.
  intros Hbody Hlast.
  induction Hbody as [|f body [Hsize [r Hr]] _ IH]; cbn [app records_read].
  - by rewrite Hlast.
  - rewrite omap_cons, Hr, IH. by destruct (N.eqb_spec (Frame.size f) 0).
Qed.

Lemma plain_records rt pre :
  Forall (plain_frame rt) pre ->
  file_records (omap Frame.parsed pre) = []
  /\ Forall (fun r => match r with
                      | proto.sample s => Forall (refers_to rt) (proto.Sample.callchain s)
                      | proto.none_set => False
                      | _ => True
                      end) (omap Frame.parsed pre).
Proof.
  induction 1 as [|f pre (r & Hr & Hplain) _ [IHfiles IH]]; [done|].
  rewrite omap_cons, Hr, file_records_cons, IHfiles. split.
  - by destruct r.
  - apply Forall_cons. split; [|done]. by destruct r.
Qed.

Lemma thread_frames_records threads :
  Forall readable (thread_frames threads)
  /\ omap Frame.parsed (thread_frames threads) = map thread_record threads
  /\ file_records (map thread_record threads) = []
  /\ references (map thread_record threads) = [].
Proof.
  unfold thread_frames.
  induction threads as [|thread rest (IHr & IHp & IHf & IHs)]; [done|].
  cbn [map]. rewrite omap_cons. cbn [frame_of Frame.parsed].
  rewrite IHp, file_records_cons, references_cons, IHf, IHs. split; [|done].
  apply Forall_cons. split; [|done]. split; [apply ByteSize_positive|done].
Qed.

Lemma file_frames_records c dsos :
  let rs := omap Frame.parsed (file_frames c dsos) in
  Forall readable (file_frames c dsos)
  /\ map proto.File.id (file_records rs) = omap (Dso_GetDumpId (dump_ids c)) dsos
  /\ references rs = []
  /\ Forall (fun r => exists file, r = proto.file file) rs
  /\ Forall (fun file =>
               exists d, d ∈ dsos
                 /\ Dso_GetDumpId (dump_ids c) d = Some (proto.File.id file)
                 /\ file_record c d (proto.File.id file) = proto.file file)
       (file_records rs).
Proof.
  cbv zeta. induction dsos as [|d rest (IHr & IHi & IHs & IHf & IHd)].
  { cbn. repeat split; constructor. }
  assert (Forall (fun file =>
            exists d', d' ∈ d :: rest
              /\ Dso_GetDumpId (dump_ids c) d' = Some (proto.File.id file)
              /\ file_record c d' (proto.File.id file) = proto.file file)
            (file_records (omap Frame.parsed (file_frames c rest)))) as IHd'.
  { eapply Forall_impl; [exact IHd|]. intros file (d' & Hd' & Hrest).
    exists d'. split; [by apply list_elem_of_further|done]. }
  rewrite file_frames_cons, (omap_cons (Dso_GetDumpId (dump_ids c))).
  destruct (Dso_GetDumpId (dump_ids c) d) as [file_id|] eqn:Hid; [|done].
  rewrite omap_cons. cbn [frame_of Frame.parsed].
  destruct (file_record_is_file c d file_id) as (file & Hfile & Hfid).
  rewrite file_records_cons, references_cons, IHs, Hfile.
  change (file_records [proto.file file]) with [file].
  change (references [proto.file file]) with (@nil (N * Z)).
  cbn [app map]. rewrite IHi, Hfid. split; [|split; [done|split; [done|split]]].
  - apply Forall_cons. split; [|done]. split; [apply ByteSize_positive|done].
  - apply Forall_cons. split; [|done]. by eexists.
  - apply Forall_cons. split; [|done]. exists d. rewrite Hfid.
    split; [apply list_elem_of_here|]. done.
Qed.

Lemma file_records_app rs rs' :
  file_records (rs ++ rs') = file_records rs ++ file_records rs'.
Proof. apply omap_app. Qed.

Lemma references_app rs rs' : references (rs ++ rs') = references rs ++ references rs'.
Proof. apply flat_map_app. Qed.

Lemma file_symbol_size c d file_id file :
  dense_ids (dump_ids c) -> covers (thread_tree_ c) (dump_ids c) ->
  d ∈ GetAllDsos (thread_tree_ c) ->
  file_record c d file_id = proto.file file ->
  proto.File.symbol_size file = Z.of_N (next_symbol (dump_ids c) (Path d)).
Proof.
  intros Hdense Hcovers Hd [= <-]. unfold proto.File.symbol_size. cbn [proto.File.symbol].
  rewrite length_map, (dump_symbols_length sort_ok _ _ _ Hdense Hcovers Hd). lia.
Qed.

Lemma table_accepted c pre threads n :
  dense_ids (dump_ids c) -> bounded n (dump_ids c) -> (n < 2 ^ 31)%N ->
  covers (thread_tree_ c) (dump_ids c) ->
  Forall (plain_frame (dump_ids c)) pre ->
  Forall (fun f => Frame.size f <> 0%N) pre ->
  let stream :=
    pre ++ file_frames c
             (std_sort (CompareDsoByDumpId (dump_ids c)) (GetAllDsos (thread_tree_ c)))
        ++ thread_frames threads ++ [Frame.mk 0 None] in
  let rs := records_read stream in
  stream_complete stream = true /\ loop_ok 0 rs = true
  /\ check_symbol_ids (fold_left note (references rs) ∅)
       (map symbol_count (file_records rs)) = true.
Proof.
  intros Hdense Hbounded Hn Hcovers Hpre Hnonzero.
  destruct (sorted_dsos sort_ok _ _ Hdense Hcovers) as [Hids Hsub].
  set (dsos := std_sort _ _) in *.
  destruct (file_frames_records c dsos) as (Hfr & Hfi & Hfs & Hff & Hfd).
  destruct (thread_frames_records threads) as (Htr & Htp & Htf & Hts).
  destruct (plain_records _ pre Hpre) as [Hpf Hpr].
  set (body := pre ++ file_frames c dsos ++ thread_frames threads).
  assert (Forall readable body) as Hbody.
  { apply Forall_app. split; [|by apply Forall_app].
    apply Forall_forall. intros f Hf. rewrite Forall_forall in Hpre, Hnonzero.
    split; [by apply Hnonzero|]. by destruct (Hpre f Hf) as (r & -> & _). }
  cbv zeta.
  replace (pre ++ file_frames c dsos ++ thread_frames threads ++ [Frame.mk 0 None])
    with (body ++ [Frame.mk 0 None]) by (subst body; by rewrite <- !app_assoc).
  rewrite (records_read_body body (Frame.mk 0 None) [] Hbody eq_refl).
  set (files := file_records (omap Frame.parsed (file_frames c dsos))) in *.
  assert (omap Frame.parsed body
          = omap Frame.parsed pre ++ omap Frame.parsed (file_frames c dsos)
            ++ map thread_record threads) as Hrs.
  { subst body. by rewrite !omap_app, Htp. }
  set (rs := omap Frame.parsed body) in *.
  assert (file_records rs = files) as Hfiles.
  { by rewrite Hrs, !file_records_app, Hpf, Htf, app_nil_r. }
  assert (references rs = references (omap Frame.parsed pre)) as Hrefs.
  { by rewrite Hrs, !references_app, Hfs, Hts, !app_nil_r. }
  assert (forall r, r ∈ rs ->
            match r with
            | proto.sample s =>
              Forall (refers_to (dump_ids c)) (proto.Sample.callchain s)
            | proto.none_set => False
            | _ => True
            end) as Hrecords.
  { intros r. rewrite Hrs, !elem_of_app. intros [Hr|[Hr|Hr]].
    - rewrite Forall_forall in Hpr. by apply Hpr.
    - rewrite Forall_forall in Hff. by destruct (Hff r Hr) as [file ->].
    - change (map thread_record threads) with (thread_record <$> threads) in Hr.
      by apply list_elem_of_fmap in Hr as (thread & -> & _). }
  assert (forall s e, proto.sample s ∈ rs -> e ∈ proto.Sample.callchain s ->
            refers_to (dump_ids c) e) as Hentries.
  { intros s e Hs He. specialize (Hrecords _ Hs). cbn beta iota in Hrecords.
    rewrite Forall_forall in Hrecords. by apply Hrecords. }
  assert (forall s e, proto.sample s ∈ rs -> e ∈ proto.Sample.callchain s ->
            (-1 <= proto.Sample_CallChainEntry.symbol_id e)%Z) as Hfloor.
  { intros s e Hs He. destruct (Hentries s e Hs He) as (p & _ & Hsid). lia. }
  assert (length files = N.to_nat (next_file_id (dump_ids c))) as Hlength.
  { rewrite <- (length_map proto.File.id), Hfi, Hids. by rewrite length_map, length_seq. }
  assert (forall file, file ∈ files ->
            exists d, file_ids (dump_ids c) !! Path d = Some (proto.File.id file)
              /\ proto.File.symbol_size file
                 = Z.of_N (next_symbol (dump_ids c) (Path d))) as Hsizes.
  { intros file Hfile. rewrite Forall_forall in Hfd.
    destruct (Hfd file Hfile) as (d & Hd & Hid & Hrecord). exists d. split; [done|].
    eapply file_symbol_size; [done..| |done]. by apply Hsub. }
  destruct Hbounded as [_ Hsymbols].
  split; [|split].
  - apply stream_complete_terminated. by exists body, (Frame.mk 0 None), [].
  - apply loop_ok_iff. split; [|split; [done|]].
    + intros Hnone. by apply (Hrecords _ Hnone).
    + by rewrite Hfiles, Hfi, Hids, Hlength.
  - apply bounds_checked; [|done|].
    + unfold well_typed. apply andb_true_iff. split; apply forallb_forall.
      * intros [fid sid] Hin%list_elem_of_In.
        destruct (reference_origin _ _ _ Hin) as (s & e & Hs & He & <- & <- & Hne).
        destruct (Hentries s e Hs He) as (p & _ & Hsid). specialize (Hsymbols p).
        unfold is_int32. cbn [snd]. apply andb_true_iff.
        split; [apply Z.leb_le|apply Z.ltb_lt]; lia.
      * intros file Hin%list_elem_of_In. rewrite Hfiles in Hin.
        destruct (Hsizes file Hin) as (d & _ & ->). specialize (Hsymbols (Path d)).
        unfold is_int32. apply andb_true_iff.
        split; [apply Z.leb_le|apply Z.ltb_lt]; lia.
    + intros fid sid Hin.
      destruct (reference_origin _ _ _ Hin) as (s & e & Hs & He & <- & <- & Hne).
      destruct (Hentries s e Hs He) as (p & Hp & Hsid).
      pose proof (dense_file_lt _ Hdense _ _ Hp) as Hlt.
      destruct (lookup_lt_is_Some_2 files
                  (N.to_nat (proto.Sample_CallChainEntry.file_id e))) as [file Hfile];
        [lia|].
      rewrite Hfiles. exists file. split; [done|].
      assert (proto.File.id file = proto.Sample_CallChainEntry.file_id e) as Hfid.
      { assert (map proto.File.id files
                  !! N.to_nat (proto.Sample_CallChainEntry.file_id e)
                = Some (proto.File.id file)) as Hlook
          by (by rewrite list_lookup_fmap, Hfile).
        rewrite Hfi, Hids, list_lookup_fmap, lookup_seq_lt in Hlook by lia.
        injection Hlook as <-. cbn. lia. }
      destruct (Hsizes file (list_elem_of_lookup_2 _ _ _ Hfile)) as (d & Hd & ->).
      rewrite Hfid in Hd. rewrite (dense_file_inj _ Hdense _ _ _ Hd Hp). lia.
Qed.

Lemma Run_report_stream meta_info_ trace_offcpu_ records c :
  use_protobuf_ c = true ->
  let res := Run_report meta_info_ trace_offcpu_ records c in
  res.1 = Returned true ->
  exists meta cm cd cl threads,
    coded_os_ cm = coded_os_ c ++ [frame_of (proto.meta_info meta)]
    /\ dump_ids cm = dump_ids c /\ use_protobuf_ cm = true
    /\ sample_count_ cm = sample_count_ c /\ lost_count_ cm = lost_count_ c
    /\ ReadDataSection records ProcessRecord cm = (Returned true, cd)
    /\ writes cd cl
         [frame_of (proto.lost
                      (proto.LostSituation.mk (sample_count_ cd) (lost_count_ cd)))]
    /\ coded_os_ res.2
       = coded_os_ cl
         ++ file_frames cl
              (std_sort (CompareDsoByDumpId (dump_ids cl)) (GetAllDsos (thread_tree_ cl)))
         ++ thread_frames threads ++ [Frame.mk 0 None]
    /\ dump_ids res.2 = dump_ids cl /\ thread_tree_ res.2 = thread_tree_ cl
    /\ report_fp_ res.2 = report_fp_ c +:+ PROT_FILE_MAGIC +:+ version_bytes.
Proof.
  intros Hmode. cbv zeta. unfold Run_report. rewrite Hmode.
  set (c0 := set_report_fp_ _ c).
  unfold PrintMetaInfo. change (use_protobuf_ c0) with (use_protobuf_ c). rewrite Hmode.
  destruct (WriteRecordInProtobuf _ c0) as [[] cm] eqn:Hmeta; [|done].
  apply WriteRecordInProtobuf_writes in Hmeta.
  destruct Hmeta as (Hos_m & Hids_m & _ & Hfp_m & Hsc_m & Hlc_m & Ho_m).
  assert (use_protobuf_ cm = true) as Hmode_m.
  { injection Ho_m as _ -> _. done. }
  pose proof (ReadDataSection_frames records cm Hmode_m) as Hdata.
  destruct (ReadDataSection records ProcessRecord cm) as [[[]|] cd] eqn:Hread;
    cbn [fst snd] in *; try done.
  destruct (Hdata eq_refl) as (Hfp_d & Ho_d & _).
  assert (use_protobuf_ cd = true) as ->.
  { injection Ho_d as _ -> _. done. }
  unfold PrintLostSituationInProtobuf.
  destruct (WriteRecordInProtobuf _ cd) as [[] cl] eqn:Hlost; [|done].
  apply WriteRecordInProtobuf_writes in Hlost.
  unfold PrintFileInfoInProtobuf.
  destruct (write_files _ cl) as [[] cf] eqn:Hfiles; [|done].
  apply write_files_writes in Hfiles.
  unfold PrintThreadInfoInProtobuf.
  destruct (write_threads _ cf) as [[] ct] eqn:Hthreads; [|done].
  apply write_threads_writes in Hthreads.
  intros _. cbn [snd coded_os_ report_fp_ thread_tree_ dump_ids set_coded_os_].
  pose proof (writes_trans _ _ _ _ _ Hfiles Hthreads)
    as (Hos_t & Hids_t & Htree_t & Hfp_t & _).
  eexists _, cm, cd, cl, _. rewrite Hos_t, <- !app_assoc.
  split; [exact Hos_m|]. split; [exact Hids_m|]. split; [done|].
  split; [exact Hsc_m|]. split; [exact Hlc_m|]. split; [done|]. split; [exact Hlost|].
  split; [done|]. split; [done|]. split; [done|].
  rewrite Hfp_t. destruct Hlost as (_ & _ & _ & -> & _). by rewrite Hfp_d, Hfp_m.
Qed.

Lemma data_frames_plain frames :
  Forall (fun f => exists s, Frame.parsed f = Some (proto.sample s)
                             /\ Frame.size f = ByteSize (proto.sample s)) frames ->
  Forall readable frames
  /\ filter is_sample (omap Frame.parsed frames) = omap Frame.parsed frames
  /\ length (omap Frame.parsed frames) = length frames
  /\ lost_records (omap Frame.parsed frames) = [].
Proof.
  induction 1 as [|f frames (s & Hs & Hsize) _ (IHr & IHs & IHl & IHn)]; [done|].
  rewrite omap_cons, Hs, filter_cons_True by done. cbn [length].
  rewrite IHs, IHl. split; [|done]. apply Forall_cons. split; [|done].
  split; [rewrite Hsize; apply ByteSize_positive|by rewrite Hs].
Qed.

(** X12: the decoder accepts what a run in protobuf mode has written.
    When [std::sort] sorts, no record has an empty encoding, the samples
    carry fewer than 2^31 instruction pointers, the run starts on an empty
    report with no dump id given and returns true, and the thread tree
    holds the files and symbols that received a dump id, then
    [DumpProtobufReport] returns true on the report. *)
Theorem Run_report_is_accepted_by_DumpProtobufReport
    meta_info_ trace_offcpu_ records c fp static_sample_count :
  use_protobuf_ c = true -> report_fp_ c = "" -> coded_os_ c = [] ->
  dump_ids c = empty_table ->
  (total_pointers records < 2 ^ 31)%N ->
  let res := Run_report meta_info_ trace_offcpu_ records c in
  res.1 = Returned true ->
  covers (thread_tree_ res.2) (dump_ids res.2) ->
  (DumpProtobufReport (mkReportFile (report_fp_ res.2) (coded_os_ res.2))
     fp static_sample_count).1 = true.
Proof.
  intros Hmode Hfp Hos Hids Hn. cbv zeta. intros Hret.
  destruct (Run_report_stream meta_info_ trace_offcpu_ records c Hmode Hret)
    as (meta & cm & cd & cl & threads & Hos_m & Hids_m & Hmode_m & _ & _ & Hread
        & Hlost & -> & -> & -> & ->).
  assert (ids_ok 0 cm) as Hok.
  { unfold ids_ok. rewrite Hids_m, Hos_m, Hids, Hos.
    split; [apply dense_ids_empty|]. split; [apply dense_ids_empty|].
    apply Forall_singleton. by eexists. }
  pose proof (ReadDataSection_ids records cm 0 Hmode_m Hok ltac:(lia)) as Hdata.
  pose proof (ReadDataSection_frames records cm Hmode_m) as Hframes.
  rewrite Hread in Hdata, Hframes. cbn [fst snd] in Hdata, Hframes.
  destruct (Hdata eq_refl) as [Hok_d _]. rewrite N.add_0_l in Hok_d.
  destruct (Hframes eq_refl) as (_ & _ & frames & Hos_d & _ & Hsamples).
  assert (ids_ok (total_pointers records) cl) as (Hdense & Hbounded & Hplain).
  { apply (writes_ids_ok _ cd cl _ Hlost Hok_d). apply Forall_singleton. by eexists. }
  assert (Forall (fun f => Frame.size f <> 0%N) (coded_os_ cl)) as Hnonzero.
  { destruct Hlost as (-> & _). rewrite Hos_d, Hos_m, Hos.
    apply Forall_app. split; [apply Forall_cons; split|].
    - apply ByteSize_positive.
    - destruct (data_frames_plain frames Hsamples) as (Hreadable & _).
      eapply Forall_impl; [exact Hreadable|]. by intros f [? _].
    - apply Forall_singleton. apply ByteSize_positive. }
  intros Hcovers.
  destruct (table_accepted cl (coded_os_ cl) threads (total_pointers records)
              Hdense Hbounded Hn Hcovers Hplain Hnonzero)
    as (Hcomplete & Hloop & Hcheck).
  rewrite DumpProtobufReport_verdict. cbv zeta. cbn [coded_stream leading_bytes].
  rewrite Hcomplete, Hloop, Hcheck, !andb_true_r. by rewrite Hfp.
Qed.






End Acceptance.

(** * A run that fails *)

Section Failure.

Context {ThreadTree : Type} `{Collaborators ThreadTree} `{RunCollaborators ThreadTree}.

Implicit Types (c : ReportSampleCommand ThreadTree).

Hypothesis ByteSize_positive : forall record, ByteSize record <> 0%N.








End Failure.

(** ** The run on the small thread tree *)

Lemma insert_sorted_contract {A : Type} (less : A -> A -> bool) (key : A -> N)
    (x : A) (l : list A) :
  (forall a b, less a b = (key a <? key b)%N) ->
  StronglySorted (fun a b => (key a <= key b)%N) l ->
  Scenario.insert_sorted less x l ≡ₚ x :: l
  /\ StronglySorted (fun a b => (key a <= key b)%N) (Scenario.insert_sorted less x l).
Proof.
  intros Hless. induction 1 as [|y rest Hsorted [IHperm IHsorted] Hall].
  { split; [done|]. repeat constructor. }
  cbn [Scenario.insert_sorted]. rewrite Hless.
  destruct (N.ltb_spec (key y) (key x)) as [Hlt|Hge].
  - split; [by rewrite IHperm, Permutation_swap|].
    constructor; [done|]. apply Forall_forall. intros b Hb. rewrite IHperm in Hb.
    apply elem_of_cons in Hb as [->|Hb]; [lia|].
    rewrite List.Forall_forall in Hall. apply Hall. by apply list_elem_of_In.
  - split; [done|]. constructor; [by constructor|].
    apply List.Forall_cons; [done|]. eapply List.Forall_impl; [|exact Hall].
    intros b Hb. cbn beta in *. lia.
Qed.

Lemma insertion_sort_contract : sort_contract (@Scenario.insertion_sort).
Proof.
  intros A less key l Hless. induction l as [|x l [IHperm IHsorted]].
  { split; [done|constructor]. }
  cbn [Scenario.insertion_sort].
  destruct (insert_sorted_contract less key x _ Hless IHsorted) as [Hperm Hsorted].
  split; [|done]. by rewrite Hperm, IHperm.
Qed.

Lemma covers_decide `{RunCollaborators ThreadTree} (t : ThreadTree) (rt : ReferenceTable) :
  NoDup (map Path (GetAllDsos t)) ->
  map_Forall (fun p (_ : N) => p ∈ map Path (GetAllDsos t)) (file_ids rt) ->
  Forall (fun d => NoDup (map symbol_ptr (GetSymbols t d))) (GetAllDsos t) ->
  Forall (fun d =>
            map_Forall (fun (k : string * N) (_ : N) =>
                          k.1 = Path d -> k.2 ∈ map symbol_ptr (GetSymbols t d))
              (symbol_ids rt)) (GetAllDsos t) ->
  covers t rt.
Proof.
  intros Hdsos Hfiles Honce Hsymbols. split; [done|..].
  - intros p i Hp. by apply (Hfiles p i).
  - intros d Hd. rewrite Forall_forall in Honce. by apply Honce.
  - intros d s i Hd Hs. rewrite Forall_forall in Hsymbols.
    by apply (Hsymbols d Hd (Path d, s) i Hs).
Qed.

Lemma Scenario_covers :
  let res := Run_report Scenario.meta_info false Scenario.records
               (Fixture.command true true true false) in
  covers (thread_tree_ res.2) (dump_ids res.2).
Proof.
  cbv zeta. apply covers_decide.
  all: apply (bool_decide_unpack _); vm_compute; exact I.
Qed.

Lemma Scenario_data_ids :
  let res := ReadDataSection Scenario.records ProcessRecord
               (Fixture.command true true true false) in
  dense_ids (dump_ids res.2) /\ covers (thread_tree_ res.2) (dump_ids res.2).
Proof.
  cbv zeta. split.
  - destruct (ReadDataSection_ids Scenario.records
                (Fixture.command true true true false) 0) as [(Hdense & _) _];
      [reflexivity| |by vm_compute..|done].
    split; [apply dense_ids_empty|]. split; [apply dense_ids_empty|constructor].
  - apply covers_decide.
    all: apply (bool_decide_unpack _); vm_compute; exact I.
Qed.

Lemma Run_report_is_accepted_by_DumpProtobufReport_witness :
  let res := Run_report Scenario.meta_info false Scenario.records
               (Fixture.command true true true false) in
  res.1 = Returned true
  /\ (DumpProtobufReport (mkReportFile (report_fp_ res.2) (coded_os_ res.2)) "" 0).1
     = true.
Proof.
  cbv zeta. split; [by vm_compute|].
  apply (@Run_report_is_accepted_by_DumpProtobufReport Fixture.Tree
           Fixture.collaborators Scenario.run_collaborators insertion_sort_contract).
  - intros record. by vm_compute.
  - reflexivity.
  - reflexivity.
  - reflexivity.
  - reflexivity.
  - by vm_compute.
  - by vm_compute.
  - exact Scenario_covers.
Defined.

Lemma DumpProtobufReport_accepts_valid_reports_witness :
  well_typed (records_read (coded_stream Fixture.two_file_report)) = true
  /\ valid_report Fixture.two_file_report.
Proof.
  split; [by vm_compute|].
  apply (DumpProtobufReport_accepts_valid_reports Fixture.two_file_report "" 0);
    by vm_compute.
Defined.

Lemma process_chain_writes_one_sample_witness :
  exists callchain,
    let record :=
      proto.sample (proto.Sample.mk 1000 1 100 callchain 0) in
    let res := process_chain (Fixture.sample_of [48; 64]%N 0) [48; 64]%N 0
                 (Fixture.command false true false false) in
    res.1 = Returned true
    /\ coded_os_ res.2 = [Frame.mk 1 (Some record)]
    /\ length callchain = 1%nat.
Proof.
  destruct (process_chain_writes_one_sample (Fixture.command false true false false)
              (Fixture.sample_of [48; 64]%N 0) [48; 64]%N 0 eq_refl ltac:(done))
    as (callchain & Hres & Hos & _ & _ & Hone).
  exists callchain. split; [exact Hres|]. split; [exact Hos|]. by apply Hone.
Defined.

Lemma ReadDataSection_counts_witness :
  let res := ReadDataSection Scenario.records ProcessRecord
               (Fixture.command true true true false) in
  res.1 = Returned true /\ sample_count_ res.2 = 2%N /\ lost_count_ res.2 = 7%N.
Proof.
  cbv zeta. split; [by vm_compute|].
  destruct (ReadDataSection_counts Scenario.records
              (Fixture.command true true true false)) as (Hsamples & Hlost & _);
    [by vm_compute..|].
  split; [by rewrite Hsamples|by rewrite Hlost].
Defined.

Lemma Run_report_text_mode_witness :
  let res := Run_report Scenario.meta_info true Scenario.records
               (Fixture.command true false false false) in
  res.1 = Returned true /\ coded_os_ res.2 = [] /\ dump_ids res.2 = Fixture.no_dump_ids.
Proof.
  apply (Run_report_text_mode Scenario.meta_info true Scenario.records
           (Fixture.command true false false false)).
  reflexivity.
Defined.

Lemma ReadDataSection_keeps_the_dump_ids_witness :
  let c := Fixture.command true true true false in
  let res := ReadDataSection Scenario.records ProcessRecord c in
  res.1 = Returned true
  /\ dense_ids (dump_ids res.2)
  /\ extends (dump_ids c) (dump_ids res.2)
  /\ forall f s e,
       f ∈ coded_os_ res.2 -> Frame.parsed f = Some (proto.sample s) ->
       e ∈ proto.Sample.callchain s -> refers_to (dump_ids res.2) e.
Proof.
  cbv zeta. split; [by vm_compute|].
  apply (ReadDataSection_keeps_the_dump_ids Scenario.records
           (Fixture.command true true true false) 0).
  - reflexivity.
  - split; [apply dense_ids_empty|]. split; [apply dense_ids_empty|constructor].
  - by vm_compute.
  - by vm_compute.
Defined.



Lemma PrintFileInfoInProtobuf_writes_the_file_table_witness :
  let c := (ReadDataSection Scenario.records ProcessRecord
              (Fixture.command true true true false)).2 in
  (PrintFileInfoInProtobuf c).1 = true
  /\ exists files,
       coded_os_ (PrintFileInfoInProtobuf c).2
       = coded_os_ c ++ map (fun file => frame_of (proto.file file)) files
       /\ map proto.File.id files
          = map N.of_nat (seq 0 (N.to_nat (next_file_id (dump_ids c))))
       /\ Forall (describes (dump_ids c)) files.
Proof.
  cbv zeta. split; [by vm_compute|].
  apply (@PrintFileInfoInProtobuf_writes_the_file_table Fixture.Tree
           Fixture.collaborators Scenario.run_collaborators insertion_sort_contract).
  - apply Scenario_data_ids.
  - apply Scenario_data_ids.
  - by vm_compute.
Defined.

Lemma PrintThreadInfoInProtobuf_writes_the_threads_witness :
  let c := Fixture.command true true true false in
  exists threads,
    threads ≡ₚ [Scenario.worker_thread; Fixture.main_thread]
    /\ StronglySorted (fun a b => (tid a <= tid b)%N) threads
    /\ coded_os_ (PrintThreadInfoInProtobuf c).2
       = map (fun thread => frame_of (thread_record thread)) threads.
Proof.
  apply (@PrintThreadInfoInProtobuf_writes_the_threads Fixture.Tree
           Fixture.collaborators Scenario.run_collaborators insertion_sort_contract
           (Fixture.command true true true false)).
  by vm_compute.
Defined.
